(** * prbrain: diff parser, text similarity, embedding store and
    deduplication engine, embedded in Rocq.

  Modelling conventions.
  - JavaScript strings are sequences of characters; they are modelled by
    [string] (a list of 8-bit [ascii] characters).  Characters above 127
    are neither word characters nor white space and have no case.
  - JavaScript numbers that hold counts, line numbers and time stamps are
    modelled by [Z]; similarity scores are modelled by exact rationals [Q]
    (0.7 is 7/10), compared with [Qeq] and [Qle].  The constants that the
    properties depend on are checked again on binary64 numbers.
  - [Array.prototype.sort] with a comparator is stable; it is modelled by a
    stable insertion sort on the comparator's sign.
  - A [Map] is an association list in insertion order, a [Set] a list
    without repetition in insertion order.
  - An awaited call either resolves or rejects ([Outcome]); [try]/[catch]
    is a match on the outcome.  The collaborators of the engine (embedding
    service, store, text search) are given by what they answer; the file
    of the store is given by what reading and parsing it yields. *)

From Stdlib Require Import List Bool Arith ZArith QArith Qminmax Lia Lqa.
From Stdlib Require Import Strings.String Strings.Ascii.
From Stdlib Require Import Numbers.DecimalString Numbers.DecimalZ Numbers.DecimalPos.
From Stdlib Require Import Sorting.Sorted Sorting.Permutation.
From Stdlib Require Import Floats.PrimFloat.
Import ListNotations.

Local Open Scope string_scope.
Local Open Scope list_scope.

(** * Part I: the model *)

(** ** JavaScript string primitives used by the sources *)

Module JsString.

Definition nl : ascii := "010"%char.

(** [s.startsWith(p)] *)
Definition startsWith (s p : string) : bool := String.prefix p s.

(** [s.slice(1)] *)
Definition slice1 (s : string) : string :=
  match s with
  | EmptyString => EmptyString
  | String _ r => r
  end.

(** [s.split(sep)] for a one-character separator: always at least one
    piece. *)
Fixpoint split (sep : ascii) (s : string) : list string :=
  match s with
  | EmptyString => [EmptyString]
  | String c r =>
      if Ascii.eqb c sep then EmptyString :: split sep r
      else match split sep r with
           | [] => [String c EmptyString]
           | w :: ws => String c w :: ws
           end
  end.

Definition isDigit (c : ascii) : bool :=
  let n := nat_of_ascii c in (48 <=? n)%nat && (n <=? 57)%nat.

Definition isUpper (c : ascii) : bool :=
  let n := nat_of_ascii c in (65 <=? n)%nat && (n <=? 90)%nat.

Definition isLower (c : ascii) : bool :=
  let n := nat_of_ascii c in (97 <=? n)%nat && (n <=? 122)%nat.

(** [\w] *)
Definition isWord (c : ascii) : bool :=
  isDigit c || isUpper c || isLower c || Ascii.eqb c "_"%char.

(** [\s] : space, tab, line feed, vertical tab, form feed, carriage
    return *)
Definition isSpace (c : ascii) : bool :=
  let n := nat_of_ascii c in
  (n =? 32)%nat || ((9 <=? n)%nat && (n <=? 13)%nat).

Definition lowerChar (c : ascii) : ascii :=
  if isUpper c then ascii_of_nat (nat_of_ascii c + 32) else c.

(** [s.toLowerCase()] *)
Fixpoint toLowerCase (s : string) : string :=
  match s with
  | EmptyString => EmptyString
  | String c r => String (lowerChar c) (toLowerCase r)
  end.

Fixpoint trimStart (s : string) : string :=
  match s with
  | EmptyString => EmptyString
  | String c r => if isSpace c then trimStart r else s
  end.

(** drops trailing white space *)
Fixpoint trimEnd (s : string) : string :=
  match s with
  | EmptyString => EmptyString
  | String c r =>
      match trimEnd r with
      | EmptyString => if isSpace c then EmptyString else String c EmptyString
      | r' => String c r'
      end
  end.

(** [s.trim()] *)
Definition trim (s : string) : string := trimEnd (trimStart s).

(** [parseInt(s, 10)] on a string of decimal digits *)
Definition digitVal (c : ascii) : Z := Z.of_nat (nat_of_ascii c - 48).

Fixpoint parseDigits (acc : Z) (s : string) : Z :=
  match s with
  | EmptyString => acc
  | String c r => parseDigits (10 * acc + digitVal c)%Z r
  end.

Definition parseInt (s : string) : Z := parseDigits 0%Z s.

(** the longest prefix of digits, and the rest *)
Fixpoint spanDigits (s : string) : string * string :=
  match s with
  | EmptyString => (EmptyString, EmptyString)
  | String c r =>
      if isDigit c then let (d, t) := spanDigits r in (String c d, t)
      else (EmptyString, s)
  end.

(** [s] without the prefix [p], when it starts with it *)
Fixpoint stripPrefix (p s : string) : option string :=
  match p with
  | EmptyString => Some s
  | String a p' =>
      match s with
      | EmptyString => None
      | String b s' => if Ascii.eqb a b then stripPrefix p' s' else None
      end
  end.

(** [lines.join(sep)] *)
Definition join (sep : ascii) (l : list string) : string :=
  String.concat (String sep EmptyString) l.

(** [s.indexOf(c, from)] for a one-character [c] *)
Fixpoint indexOf (s : string) (c : ascii) (from : nat) : option nat :=
  match s with
  | EmptyString => None
  | String d r =>
      match from with
      | O => if Ascii.eqb d c then Some O else option_map S (indexOf r c O)
      | S f => option_map S (indexOf r c f)
      end
  end.

(** [String(n)] for an integer [n] *)
Definition ofNumber (n : Z) : string :=
  NilZero.string_of_int (Z.to_int n).

(** a string is truthy when it is not empty *)
Definition truthy (s : string) : bool :=
  match s with
  | EmptyString => false
  | _ => true
  end.

End JsString.

(** ** Regular expressions with one capture group, matched the way
    JavaScript does: leftmost, greedy, by backtracking. *)

Module Regex.
Import JsString.

Inductive t :=
| Eps
| Chr (p : ascii -> bool)
| Cat (a b : t)
| Alt (a b : t)
| Star (a : t)
| Group (a : t).

Definition Plus (a : t) : t := Cat a (Star a).
Definition Opt (a : t) : t := Alt a Eps.
Definition Is (c : ascii) : t := Chr (Ascii.eqb c).
Definition Not (c : ascii) : t := Chr (fun d => negb (Ascii.eqb c d)).

Fixpoint Lit (s : string) : t :=
  match s with
  | EmptyString => Eps
  | String c r => Cat (Is c) (Lit r)
  end.

Fixpoint seq (l : list t) : t :=
  match l with
  | [] => Eps
  | [a] => a
  | a :: r => Cat a (seq r)
  end.

Fixpoint alt (l : list t) : t :=
  match l with
  | [] => Eps
  | [a] => a
  | a :: r => Alt a (alt r)
  end.

(** [matchAt r s cap k]: match [r] at the start of [s], then continue with
    [k] on the rest; [cap] is the text captured by the group so far.  An
    iteration of a star that consumes nothing is not considered. *)
Fixpoint matchAt {R : Type} (r : t) (s : string) (cap : option string)
    (k : string -> option string -> option R) {struct r} : option R :=
  match r with
  | Eps => k s cap
  | Chr p =>
      match s with
      | String c s' => if p c then k s' cap else None
      | EmptyString => None
      end
  | Cat a b => matchAt a s cap (fun s' cap' => matchAt b s' cap' k)
  | Alt a b =>
      match matchAt a s cap k with
      | Some res => Some res
      | None => matchAt b s cap k
      end
  | Star a =>
      (fix loop (fuel : nat) (s : string) (cap : option string)
           {struct fuel} : option R :=
         match fuel with
         | O => k s cap
         | S fuel' =>
             match matchAt a s cap
                     (fun s' cap' =>
                        if (String.length s' <? String.length s)%nat
                        then loop fuel' s' cap' else None) with
             | Some res => Some res
             | None => k s cap
             end
         end) (S (String.length s)) s cap
  | Group a =>
      matchAt a s cap
        (fun s' _ =>
           k s' (Some (substring 0 (String.length s - String.length s') s)))
  end.

(** [s.match(r)] without the [g] flag: the first position where [r]
    matches; the result is the text of the capture group. *)
Fixpoint search (r : t) (s : string) : option (option string) :=
  match matchAt r s None (fun _ cap => Some cap) with
  | Some cap => Some cap
  | None =>
      match s with
      | EmptyString => None
      | String _ s' => search r s'
      end
  end.

End Regex.

(** ** src/utils/diff-parser.ts *)

Module DiffParser.
Import JsString.

Inductive LineType := added | removed | context.

Definition LineType_eqb (a b : LineType) : bool :=
  match a, b with
  | added, added | removed, removed | context, context => true
  | _, _ => false
  end.

Record DiffLine := mkDiffLine {
  type : LineType;
  content : string;
  lineNumber : Z
}.

Record DiffChunk := mkDiffChunk {
  oldStart : Z;
  oldLines : Z;
  newStart : Z;
  newLines : Z;
  lines : list DiffLine
}.

(** The optional group [(?:,(\d+))?]: a comma followed by at least one
    digit, or nothing. *)
Definition optionalCount (s : string) : option string * string :=
  match s with
  | String "," r =>
      match spanDigits r with
      | (EmptyString, _) => (None, s)
      | (d, t) => (Some d, t)
      end
  | _ => (None, s)
  end.

(** [line.match(/^@@ -(\d+)(?:,(\d+))? \+(\d+)(?:,(\d+))? @@/)]: the four
    capture groups.  A run of digits is always followed by a character
    that is not a digit, so the greedy match is the only one. *)
Definition chunkMatch (line : string)
  : option (string * option string * string * option string) :=
  match stripPrefix "@@ -" line with
  | None => None
  | Some r1 =>
      match spanDigits r1 with
      | (EmptyString, _) => None
      | (g1, r2) =>
          let (g2, r3) := optionalCount r2 in
          match stripPrefix " +" r3 with
          | None => None
          | Some r4 =>
              match spanDigits r4 with
              | (EmptyString, _) => None
              | (g3, r5) =>
                  let (g4, r6) := optionalCount r5 in
                  if startsWith r6 " @@" then Some (g1, g2, g3, g4)
                  else None
              end
          end
      end
  end.

(** [chunkMatch[k] || '1'] *)
Definition orOne (g : option string) : string :=
  match g with
  | Some d => d
  | None => "1"
  end.

Definition isMetadata (line : string) : bool :=
  startsWith line "diff --git" || startsWith line "index " ||
  startsWith line "---" || startsWith line "+++".

Definition isDiffLine (line : string) : bool :=
  startsWith line "+" || startsWith line "-" || startsWith line " ".

Definition lineType (line : string) : LineType :=
  if startsWith line "+" then added
  else if startsWith line "-" then removed
  else context.

(** [ls.filter(l => l.type !== t).length] *)
Definition countNot (t : LineType) (ls : list DiffLine) : Z :=
  Z.of_nat (List.length (filter (fun l => negb (LineType_eqb (type l) t)) ls)).

(** The line object pushed on the current chunk. *)
Definition newLine (c : DiffChunk) (line : string) : DiffLine :=
  let ty := lineType line in
  {| type := ty;
     content := slice1 line;
     lineNumber :=
       if LineType_eqb ty added
       then (newStart c + countNot removed (lines c))%Z
       else (oldStart c + countNot added (lines c))%Z |}.

Definition pushLine (c : DiffChunk) (l : DiffLine) : DiffChunk :=
  {| oldStart := oldStart c; oldLines := oldLines c;
     newStart := newStart c; newLines := newLines c;
     lines := lines c ++ [l] |}.

(** The loop state: [chunks] and [currentChunk]. *)
Record State := mkState {
  chunks : list DiffChunk;
  currentChunk : option DiffChunk
}.

Definition closeChunk (st : State) : list DiffChunk :=
  match currentChunk st with
  | Some c => chunks st ++ [c]
  | None => chunks st
  end.

(** One iteration of [for (const line of lines)]. *)
Definition step (st : State) (line : string) : State :=
  match chunkMatch line with
  | Some (g1, g2, g3, g4) =>
      {| chunks := closeChunk st;
         currentChunk :=
           Some {| oldStart := parseInt g1;
                   oldLines := parseInt (orOne g2);
                   newStart := parseInt g3;
                   newLines := parseInt (orOne g4);
                   lines := [] |} |}
  | None =>
      if isMetadata line then st
      else
        match currentChunk st with
        | Some c =>
            if isDiffLine line
            then {| chunks := chunks st;
                    currentChunk := Some (pushLine c (newLine c line)) |}
            else st
        | None => st
        end
  end.

Definition initial : State := {| chunks := []; currentChunk := None |}.

Definition run (ls : list string) (st : State) : State :=
  fold_left step ls st.

Definition parseDiff (diff : string) : list DiffChunk :=
  match diff with
  | EmptyString => []
  | _ => closeChunk (run (split nl diff) initial)
  end.

(** [extractChangedLines] *)
Definition extractChangedLines (diff : string) : list string * list string :=
  let all := flat_map lines (parseDiff diff) in
  (map content (filter (fun l => LineType_eqb (type l) added) all),
   map content (filter (fun l => LineType_eqb (type l) removed) all)).

(** [getDiffStats]: additions, deletions, changes *)
Definition getDiffStats (diff : string) : Z * Z * Z :=
  let all := flat_map lines (parseDiff diff) in
  let additions :=
    Z.of_nat (List.length (filter (fun l => LineType_eqb (type l) added) all)) in
  let deletions :=
    Z.of_nat (List.length (filter (fun l => LineType_eqb (type l) removed) all)) in
  (additions, deletions, (additions + deletions)%Z).

(** The signature patterns of [detectFunctionDefinition], in the order of
    the source. *)
Section Patterns.
Import Regex.

Let ws : Regex.t := Star (Chr isSpace).
Let ws1 : Regex.t := Plus (Chr isSpace).
Let word : Regex.t := Plus (Chr isWord).
Let name : Regex.t := Group word.
Let params : Regex.t := seq [Is "("; Star (Not ")"); Is ")"].

(** JavaScript/TypeScript declarations (diff-parser.ts, line 157):
    [function], [const], [let] or [var], a name, an optional [=] or [:],
    a parameter list (possibly after [async]), then [=>] or an opening
    brace. *)
Definition patJavaScript : Regex.t :=
  seq [ alt [ Cat (Lit "function") ws1; Cat (Lit "const") ws1;
              Cat (Lit "let") ws1; Cat (Lit "var") ws1 ];
        name; ws;
        Opt (Chr (fun c => Ascii.eqb c "=" || Ascii.eqb c ":"));
        ws;
        alt [ params; seq [Lit "async"; ws1; params] ];
        ws;
        alt [ Lit "=>"; Is "{" ] ].

(** Method definitions (line 158): an optional [async], a name, a
    parameter list, an optional return annotation, an opening brace. *)
Definition patMethod : Regex.t :=
  seq [ Opt (Cat (Lit "async") ws1);
        name; ws; params; ws;
        Opt (seq [Is ":"; ws; Plus (Not "{")]);
        ws; Is "{" ].

(** Python (line 161): [def], a name, a parameter list, an optional
    [->] annotation, a colon. *)
Definition patPython : Regex.t :=
  seq [ Lit "def"; ws1; name; ws; params; ws;
        Opt (seq [Lit "->"; ws; Plus (Not ":")]);
        ws; Is ":" ].

(** Java/C#/C++ (line 164): any run of modifiers and white space, any
    run of words each followed by white space, a name, a parameter list,
    an optional [throws] clause, an opening brace. *)
Definition patJava : Regex.t :=
  seq [ Star (alt [ Lit "public"; Lit "private"; Lit "protected";
                    Lit "static"; Chr isSpace ]);
        ws;
        Star (Cat word ws1);
        name; ws; params; ws;
        Opt (seq [Lit "throws"; ws1; word; ws]);
        Is "{" ].

(** Go (line 167): [func], an optional receiver, a name, a parameter
    list, an optional result, an opening brace. *)
Definition patGo : Regex.t :=
  seq [ Lit "func"; ws1;
        Opt (Cat params ws1);
        name; ws; params;
        Opt (Cat ws (Plus (Not "{")));
        ws; Is "{" ].

(** Rust (line 170): an optional [pub], [fn], a name, optional generics,
    a parameter list, an optional [->] result, an opening brace. *)
Definition patRust : Regex.t :=
  seq [ Opt (Cat (Lit "pub") ws1);
        Lit "fn"; ws1; name; ws;
        Opt (seq [Is "<"; Star (Not ">"); Is ">"]);
        ws; params;
        Opt (seq [ws; Lit "->"; ws; Plus (Not "{")]);
        ws; Is "{" ].

Definition patterns : list Regex.t :=
  [patJavaScript; patMethod; patPython; patJava; patGo; patRust].

End Patterns.

(** [for (const pattern of patterns)]: the first pattern whose match has a
    non-empty group. *)
Fixpoint firstMatch (ps : list Regex.t) (trimmedLine : string)
  : option string :=
  match ps with
  | [] => None
  | pattern :: rest =>
      match Regex.search pattern trimmedLine with
      | Some (Some m1) =>
          if truthy m1 then Some m1 else firstMatch rest trimmedLine
      | _ => firstMatch rest trimmedLine
      end
  end.

Definition detectFunctionDefinition (line : string) (language : option string)
  : option string :=
  let trimmedLine := trim line in
  firstMatch patterns trimmedLine.

(** The body of the inner loop of [extractFunctionChanges]: the state is
    [changes] and [currentFunction]. *)
Definition functionStep (language : option string)
    (st : list string * string) (line : DiffLine) : list string * string :=
  let (changes, currentFunction) := st in
  if negb (LineType_eqb (type line) context) then
    match detectFunctionDefinition (content line) language with
    | Some functionMatch =>
        (changes ++
           [((if LineType_eqb (type line) added then "Added" else "Modified")
               ++ " function: " ++ functionMatch)%string],
         functionMatch)
    | None =>
        if truthy currentFunction && truthy (trim (content line)) then
          if LineType_eqb (type line) added then
            (changes ++
               [("Added to " ++ currentFunction ++ ": "
                   ++ trim (content line))%string],
             currentFunction)
          else if LineType_eqb (type line) removed then
            (changes ++
               [("Removed from " ++ currentFunction ++ ": "
                   ++ trim (content line))%string],
             currentFunction)
          else st
        else st
    end
  else st.

(** The outer loop: [currentFunction] starts empty in every chunk. *)
Definition chunkStep (language : option string) (changes : list string)
    (chunk : DiffChunk) : list string :=
  fst (fold_left (functionStep language) (lines chunk) (changes, "")).

Definition extractFunctionChanges (diff : string) (language : option string)
  : list string :=
  firstn 10 (fold_left (chunkStep language) (parseDiff diff) []).

End DiffParser.


(** ** [Array.prototype.sort] and [Array.prototype.slice] *)

Module JsArray.

Section Sort.
Context {A : Type}.
(** [before a b] holds when the comparator's result on [(a, b)] is not
    positive: [a] may stay in front of [b]. *)
Variable before : A -> A -> bool.

Fixpoint insert (x : A) (l : list A) : list A :=
  match l with
  | [] => [x]
  | y :: l' => if before x y then x :: l else y :: insert x l'
  end.

(** stable: of two elements that compare equal the earlier one stays in
    front *)
Fixpoint sort (l : list A) : list A :=
  match l with
  | [] => []
  | x :: l' => insert x (sort l')
  end.

End Sort.

(** [l.slice(0, n)] *)
Definition slice0 {A : Type} (n : nat) (l : list A) : list A := firstn n l.

End JsArray.

(** ** src/types/index.ts *)

Inductive ItemType := pr | issue.

Definition ItemType_eqb (a b : ItemType) : bool :=
  match a, b with
  | pr, pr | issue, issue => true
  | _, _ => false
  end.

Definition ItemType_str (t : ItemType) : string :=
  match t with
  | pr => "pr"
  | issue => "issue"
  end.

Inductive Status := open | closed | merged | draft.

Module SimilarItem.
Record t := mk {
  type : ItemType;
  number : Z;
  title : string;
  similarity : Q;
  status : Status;
  url : string
}.
End SimilarItem.

(** [createdAt] holds the ISO text of an instant; the record of the model
    keeps the instant, in milliseconds since the epoch, which is what
    [new Date(createdAt).getTime()] reads back and what [addEmbedding] and
    [cleanup] compare.  [getStats] compares the texts themselves; there
    the text of a record is given beside it.  A record whose text
    denotes no instant has no value here. *)
Module EmbeddingData.
Record t := mk {
  id : string;
  type : ItemType;
  number : Z;
  title : string;
  body : string;
  embedding : list Q;
  createdAt : Z
}.
End EmbeddingData.

(** [EmbeddingData & { similarity: number }] *)
Module ScoredEmbedding.
Record t := mk {
  data : EmbeddingData.t;
  similarity : Q
}.
Definition type (x : t) : ItemType := EmbeddingData.type (data x).
Definition number (x : t) : Z := EmbeddingData.number (data x).
Definition title (x : t) : string := EmbeddingData.title (data x).
End ScoredEmbedding.

(** What the [embeddings] property of a document holds, when it is there.
    The property is declared an array of records, but [loadEmbeddings]
    checks neither; what the callers do with it depends on what it is.
    The elements of an array are taken to be records, as declared. *)
Inductive EmbeddingsValue :=
| Records (l : list EmbeddingData.t)
    (* an array *)
| Text (s : string)
    (* a string: it has a [length] and iterates by character, but it has
       no [filter] *)
| Other.
    (* a number, a boolean or an object: no [filter], not iterable *)

Module StoredEmbeddings.
Record t := mk {
  version : string;
  embeddings : EmbeddingsValue;
  lastUpdated : string
}.
End StoredEmbeddings.

Module DeduplicationResult.
Record t := mk {
  similarItems : list SimilarItem.t;
  isDuplicate : bool;
  duplicateThreshold : Q
}.
End DeduplicationResult.

Module PRContext.
Record t := mk {
  number : Z;
  title : string;
  body : option string
}.
End PRContext.

(** The outcome of an awaited call: a value, or a rejection. *)
Inductive Outcome (A : Type) :=
| Resolved (a : A)
| Rejected.
Arguments Resolved {A} a.
Arguments Rejected {A}.

Definition bind {A B : Type} (m : Outcome A) (f : A -> Outcome B)
  : Outcome B :=
  match m with
  | Resolved a => f a
  | Rejected => Rejected
  end.

Notation "x <- m ;; f" := (bind m (fun x => f))
  (at level 61, m at next level, right associativity).

(** [try { body } catch { handler }] *)
Definition tryCatch {A : Type} (body : Outcome A) (handler : Outcome A)
  : Outcome A :=
  match body with
  | Resolved a => Resolved a
  | Rejected => handler
  end.

(** ** src/adapters/storage.ts *)

Module StorageAdapter.

(** src/config/defaults.ts *)
Definition EMBEDDING_VERSION : string := "1.0".

Definition MAX_EMBEDDINGS : nat := 1000.

(** What [JSON.parse] returns for the file's text: [null], or a value whose
    [version] and [embeddings] properties may be missing.  [version] is
    [None] also when the property is no string; [embeddings] is [None]
    when the property is missing or [null], and any other value
    otherwise. *)
Inductive Json :=
| JNull
| JDoc (version : option string) (embeddings : option EmbeddingsValue)
       (lastUpdated : string).

(** The file [.prbrain/embeddings.json]. *)
Inductive File :=
| Missing                 (* readFile rejects with code ENOENT *)
| Unreadable              (* readFile rejects with another error *)
| Corrupt                 (* readFile resolves, JSON.parse throws *)
| Parsed (doc : Json).    (* readFile resolves, JSON.parse returns doc *)

Record Disk := mkDisk {
  file : File;
  writable : bool           (* whether mkdir and writeFile succeed *)
}.

Definition createEmptyEmbeddings (now : string) : StoredEmbeddings.t :=
  {| StoredEmbeddings.version := EMBEDDING_VERSION;
     StoredEmbeddings.embeddings := Records [];
     StoredEmbeddings.lastUpdated := now |}.

(** The [try] block of [loadEmbeddings].  Of [embeddings] it only reads
    [length], which throws when the property is missing or [null] and
    not otherwise: a document of the current version is returned as it
    is, whatever its [embeddings] holds. *)
Definition loadEmbeddings_try (now : string) (f : File)
  : Outcome StoredEmbeddings.t :=
  match f with
  | Missing => Rejected
  | Unreadable => Rejected
  | Corrupt => Rejected
  | Parsed JNull => Rejected          (* reading [version] of null throws *)
  | Parsed (JDoc v es lu) =>
      match v with
      | Some ver =>
          if String.eqb ver EMBEDDING_VERSION then
            match es with
            | Some l =>
                Resolved {| StoredEmbeddings.version := ver;
                            StoredEmbeddings.embeddings := l;
                            StoredEmbeddings.lastUpdated := lu |}
            | None => Rejected         (* [embeddings.length] throws *)
            end
          else Resolved (createEmptyEmbeddings now)
      | None => Resolved (createEmptyEmbeddings now)
      end
  end.

(** The [catch] block: both branches (ENOENT or not) return an empty
    collection. *)
Definition loadEmbeddings_catch (now : string) (f : File)
  : Outcome StoredEmbeddings.t :=
  match f with
  | Missing => Resolved (createEmptyEmbeddings now)
  | _ => Resolved (createEmptyEmbeddings now)
  end.

Definition loadEmbeddings (now : string) (f : File)
  : Outcome StoredEmbeddings.t :=
  tryCatch (loadEmbeddings_try now f) (loadEmbeddings_catch now f).

(** [saveEmbeddings]: stamps [lastUpdated], writes the file, rethrows a
    failure. *)
Definition saveEmbeddings (now : string) (d : Disk)
    (embeddings : StoredEmbeddings.t) : Outcome Disk :=
  if writable d then
    Resolved
      {| file :=
           Parsed (JDoc (Some (StoredEmbeddings.version embeddings))
                        (Some (StoredEmbeddings.embeddings embeddings))
                        now);
         writable := writable d |}
  else Rejected.

(** the comparator of [addEmbedding] *)
Definition byCreatedAt (a b : EmbeddingData.t) : Z :=
  (EmbeddingData.createdAt b - EmbeddingData.createdAt a)%Z.

Definition sortNewestFirst (l : list EmbeddingData.t) : list EmbeddingData.t :=
  JsArray.sort (fun a b => (byCreatedAt a b <=? 0)%Z) l.

(** The records [addEmbedding] hands to [saveEmbeddings]. *)
Definition addEmbedding_records (loaded : list EmbeddingData.t)
    (embedding : EmbeddingData.t) : list EmbeddingData.t :=
  let removed :=
    filter (fun e => negb (String.eqb (EmbeddingData.id e)
                             (EmbeddingData.id embedding))) loaded in
  let pushed := removed ++ [embedding] in
  let sorted := sortNewestFirst pushed in
  if (MAX_EMBEDDINGS <? List.length sorted)%nat
  then JsArray.slice0 MAX_EMBEDDINGS sorted
  else sorted.

(** [embeddings.embeddings.filter(...)] throws on what is not an array,
    before anything is written. *)
Definition addEmbedding (now : string) (d : Disk)
    (embedding : EmbeddingData.t) : Outcome Disk :=
  embeddings <- loadEmbeddings now (file d) ;;
  match StoredEmbeddings.embeddings embeddings with
  | Records l =>
      saveEmbeddings now d
        {| StoredEmbeddings.version := StoredEmbeddings.version embeddings;
           StoredEmbeddings.embeddings :=
             Records (addEmbedding_records l embedding);
           StoredEmbeddings.lastUpdated :=
             StoredEmbeddings.lastUpdated embeddings |}
  | Text _ => Rejected
  | Other => Rejected
  end.

(** [createEmbeddingId] *)
Definition createEmbeddingId (type : ItemType) (number : Z) : string :=
  (ItemType_str type ++ ":" ++ JsString.ofNumber number)%string.

(** [cleanup]; [cutoffDate] is the instant [olderThanDays] days before the
    call.  The result is the disk and [removedCount].
    [embeddings.embeddings.filter(...)] throws on what is not an array. *)
Definition cleanup (now : string) (cutoffDate : Z) (d : Disk)
  : Outcome (Disk * Z) :=
  embeddings <- loadEmbeddings now (file d) ;;
  match StoredEmbeddings.embeddings embeddings with
  | Records l =>
      let originalCount := Z.of_nat (List.length l) in
      let kept :=
        filter (fun e => (cutoffDate <? EmbeddingData.createdAt e)%Z) l in
      let removedCount := (originalCount - Z.of_nat (List.length kept))%Z in
      if (0 <? removedCount)%Z then
        d' <- saveEmbeddings now d
                {| StoredEmbeddings.version :=
                     StoredEmbeddings.version embeddings;
                   StoredEmbeddings.embeddings := Records kept;
                   StoredEmbeddings.lastUpdated :=
                     StoredEmbeddings.lastUpdated embeddings |} ;;
        Resolved (d', removedCount)
      else Resolved (d, removedCount)
  | Text _ => Rejected
  | Other => Rejected
  end.

End StorageAdapter.

(** ** src/core/dedup.ts *)

Module Deduplicator.
Import JsString.

(** *** calculateTextSimilarity *)

(** [text.replace(/[^\w\s]/g, ' ')] *)
Fixpoint replacePunctuation (s : string) : string :=
  match s with
  | EmptyString => EmptyString
  | String c r =>
      String (if isWord c || isSpace c then c else " "%char)
             (replacePunctuation r)
  end.

(** [text.replace(/\s+/g, ' ')]; [inRun] tells that the previous character
    was white space. *)
Fixpoint collapseFrom (inRun : bool) (s : string) : string :=
  match s with
  | EmptyString => EmptyString
  | String c r =>
      if isSpace c then
        if inRun then collapseFrom true r
        else String " "%char (collapseFrom true r)
      else String c (collapseFrom false r)
  end.

Definition collapseSpaces (s : string) : string := collapseFrom false s.

Definition normalize (text : string) : string :=
  trim (collapseSpaces (replacePunctuation (toLowerCase text))).

(** A [Set] of strings, in insertion order. *)
Definition has (s : list string) (x : string) : bool :=
  existsb (String.eqb x) s.

Definition add (s : list string) (x : string) : list string :=
  if has s x then s else s ++ [x].

Definition newSet (l : list string) : list string := fold_left add l [].

Definition ratio (a b : nat) : Q :=
  (inject_Z (Z.of_nat a) / inject_Z (Z.of_nat b))%Q.

(** The loop of [calculateCharacterSimilarity]: [shorter] is what is left
    of the shorter text, [j] the cursor in [longer]. *)
Fixpoint scan (shorter longer : string) (j matches : nat) : nat :=
  match shorter with
  | EmptyString => matches
  | String char rest =>
      if (j <? String.length longer)%nat then
        match indexOf longer char j with
        | Some found => scan rest longer (S found) (S matches)
        | None => scan rest longer j matches
        end
      else matches
  end.

Definition calculateCharacterSimilarity (text1 text2 : string) : Q :=
  let shorter :=
    if (String.length text1 <? String.length text2)%nat then text1 else text2 in
  let longer :=
    if (String.length text2 <=? String.length text1)%nat then text1 else text2 in
  if (String.length shorter =? 0)%nat then 0%Q
  else ratio (scan shorter longer 0 0) (String.length longer).

Definition calculateTextSimilarity (text1 text2 : string) : Q :=
  let normalized1 := normalize text1 in
  let normalized2 := normalize text2 in
  if negb (truthy normalized1) || negb (truthy normalized2) then 0%Q
  else
    let words1 := newSet (split " " normalized1) in
    let words2 := newSet (split " " normalized2) in
    let intersection := newSet (filter (has words2) words1) in
    let union := newSet (words1 ++ words2) in
    let jaccardSimilarity :=
      if (0 <? List.length union)%nat
      then ratio (List.length intersection) (List.length union)
      else 0%Q in
    let charSimilarity := calculateCharacterSimilarity normalized1 normalized2 in
    (jaccardSimilarity * (7 # 10) + charSimilarity * (3 # 10))%Q.

(** *** combineAndRankSimilarItems *)

(** [Math.max] *)
Definition Math_max (a b : Q) : Q := if Qle_bool a b then b else a.

(** A [Map<string, SimilarItem>] in insertion order. *)
Definition ItemMap := list (string * SimilarItem.t).

Fixpoint get (m : ItemMap) (key : string) : option SimilarItem.t :=
  match m with
  | [] => None
  | (k, v) :: m' => if String.eqb k key then Some v else get m' key
  end.

(** [set] keeps the position of a key that is already there. *)
Fixpoint set (m : ItemMap) (key : string) (v : SimilarItem.t) : ItemMap :=
  match m with
  | [] => [(key, v)]
  | (k, w) :: m' =>
      if String.eqb k key then (k, v) :: m' else (k, w) :: set m' key v
  end.

Definition values (m : ItemMap) : list SimilarItem.t := map snd m.

Definition keyOf (type : ItemType) (number : Z) : string :=
  (ItemType_str type ++ ":" ++ ofNumber number)%string.

Definition createItemUrl (type : ItemType) (number : Z) : string :=
  ("https://github.com" ++ "/pull/" ++ ofNumber number)%string.

Definition isCurrentPR (type : ItemType) (number currentPRNumber : Z) : bool :=
  (number =? currentPRNumber)%Z && ItemType_eqb type pr.

(** the object stored for a vector result *)
Definition fromVector (item : ScoredEmbedding.t) : SimilarItem.t :=
  {| SimilarItem.type := ScoredEmbedding.type item;
     SimilarItem.number := ScoredEmbedding.number item;
     SimilarItem.title := ScoredEmbedding.title item;
     SimilarItem.similarity := ScoredEmbedding.similarity item;
     SimilarItem.status := open;
     SimilarItem.url :=
       createItemUrl (ScoredEmbedding.type item)
         (ScoredEmbedding.number item) |}.

(** the first loop: vector results *)
Definition addVector (currentPRNumber : Z) (combined : ItemMap)
    (item : ScoredEmbedding.t) : ItemMap :=
  if isCurrentPR (ScoredEmbedding.type item) (ScoredEmbedding.number item)
       currentPRNumber
  then combined
  else
    set combined
      (keyOf (ScoredEmbedding.type item) (ScoredEmbedding.number item))
      (fromVector item).

(** the update of an entry that is already in the map *)
Definition merge (existing item : SimilarItem.t) : SimilarItem.t :=
  let combinedSimilarity :=
    (SimilarItem.similarity existing * (7 # 10)
     + SimilarItem.similarity item * (3 # 10))%Q in
  {| SimilarItem.type := SimilarItem.type existing;
     SimilarItem.number := SimilarItem.number existing;
     SimilarItem.title := SimilarItem.title existing;
     SimilarItem.similarity :=
       Math_max (SimilarItem.similarity existing) combinedSimilarity;
     SimilarItem.status := SimilarItem.status item;
     SimilarItem.url := SimilarItem.url item |}.

(** the second loop: text results *)
Definition addText (currentPRNumber : Z) (combined : ItemMap)
    (item : SimilarItem.t) : ItemMap :=
  if isCurrentPR (SimilarItem.type item) (SimilarItem.number item)
       currentPRNumber
  then combined
  else
    let key := keyOf (SimilarItem.type item) (SimilarItem.number item) in
    match get combined key with
    | Some existing => set combined key (merge existing item)
    | None => set combined key item
    end.

(** the comparator [(a, b) => b.similarity - a.similarity] *)
Definition bySimilarity (a b : SimilarItem.t) : Q :=
  (SimilarItem.similarity b - SimilarItem.similarity a)%Q.

Definition sortBySimilarity (l : list SimilarItem.t) : list SimilarItem.t :=
  JsArray.sort (fun a b => Qle_bool (bySimilarity a b) 0) l.

Definition combined (vectorSimilar : list ScoredEmbedding.t)
    (textSimilar : list SimilarItem.t) (currentPRNumber : Z) : ItemMap :=
  fold_left (addText currentPRNumber) textSimilar
    (fold_left (addVector currentPRNumber) vectorSimilar []).

Definition combineAndRankSimilarItems (vectorSimilar : list ScoredEmbedding.t)
    (textSimilar : list SimilarItem.t) (currentPRNumber : Z)
  : list SimilarItem.t :=
  sortBySimilarity
    (values (combined vectorSimilar textSimilar currentPRNumber)).

(** *** findDuplicates *)

(** What the collaborators answer during one call of [findDuplicates]:
    the embedding service, the store, and the two calls of the text search
    (the second one is made by the fallback). *)
Record Adapters := mkAdapters {
  generateEmbedding : Outcome (list Q);
  addEmbedding : Outcome unit;
  findSimilarEmbeddings : Outcome (list ScoredEmbedding.t);
  findSimilarPRsAndIssues : Outcome (list SimilarItem.t);
  findSimilarPRsAndIssues_again : Outcome (list SimilarItem.t)
}.

Definition orEmpty (body : option string) : string :=
  match body with
  | Some b => b
  | None => EmptyString
  end.

Definition createPREmbedding (w : Adapters) (now : Z) (context : PRContext.t)
  : Outcome EmbeddingData.t :=
  embedding <- generateEmbedding w ;;
  Resolved
    {| EmbeddingData.id :=
         StorageAdapter.createEmbeddingId pr (PRContext.number context);
       EmbeddingData.type := pr;
       EmbeddingData.number := PRContext.number context;
       EmbeddingData.title := PRContext.title context;
       EmbeddingData.body := orEmpty (PRContext.body context);
       EmbeddingData.embedding := embedding;
       EmbeddingData.createdAt := now |}.

(** [similarItems.length > 0 && similarItems[0].similarity >= 0.9] *)
Definition verdict (similarItems : list SimilarItem.t) : bool :=
  match similarItems with
  | [] => false
  | top :: _ => Qle_bool (9 # 10) (SimilarItem.similarity top)
  end.

Definition aboveThreshold (similarityThreshold : Q) (item : SimilarItem.t)
  : bool :=
  Qle_bool similarityThreshold (SimilarItem.similarity item).

(** the [try] block *)
Definition findDuplicates_try (w : Adapters) (similarityThreshold : Q)
    (now : Z) (context : PRContext.t) : Outcome DeduplicationResult.t :=
  currentEmbedding <- createPREmbedding w now context ;;
  _ <- addEmbedding w ;;
  vectorSimilar <- findSimilarEmbeddings w ;;
  textSimilar <- findSimilarPRsAndIssues w ;;
  let combinedSimilar :=
    combineAndRankSimilarItems vectorSimilar textSimilar
      (PRContext.number context) in
  let similarItems :=
    JsArray.slice0 10
      (filter (aboveThreshold similarityThreshold) combinedSimilar) in
  Resolved
    {| DeduplicationResult.similarItems := similarItems;
       DeduplicationResult.isDuplicate := verdict similarItems;
       DeduplicationResult.duplicateThreshold := similarityThreshold |}.

(** the [catch] block: the text-only fallback, and its own [catch] *)
Definition findDuplicates_fallback (w : Adapters) (similarityThreshold : Q)
  : DeduplicationResult.t :=
  match findSimilarPRsAndIssues_again w with
  | Resolved textSimilar =>
      let similarItems :=
        JsArray.slice0 5
          (filter (aboveThreshold similarityThreshold) textSimilar) in
      {| DeduplicationResult.similarItems := similarItems;
         DeduplicationResult.isDuplicate := verdict similarItems;
         DeduplicationResult.duplicateThreshold := similarityThreshold |}
  | Rejected =>
      {| DeduplicationResult.similarItems := [];
         DeduplicationResult.isDuplicate := false;
         DeduplicationResult.duplicateThreshold := similarityThreshold |}
  end.

Definition findDuplicates (w : Adapters) (similarityThreshold : Q) (now : Z)
    (context : PRContext.t) : DeduplicationResult.t :=
  match findDuplicates_try w similarityThreshold now context with
  | Resolved result => result
  | Rejected => findDuplicates_fallback w similarityThreshold
  end.

End Deduplicator.

(** ** The same arithmetic on binary64 numbers

    The scores of the source are binary64 numbers.  The two weighted sums
    are repeated here on primitive floats, to check that the exact values
    claimed below are also the rounded ones. *)

Module Binary64.
Local Open Scope float_scope.
Set Warnings "-inexact-float".

(** [jaccardSimilarity * 0.7 + charSimilarity * 0.3] *)
Definition weighted (jaccardSimilarity charSimilarity : float) : float :=
  jaccardSimilarity * 0.7 + charSimilarity * 0.3.

(** [Math.max(existing, existing * 0.7 + item * 0.3)] *)
Definition merged (existing item : float) : float :=
  let combinedSimilarity := existing * 0.7 + item * 0.3 in
  if existing <? combinedSimilarity then combinedSimilarity else existing.

Definition v085 : float := 0.85.
Definition l075 : float := 0.75.

Set Warnings "+inexact-float".
End Binary64.

(** ** Properties stated about the parser *)

Module DiffParserSpec.
Import JsString DiffParser.

(** Every added or removed line of [c] carries the number the source
    computes when it pushes it: the start of its side plus the number of
    earlier lines of the hunk that are not of the other side. *)
Definition numbered (c : DiffChunk) : Prop :=
  forall i l,
    nth_error (lines c) i = Some l ->
    (type l = added ->
     lineNumber l = (newStart c + countNot removed (firstn i (lines c)))%Z) /\
    (type l = removed ->
     lineNumber l = (oldStart c + countNot added (firstn i (lines c)))%Z).

(** [c'] is the hunk [c], possibly with more lines pushed. *)
Definition extends (c c' : DiffChunk) : Prop :=
  oldStart c' = oldStart c /\ oldLines c' = oldLines c /\
  newStart c' = newStart c /\ newLines c' = newLines c /\
  exists more, lines c' = lines c ++ more.

Definition notMetadata (line : string) : bool := negb (isMetadata line).

End DiffParserSpec.

(** ** Properties stated about the store *)

Module StorageSpec.
Import StorageAdapter.



(** What [loadEmbeddings] finds under [embeddings]: the value of a file
    of the current version, an empty array otherwise. *)
Definition found (d : Disk) : EmbeddingsValue :=
  match file d with
  | Parsed (JDoc (Some v) (Some x) _) =>
      if String.eqb v EMBEDDING_VERSION then x else Records []
  | _ => Records []
  end.

Definition records (x : EmbeddingsValue) : list EmbeddingData.t :=
  match x with
  | Records l => l
  | _ => []
  end.

(** The records that [loadEmbeddings] finds on the disk: those of a file of
    the current version, none otherwise. *)
Definition loaded (d : Disk) : list EmbeddingData.t := records (found d).

(** [loadEmbeddings] finds something that is not an array. *)
Definition notArray (d : Disk) : bool :=
  match found d with
  | Records _ => false
  | _ => true
  end.




Definition sampleRecord (id : string) (number createdAt : Z)
  : EmbeddingData.t :=
  EmbeddingData.mk id pr number "title" "body" [] createdAt.

Definition freshDisk : Disk := {| file := Missing; writable := true |}.

Definition oneRecordDisk : Disk :=
  {| file :=
       Parsed (JDoc (Some "1.0") (Some (Records [sampleRecord "pr:7" 7 300]))
                 "2024-01-01T00:00:00.000Z");
     writable := true |}.

Definition twoRecordsDisk : Disk :=
  {| file :=
       Parsed (JDoc (Some "1.0")
                 (Some (Records [sampleRecord "pr:5" 5 400;
                                 sampleRecord "pr:7" 7 300]))
                 "2024-02-02T00:00:00.000Z");
     writable := true |}.

Definition sampleDisk : Disk :=
  {| file :=
       Parsed (JDoc (Some "1.0")
                 (Some (Records [sampleRecord "pr:7" 7 300;
                                 sampleRecord "pr:5" 5 100]))
                 "2024-01-01T00:00:00.000Z");
     writable := true |}.

Definition staleDisk : Disk :=
  {| file :=
       Parsed (JDoc (Some "0.9")
                 (Some (Records [sampleRecord "pr:7" 7 300]))
                 "2023-01-01T00:00:00.000Z");
     writable := true |}.



(** a file of the current version whose [embeddings] is a number *)
Definition numberDisk : Disk :=
  {| file := Parsed (JDoc (Some "1.0") (Some Other) "2024-01-01T00:00:00.000Z");
     writable := true |}.

End StorageSpec.

(** ** Properties stated about the deduplication engine *)

Module DeduplicatorSpec.
Import Deduplicator.

(** [a] does not score lower than [b] *)
Definition ranked (a b : SimilarItem.t) : Prop :=
  (SimilarItem.similarity b <= SimilarItem.similarity a)%Q.

(** the candidate's own identity *)
Definition isSelf (context : PRContext.t) (x : SimilarItem.t) : Prop :=
  SimilarItem.type x = pr /\ SimilarItem.number x = PRContext.number context.

(** the entries of a result set that carry the identity [(type, number)] *)
Definition vectorHits (type : ItemType) (number : Z)
    (l : list ScoredEmbedding.t) : list ScoredEmbedding.t :=
  filter (fun x => ItemType_eqb (ScoredEmbedding.type x) type
                   && (ScoredEmbedding.number x =? number)%Z) l.

Definition textHits (type : ItemType) (number : Z)
    (l : list SimilarItem.t) : list SimilarItem.t :=
  filter (fun x => ItemType_eqb (SimilarItem.type x) type
                   && (SimilarItem.number x =? number)%Z) l.

(** One text result met for a key that is already in the map: the score
    [s] of the entry becomes [max(s, 0.7 s + 0.3 l)]. *)
Definition boost (s l : Q) : Q :=
  Math_max s (s * (7 # 10) + l * (3 # 10))%Q.

(** The score of an entry that starts at [v] and meets the text scores
    [ls], in order. *)
Definition mergedScore (v : Q) (ls : list Q) : Q := fold_left boost ls v.

(** The entry of a key after the text results [its] for it, from the
    entry it had before. *)
Definition mergeAll (start : option SimilarItem.t)
    (its : list SimilarItem.t) : option SimilarItem.t :=
  fold_left
    (fun acc it =>
       match acc with
       | Some existing => Some (merge existing it)
       | None => Some it
       end) its start.

(** The entry of a key after the vector results [ivs] for it: the last
    one wins. *)
Definition lastVector (start : option SimilarItem.t)
    (ivs : list ScoredEmbedding.t) : option SimilarItem.t :=
  fold_left (fun _ iv => Some (fromVector iv)) ivs start.

(** What the source keeps true of the map: no key twice, and every entry
    filed under the key of its own identity. *)
Definition wellKeyed (m : ItemMap) : Prop :=
  NoDup (map fst m) /\
  forall k v, In (k, v) m ->
              k = keyOf (SimilarItem.type v) (SimilarItem.number v).

(** The pull request of the repository's tests. *)
Definition pr123 : PRContext.t :=
  PRContext.mk 123 "Add rate limiting to API endpoints"
    (Some "This PR adds rate limiting middleware").

(** a result of the text search *)
Definition item (type : ItemType) (number : Z) (similarity : Q)
  : SimilarItem.t :=
  SimilarItem.mk type number "API rate limiting" similarity merged
    ("https://github.com/repo/pull/" ++ JsString.ofNumber number)%string.

(** a result of the vector search *)
Definition scored (type : ItemType) (number : Z) (similarity : Q)
  : ScoredEmbedding.t :=
  ScoredEmbedding.mk
    (EmbeddingData.mk (StorageAdapter.createEmbeddingId type number) type
       number "API rate limiting" "Rate limiting for APIs" [] 0)
    similarity.

(** The embedding service is down; the text search answers [textSimilar]. *)
Definition embeddingDown (textSimilar : list SimilarItem.t) : Adapters :=
  {| generateEmbedding := Rejected;
     addEmbedding := Resolved tt;
     findSimilarEmbeddings := Resolved [];
     findSimilarPRsAndIssues := Resolved textSimilar;
     findSimilarPRsAndIssues_again := Resolved textSimilar |}.

(** Every collaborator answers. *)
Definition allUp (vectorSimilar : list ScoredEmbedding.t)
    (textSimilar : list SimilarItem.t) : Adapters :=
  {| generateEmbedding := Resolved [];
     addEmbedding := Resolved tt;
     findSimilarEmbeddings := Resolved vectorSimilar;
     findSimilarPRsAndIssues := Resolved textSimilar;
     findSimilarPRsAndIssues_again := Resolved textSimilar |}.

End DeduplicatorSpec.

(** ** Sample inputs, from the repository's tests *)

Module Samples.
Import JsString DiffParser.

Definition twoHunks : string :=
  join nl ["diff --git a/file1.js b/file1.js";
           "index 1234567..abcdefg 100644";
           "--- a/file1.js";
           "+++ b/file1.js";
           "@@ -1,3 +1,4 @@";
           " line1";
           "+added line";
           " line2";
           " line3";
           "@@ -10,5 +11,6 @@";
           " line10";
           "-gone";
           "+another added line"].

Definition firstHunk : DiffChunk :=
  mkDiffChunk 1 3 1 4
    [ mkDiffLine context "line1" 1; mkDiffLine added "added line" 2;
      mkDiffLine context "line2" 2; mkDiffLine context "line3" 3 ].

Definition secondHunk : DiffChunk :=
  mkDiffChunk 10 5 11 6
    [ mkDiffLine context "line10" 10; mkDiffLine removed "gone" 11;
      mkDiffLine added "another added line" 12 ].

(** a removed line whose text starts with two dashes *)
Definition sqlComment : string :=
  join nl ["@@ -1,2 +1 @@"; "--- drop the cache"; " select 1;"].

Definition functionsDiff : string :=
  join nl ["@@ -1,10 +1,15 @@";
           "+function newFunction() {";
           "+  return 'new';";
           "+}";
           "+";
           " function existingFunction() {";
           "-  return 'old';";
           "+  return 'updated';";
           " }";
           "+const arrowFunction = () => {"].

End Samples.

(** * Part I, continued: the rest of the cited files and their callers *)

(** ** src/utils/diff-parser.ts: simplifyDiffForAnalysis *)

Module DiffParserMore.
Import JsString DiffParser.

(** One iteration of the loop of [simplifyDiffForAnalysis]: the state is
    [relevantLines]. *)
Definition simplifyStep (relevantLines : list string) (line : string)
  : list string :=
  if isMetadata line then relevantLines
  else if startsWith line "@@" then relevantLines ++ [line]
  else if startsWith line "+" || startsWith line "-"
  then relevantLines ++ [line]
  else if startsWith line " " && truthy (trim line)
  then relevantLines ++ [line]
  else relevantLines.

Definition simplifyDiffForAnalysis (diff : string) : string :=
  join nl (fold_left simplifyStep (split nl diff) []).

End DiffParserMore.

(** ** src/adapters/storage.ts: similarity search and statistics *)

Module StorageMore.
Import JsString StorageAdapter.

(** [x || 0] on a number *)
Definition orZero (x : Q) : Q := if Qeq_bool x 0 then 0%Q else x.

Section Cosine.
(** [Math.sqrt], on the exact numbers of the model *)
Variable sqrt : Q -> Q.

(** The loop of [calculateCosineSimilarity]: [dotProduct], [magnitudeA]
    and [magnitudeB], over the positions of two arrays of one length. *)
Fixpoint accumulate (a b : list Q) (acc : Q * Q * Q) : Q * Q * Q :=
  match a, b with
  | x :: a', y :: b' =>
      let '(dotProduct, magnitudeA, magnitudeB) := acc in
      let aVal := orZero x in
      let bVal := orZero y in
      accumulate a' b'
        ((dotProduct + aVal * bVal)%Q,
         (magnitudeA + aVal * aVal)%Q,
         (magnitudeB + bVal * bVal)%Q)
  | _, _ => acc
  end.

Definition calculateCosineSimilarity (a b : list Q) : Outcome Q :=
  if negb (List.length a =? List.length b)%nat then Rejected
  else
    let '(dotProduct, magnitudeA, magnitudeB) :=
      accumulate a b (0%Q, 0%Q, 0%Q) in
    let magnitude := (sqrt magnitudeA * sqrt magnitudeB)%Q in
    Resolved (if Qeq_bool magnitude 0 then 0%Q
              else (dotProduct / magnitude)%Q).

(** The loop of [findSimilarEmbeddings] over the stored records; a
    rejection of the similarity leaves the loop. *)
Fixpoint scoreAll (queryEmbedding : list Q) (threshold : Q)
    (embeddings : list EmbeddingData.t)
    (similarities : list ScoredEmbedding.t)
  : Outcome (list ScoredEmbedding.t) :=
  match embeddings with
  | [] => Resolved similarities
  | embedding :: rest =>
      similarity <- calculateCosineSimilarity queryEmbedding
                      (EmbeddingData.embedding embedding) ;;
      scoreAll queryEmbedding threshold rest
        (if Qle_bool threshold similarity
         then similarities ++ [ScoredEmbedding.mk embedding similarity]
         else similarities)
  end.

(** the comparator [(a, b) => b.similarity - a.similarity] *)
Definition byScore (a b : ScoredEmbedding.t) : Q :=
  (ScoredEmbedding.similarity b - ScoredEmbedding.similarity a)%Q.

(** [limit] is a count: the source's callers pass none or a positive
    integer.  The loop runs over what [loadEmbeddings] returned: over the
    records of an array; over the characters of a string, where the first
    one ends it, since [embedding.embedding] is undefined and
    [calculateCosineSimilarity] reads its [length]; and not at all over a
    value that is not iterable. *)
Definition findSimilarEmbeddings (now : string) (d : Disk)
    (queryEmbedding : list Q) (threshold : Q) (limit : nat)
  : Outcome (list ScoredEmbedding.t) :=
  embeddings <- loadEmbeddings now (file d) ;;
  similarities <-
    match StoredEmbeddings.embeddings embeddings with
    | Records l => scoreAll queryEmbedding threshold l []
    | Text s => if truthy s then Rejected else Resolved []
    | Other => Rejected
    end ;;
  Resolved
    (JsArray.slice0 limit
       (JsArray.sort (fun a b => Qle_bool (byScore a b) 0) similarities)).

End Cosine.

(** [byType]: an object used as a map from the type's name to a count, in
    insertion order. *)
Definition Counts := list (string * Z).

Fixpoint count (byType : Counts) (key : string) : option Z :=
  match byType with
  | [] => None
  | (k, v) :: rest => if String.eqb k key then Some v else count rest key
  end.

Fixpoint setCount (byType : Counts) (key : string) (v : Z) : Counts :=
  match byType with
  | [] => [(key, v)]
  | (k, w) :: rest =>
      if String.eqb k key then (k, v) :: rest
      else (k, w) :: setCount rest key v
  end.

(** [byType[key] || 0] *)
Definition countOrZero (byType : Counts) (key : string) : Z :=
  match count byType key with
  | Some v => v
  | None => 0%Z
  end.

Record Stats := mkStats {
  totalEmbeddings : Z;
  oldestEmbedding : option string;
  newestEmbedding : option string;
  byType : Counts
}.

(** What the loop of [getStats] reads of an element: the property name
    that [embedding.type] gives, and [embedding.createdAt], which a
    character of a string does not have. *)
Definition Entry : Type := string * option string.

(** [!x] for a string that may be undefined *)
Definition falsy (x : option string) : bool :=
  match x with
  | None => true
  | Some s => negb (truthy s)
  end.

(** [a < b]: by code units for two strings, false when one side is
    undefined *)
Definition lessThan (a b : option string) : bool :=
  match a, b with
  | Some x, Some y => String.ltb x y
  | _, _ => false
  end.

(** One iteration of the loop of [getStats]: [byType], [oldest] and
    [newest].  The texts of [createdAt] are compared as strings. *)
Definition statsStep (st : Counts * option string * option string)
    (embedding : Entry) : Counts * option string * option string :=
  let '(byType, oldest, newest) := st in
  let '(type, createdAt) := embedding in
  (setCount byType type (countOrZero byType type + 1)%Z,
   if falsy oldest || lessThan createdAt oldest then createdAt else oldest,
   if falsy newest || lessThan newest createdAt then createdAt else newest).

(** The loop and the object returned; [length] is
    [embeddings.embeddings.length]. *)
Definition summary (entries : list Entry) (length : nat) : Stats :=
  let '(byType, oldest, newest) :=
    fold_left statsStep entries ([], None, None) in
  {| totalEmbeddings := Z.of_nat length;
     oldestEmbedding := if falsy oldest then None else oldest;
     newestEmbedding := if falsy newest then None else newest;
     byType := byType |}.

Definition ofChar (c : ascii) : Entry := ("undefined", None).

Section Stats.
(** the text of [createdAt] as the file holds it; [EmbeddingData.createdAt]
    is the instant that this text denotes *)
Variable createdAtText : EmbeddingData.t -> string.

Definition ofRecord (embedding : EmbeddingData.t) : Entry :=
  (ItemType_str (EmbeddingData.type embedding),
   Some (createdAtText embedding)).

Definition getStats (now : string) (d : Disk) : Outcome Stats :=
  embeddings <- loadEmbeddings now (file d) ;;
  match StoredEmbeddings.embeddings embeddings with
  | Records l => Resolved (summary (map ofRecord l) (List.length l))
  | Text s =>
      Resolved (summary (map ofChar (list_ascii_of_string s))
                  (String.length s))
  | Other => Rejected
  end.

End Stats.

End StorageMore.

(** ** src/core/dedup.ts: cleanupOldEmbeddings *)

Module DeduplicatorMore.
Import StorageAdapter.

(** [try { return await this.storage.cleanup(olderThanDays) }
     catch { return 0 }]: the disk afterwards and the number returned. *)
Definition cleanupOldEmbeddings (now : string) (cutoffDate : Z) (d : Disk)
  : Disk * Z :=
  match cleanup now cutoffDate d with
  | Resolved (d', removedCount) => (d', removedCount)
  | Rejected => (d, 0%Z)
  end.

End DeduplicatorMore.

(** ** src/adapters/github.ts: the text search *)

Module GitHubAdapter.
Import JsString.

(** [s.split(/\s+/)]: every run of white space is one separator. *)
Definition splitWhitespace (s : string) : list string :=
  split " " (Deduplicator.collapseSpaces s).

(** An item of a search response: the fields that are read. *)
Record SearchItem := mkSearchItem {
  number : Z;
  title : string;
  state_open : bool;                 (* [item.state === 'open'] *)
  merged_at : option string;         (* [item.pull_request?.merged_at] *)
  html_url : string
}.

Definition isCommonWord (word : string) : bool :=
  existsb (String.eqb word)
    [ "add"; "fix"; "update"; "remove"; "change"; "implement"; "create";
      "improve"; "refactor"; "feature"; "bug"; "issue"; "pull"; "request";
      "this"; "that"; "with"; "from"; "have"; "will"; "been"; "were" ].

Definition orEmpty (body : option string) : string :=
  match body with
  | Some b => b
  | None => EmptyString
  end.

Definition createSearchQuery (title : string) (body : option string)
  : string :=
  let text := (title ++ " " ++ orEmpty body)%string in
  let words :=
    JsArray.slice0 5
      (filter (fun word => (3 <? String.length word)%nat
                           && negb (isCommonWord word))
         (splitWhitespace
            (Deduplicator.replacePunctuation (toLowerCase text)))) in
  String.concat " " words.

(** Jaccard similarity on the words of the two texts *)
Definition calculateSimilarity (text1 text2 : string) : Q :=
  let words1 := Deduplicator.newSet (splitWhitespace (toLowerCase text1)) in
  let words2 := Deduplicator.newSet (splitWhitespace (toLowerCase text2)) in
  let intersection :=
    Deduplicator.newSet (filter (Deduplicator.has words2) words1) in
  let union := Deduplicator.newSet (words1 ++ words2) in
  if (0 <? List.length union)%nat
  then Deduplicator.ratio (List.length intersection) (List.length union)
  else 0%Q.

(** the candidate pushed for an item of the pull request search *)
Definition fromPR (title0 : string) (item : SearchItem) : SimilarItem.t :=
  {| SimilarItem.type := pr;
     SimilarItem.number := number item;
     SimilarItem.title := title item;
     SimilarItem.similarity := calculateSimilarity title0 (title item);
     SimilarItem.status :=
       if state_open item then open
       else match merged_at item with
            | Some m => if truthy m then merged else closed
            | None => closed
            end;
     SimilarItem.url := html_url item |}.

(** the candidate pushed for an item of the issue search *)
Definition fromIssue (title0 : string) (item : SearchItem) : SimilarItem.t :=
  {| SimilarItem.type := issue;
     SimilarItem.number := number item;
     SimilarItem.title := title item;
     SimilarItem.similarity := calculateSimilarity title0 (title item);
     SimilarItem.status := if state_open item then open else closed;
     SimilarItem.url := html_url item |}.

(** [item.number !== github.context.payload.pull_request?.number] *)
Definition notPayload (payload : option Z) (item : SearchItem) : bool :=
  match payload with
  | Some n => negb (number item =? n)%Z
  | None => true
  end.

(** The [try] block: [prSearch] and [issueSearch] are the outcomes of the
    two calls of the search API. *)
Definition findSimilarPRsAndIssues_try (payload : option Z) (title0 : string)
    (prSearch issueSearch : Outcome (list SearchItem))
  : Outcome (list SimilarItem.t) :=
  prResults <- prSearch ;;
  let similar := map (fromPR title0) (filter (notPayload payload) prResults) in
  issueResults <- issueSearch ;;
  let similar := similar ++ map (fromIssue title0) issueResults in
  Resolved (Deduplicator.sortBySimilarity similar).

Definition findSimilarPRsAndIssues (payload : option Z) (title0 : string)
    (body : option string)
    (prSearch issueSearch : Outcome (list SearchItem))
  : Outcome (list SimilarItem.t) :=
  let searchQuery := createSearchQuery title0 body in
  tryCatch (findSimilarPRsAndIssues_try payload title0 prSearch issueSearch)
    (Resolved []).

(** The engine wired to this adapter: [first] and [again] are the
    responses of the search API to the call of the main path and to the
    call of the fallback. *)
Definition wired (payload : option Z) (context : PRContext.t)
    (generateEmbedding : Outcome (list Q)) (addEmbedding : Outcome unit)
    (findSimilarEmbeddings : Outcome (list ScoredEmbedding.t))
    (first again : Outcome (list SearchItem) * Outcome (list SearchItem))
  : Deduplicator.Adapters :=
  {| Deduplicator.generateEmbedding := generateEmbedding;
     Deduplicator.addEmbedding := addEmbedding;
     Deduplicator.findSimilarEmbeddings := findSimilarEmbeddings;
     Deduplicator.findSimilarPRsAndIssues :=
       findSimilarPRsAndIssues payload (PRContext.title context)
         (PRContext.body context) (fst first) (snd first);
     Deduplicator.findSimilarPRsAndIssues_again :=
       findSimilarPRsAndIssues payload (PRContext.title context)
         (PRContext.body context) (fst again) (snd again) |}.

(** a closed item of a search response, for the examples *)
Definition searchHit (number : Z) (title : string) : SearchItem :=
  mkSearchItem number title false None
    ("https://github.com/repo/pull/" ++ ofNumber number)%string.

End GitHubAdapter.

(** ** Properties stated about the rest of the parser *)

Module DiffParserMoreSpec.
Import JsString DiffParser DiffParserMore.

(** the four numbers of a hunk *)
Definition header (c : DiffChunk) : Z * Z * Z * Z :=
  (oldStart c, oldLines c, newStart c, newLines c).

(** the hunk headers that a list of lines declares, in order *)
Definition headersOf (ls : list string) : list (Z * Z * Z * Z) :=
  flat_map
    (fun line =>
       match chunkMatch line with
       | Some (g1, g2, g3, g4) =>
           [(parseInt g1, parseInt (orOne g2), parseInt g3,
             parseInt (orOne g4))]
       | None => []
       end) ls.

Definition isHeader (line : string) : bool :=
  match chunkMatch line with
  | Some _ => true
  | None => false
  end.

(** the lines that follow the first hunk header *)
Fixpoint afterFirstHeader (ls : list string) : list string :=
  match ls with
  | [] => []
  | line :: rest => if isHeader line then rest else afterFirstHeader rest
  end.

(** a line that carries text of a file: a marker, and not [---] or [+++] *)
Definition contentLine (line : string) : bool :=
  isDiffLine line && negb (isMetadata line).

Definition addedLine (line : string) : bool :=
  startsWith line "+" && negb (startsWith line "+++").

Definition removedLine (line : string) : bool :=
  startsWith line "-" && negb (startsWith line "---").

(** what a parsed line says, without its number *)
Definition view (l : DiffLine) : LineType * string := (type l, content l).

Definition classify (line : string) : LineType * string :=
  (lineType line, slice1 line).

(** the parsed lines of a list of hunks, without their numbers *)
Definition views (cs : list DiffChunk) : list (LineType * string) :=
  map view (flat_map lines cs).

(** the lines that a state of the loop still takes from [ls] *)
Definition taken (st : State) (ls : list string) : list string :=
  match currentChunk st with
  | Some _ => ls
  | None => afterFirstHeader ls
  end.



(** the line filter of [simplifyDiffForAnalysis] *)
Definition keepLine (line : string) : bool :=
  negb (isMetadata line) &&
  (startsWith line "@@"
   || (startsWith line "+" || startsWith line "-")
   || (startsWith line " " && truthy (trim line))).

Fixpoint noNewline (s : string) : bool :=
  match s with
  | EmptyString => true
  | String c r => negb (Ascii.eqb c nl) && noNewline r
  end.

End DiffParserMoreSpec.

(** ** Properties stated about the rest of the store *)

Module StorageMoreSpec.
Import StorageAdapter StorageSpec StorageMore.

(** the test of [cleanup]: created after the cut-off *)
Definition newer (cutoffDate : Z) (e : EmbeddingData.t) : bool :=
  (cutoffDate <? EmbeddingData.createdAt e)%Z.

Definition otherId (e x : EmbeddingData.t) : bool :=
  negb (String.eqb (EmbeddingData.id x) (EmbeddingData.id e)).

(** [a] does not score lower than [b] *)
Definition rankedScore (a b : ScoredEmbedding.t) : Prop :=
  (ScoredEmbedding.similarity b <= ScoredEmbedding.similarity a)%Q.



(** a file of the current version whose [embeddings] is a string *)
Definition textDisk (s : string) : Disk :=
  {| file := Parsed (JDoc (Some "1.0") (Some (Text s))
                       "2024-01-01T00:00:00.000Z");
     writable := true |}.

(** the ISO texts of the instants 100 and 300 of the sample records *)
Definition sampleText (e : EmbeddingData.t) : string :=
  if (EmbeddingData.createdAt e =? 100)%Z then "1970-01-01T00:00:00.100Z"
  else "1970-01-01T00:00:00.300Z".

(** the integer square root of the integer part: a stand-in for
    [Math.sqrt] that is exact on the squares of integers *)
Definition sqrtFloor (q : Q) : Q :=
  inject_Z (Z.sqrt (Qnum q / Z.pos (Qden q))).

Definition unwritable (d : Disk) : Disk :=
  {| file := file d; writable := false |}.

(** [sampleDisk] after a cleanup at a later time that removes its older
    record *)
Definition oneRecordDisk' : Disk :=
  {| file :=
       Parsed (JDoc (Some "1.0") (Some (Records [sampleRecord "pr:7" 7 300]))
                 "2024-02-02T00:00:00.000Z");
     writable := true |}.

Definition vectorRecord (id : string) (number : Z) (embedding : list Q)
  : EmbeddingData.t :=
  EmbeddingData.mk id pr number "title" "body" embedding 0.

(** a store with two vectors; the second is orthogonal to [[3; 4]] *)
Definition vectorDisk : Disk :=
  {| file :=
       Parsed (JDoc (Some "1.0")
                 (Some (Records [vectorRecord "pr:7" 7 [3; 4];
                                 vectorRecord "pr:8" 8 [-4; 3]]))
                 "2024-01-01T00:00:00.000Z");
     writable := true |}.

End StorageMoreSpec.

(** ** src/core/dedup.ts: the two statistics functions *)

Module DeduplicatorStats.
Import JsString StorageAdapter StorageMore.


Record DeduplicationStats := mkDeduplicationStats {
  totalEmbeddings : Z;
  averageSimilarityChecks : Z;
  duplicatesFound : Z;
  lastUpdate : string
}.

(** [x || 'Never'] *)
Definition orNever (x : option string) : string :=
  match x with
  | Some s => if truthy s then s else "Never"
  | None => "Never"
  end.

Section Stats.
Variable createdAtText : EmbeddingData.t -> string.


Definition getDeduplicationStats (now : string) (d : Disk)
  : DeduplicationStats :=
  match getStats createdAtText now d with
  | Resolved storageStats =>
      {| totalEmbeddings := StorageMore.totalEmbeddings storageStats;
         averageSimilarityChecks := 10;
         duplicatesFound := 0;
         lastUpdate := orNever (newestEmbedding storageStats) |}
  | Rejected =>
      {| totalEmbeddings := 0;
         averageSimilarityChecks := 0;
         duplicatesFound := 0;
         lastUpdate := "Error" |}
  end.

End Stats.

End DeduplicatorStats.

(** ** Properties stated about the report of function changes *)

Module FunctionChangesSpec.
Import JsString DiffParser.


(** a hunk that changes two statements outside any function *)
Definition plainChange : string :=
  join nl ["@@ -1,2 +1,2 @@";
           " import os";
           "-x = 1";
           "+x = 2"].

(** a hunk that adds a function and a line to it *)
Definition addedFunction : string :=
  join nl ["@@ -1,1 +1,3 @@";
           "+function greet(name) {";
           "+  return name;";
           " }"].

End FunctionChangesSpec.

(** ** Properties stated about the normal form of a text *)

Module NormalizeSpec.
Import JsString.

Fixpoint allChars (P : ascii -> bool) (s : string) : bool :=
  match s with
  | EmptyString => true
  | String c r => P c && allChars P r
  end.

(** a character left by the replacement of punctuation, of a text in
    lower case: white space, or a word character that is no capital *)
Definition kept (c : ascii) : bool :=
  isSpace c || (isWord c && negb (isUpper c)).

(** a character of a normal form: a space, or a word character that is no
    capital *)
Definition plain (c : ascii) : bool :=
  Ascii.eqb c " "%char || (isWord c && negb (isUpper c)).

Definition startsSpace (s : string) : bool :=
  match s with
  | EmptyString => false
  | String c _ => Ascii.eqb c " "%char
  end.

(** no two spaces in a row *)
Fixpoint singleSpaced (s : string) : bool :=
  match s with
  | EmptyString => true
  | String c r =>
      negb (Ascii.eqb c " "%char && startsSpace r) && singleSpaced r
  end.

End NormalizeSpec.

(** * Part II: theorems *)

(** ** The diff parser *)

Section DiffParserFacts.
Import JsString DiffParser DiffParserSpec.

Lemma numbered_empty (a b c d : Z) : numbered (mkDiffChunk a b c d []).
Proof.
  intros i l H. destruct i; discriminate H.
Qed.

Lemma newLine_number (c : DiffChunk) (line : string) :
  (type (newLine c line) = added ->
   lineNumber (newLine c line) = (newStart c + countNot removed (lines c))%Z) /\
  (type (newLine c line) = removed ->
   lineNumber (newLine c line) = (oldStart c + countNot added (lines c))%Z).
Proof.
  unfold newLine; simpl.
  destruct (lineType line); simpl; split; intro H;
    solve [reflexivity | discriminate H].
Qed.

Lemma numbered_push (c : DiffChunk) (line : string) :
  numbered c -> numbered (pushLine c (newLine c line)).
Proof.
  intros Hc i l Hi. unfold pushLine in *; simpl in *.
  destruct (Nat.lt_ge_cases i (List.length (lines c))) as [Hlt | Hge].
  - rewrite nth_error_app1 in Hi by exact Hlt.
    rewrite firstn_app.
    replace (i - List.length (lines c))%nat with 0%nat by lia.
    simpl. rewrite app_nil_r. apply Hc. exact Hi.
  - rewrite nth_error_app2 in Hi by exact Hge.
    destruct (i - List.length (lines c))%nat as [| k] eqn:Hk.
    + simpl in Hi. injection Hi as <-.
      assert (i = List.length (lines c)) as -> by lia.
      rewrite firstn_app, firstn_all, Nat.sub_diag. simpl.
      rewrite app_nil_r. apply newLine_number.
    + simpl in Hi. destruct k; discriminate Hi.
Qed.

Lemma closeChunk_step_header (st : State) (c : DiffChunk) :
  closeChunk {| chunks := closeChunk st; currentChunk := Some c |}
  = closeChunk st ++ [c].
Proof. reflexivity. Qed.

Lemma step_numbered (st : State) (line : string) :
  Forall numbered (closeChunk st) ->
  Forall numbered (closeChunk (step st line)).
Proof.
  intros H. unfold step.
  destruct (chunkMatch line) as [[[[g1 g2] g3] g4] |].
  - rewrite closeChunk_step_header. apply Forall_app. split; [exact H |].
    constructor; [apply numbered_empty | constructor].
  - destruct (isMetadata line); [exact H |].
    destruct (currentChunk st) as [c |] eqn:Hc; [| exact H].
    destruct (isDiffLine line); [| exact H].
    unfold closeChunk in *. rewrite Hc in H. simpl.
    apply Forall_app in H. destruct H as [H1 H2].
    apply Forall_app. split; [exact H1 |].
    constructor; [| constructor].
    apply numbered_push. inversion H2; assumption.
Qed.

Lemma run_numbered (ls : list string) (st : State) :
  Forall numbered (closeChunk st) ->
  Forall numbered (closeChunk (run ls st)).
Proof.
  revert st. induction ls as [| line ls IH]; intros st H; simpl.
  - exact H.
  - apply IH. apply step_numbered. exact H.
Qed.

Lemma parseDiff_numbered (diff : string) : Forall numbered (parseDiff diff).
Proof.
  unfold parseDiff. destruct diff; [constructor |].
  apply run_numbered. constructor.
Qed.

Lemma prefix_nil (s : string) : String.prefix "" s = true.
Proof. destruct s; reflexivity. Qed.

Lemma prefix_cons (c a : ascii) (p r : string) :
  String.prefix (String c p) (String a r) = Ascii.eqb c a && String.prefix p r.
Proof.
  cbn [String.prefix].
  destruct (ascii_dec c a) as [-> | n].
  - rewrite Ascii.eqb_refl. reflexivity.
  - destruct (Ascii.eqb_spec c a); [contradiction | reflexivity].
Qed.

(** A line that starts with a marker is no hunk header. *)
Lemma isDiffLine_no_header (line : string) :
  isDiffLine line = true -> chunkMatch line = None.
Proof.
  destruct line as [| a r]; [discriminate |].
  unfold isDiffLine, startsWith. rewrite !prefix_cons, !prefix_nil.
  destruct (Ascii.eqb_spec "+" a) as [<- | _]; [reflexivity |].
  destruct (Ascii.eqb_spec "-" a) as [<- | _]; [reflexivity |].
  destruct (Ascii.eqb_spec " " a) as [<- | _]; [reflexivity |].
  intro H. discriminate H.
Qed.

(** Neither is a metadata line. *)
Lemma isMetadata_no_header (line : string) :
  isMetadata line = true -> chunkMatch line = None.
Proof.
  destruct line as [| a r]; [discriminate |].
  unfold isMetadata, startsWith. rewrite !prefix_cons.
  destruct (Ascii.eqb_spec "d" a) as [<- | _]; [reflexivity |].
  destruct (Ascii.eqb_spec "i" a) as [<- | _]; [reflexivity |].
  destruct (Ascii.eqb_spec "-" a) as [<- | _]; [reflexivity |].
  destruct (Ascii.eqb_spec "+" a) as [<- | _]; [reflexivity |].
  intro H. discriminate H.
Qed.

Lemma step_metadata (st : State) (line : string) :
  isMetadata line = true -> step st line = st.
Proof.
  intro H. unfold step. rewrite (isMetadata_no_header line H), H. reflexivity.
Qed.

Lemma step_diffLine (st : State) (line : string) (c : DiffChunk) :
  currentChunk st = Some c ->
  isDiffLine line = true ->
  isMetadata line = false ->
  step st line =
    {| chunks := chunks st;
       currentChunk := Some (pushLine c (newLine c line)) |}.
Proof.
  intros Hc Hd Hm. unfold step.
  rewrite (isDiffLine_no_header line Hd), Hm, Hc, Hd. reflexivity.
Qed.

Lemma extends_refl (c : DiffChunk) : extends c c.
Proof.
  repeat split. exists []. symmetry. apply app_nil_r.
Qed.

Lemma extends_trans (a b c : DiffChunk) :
  extends a b -> extends b c -> extends a c.
Proof.
  intros (H1 & H2 & H3 & H4 & m1 & H5) (K1 & K2 & K3 & K4 & m2 & K5).
  repeat split; try congruence.
  exists (m1 ++ m2). rewrite K5, H5. symmetry. apply app_assoc.
Qed.

Lemma extends_push (c : DiffChunk) (l : DiffLine) : extends c (pushLine c l).
Proof.
  repeat split. exists [l]. reflexivity.
Qed.

(** A step keeps every hunk seen so far, closed or open. *)
Lemma step_keeps (st : State) (line : string) (c : DiffChunk) :
  In c (closeChunk st) ->
  exists c', In c' (closeChunk (step st line)) /\ extends c c'.
Proof.
  intros H. unfold step.
  destruct (chunkMatch line) as [[[[g1 g2] g3] g4] |].
  - exists c. split; [| apply extends_refl].
    rewrite closeChunk_step_header. apply in_or_app. left. exact H.
  - destruct (isMetadata line); [exists c; split; [exact H | apply extends_refl] |].
    destruct (currentChunk st) as [cur |] eqn:Hc;
      [| exists c; split; [exact H | apply extends_refl]].
    destruct (isDiffLine line);
      [| exists c; split; [exact H | apply extends_refl]].
    unfold closeChunk in *. rewrite Hc in H. simpl.
    apply in_app_or in H. destruct H as [H | [<- | []]].
    + exists c. split; [apply in_or_app; left; exact H | apply extends_refl].
    + exists (pushLine cur (newLine cur line)).
      split; [apply in_or_app; right; left; reflexivity | apply extends_push].
Qed.

Lemma run_keeps (ls : list string) (st : State) (c : DiffChunk) :
  In c (closeChunk st) ->
  exists c', In c' (closeChunk (run ls st)) /\ extends c c'.
Proof.
  revert st c. induction ls as [| line ls IH]; intros st c H; simpl.
  - exists c. split; [exact H | apply extends_refl].
  - destruct (step_keeps st line c H) as (c1 & H1 & E1).
    destruct (IH _ _ H1) as (c2 & H2 & E2).
    exists c2. split; [exact H2 | exact (extends_trans _ _ _ E1 E2)].
Qed.

Lemma run_app (l1 l2 : list string) (st : State) :
  run (l1 ++ l2) st = run l2 (run l1 st).
Proof. apply fold_left_app. Qed.

Lemma run_skips_metadata (ls : list string) (st : State) :
  run ls st = run (filter notMetadata ls) st.
Proof.
  revert st. induction ls as [| line ls IH]; intro st; simpl; [reflexivity |].
  unfold notMetadata at 1. destruct (isMetadata line) eqn:Hm; simpl.
  - rewrite (step_metadata st line Hm). apply IH.
  - apply IH.
Qed.

End DiffParserFacts.

Section DiffParserClaims.
Import JsString DiffParser DiffParserSpec Samples.

Example parseDiff_twoHunks : parseDiff twoHunks = [firstHunk; secondHunk].
Proof. reflexivity. Qed.

Example parseDiff_empty : parseDiff "" = [].
Proof. reflexivity. Qed.

Example getDiffStats_end_to_end :
  getDiffStats
    (join nl ["@@ -1,3 +1,4 @@"; " line1"; "+added line"; " line3"])
  = (1, 0, 1)%Z.
Proof. reflexivity. Qed.

Example extractFunctionChanges_sample :
  extractFunctionChanges functionsDiff None =
    [ "Added function: newFunction";
      "Added to newFunction: return 'new';";
      "Added to newFunction: }";
      "Removed from newFunction: return 'old';";
      "Added to newFunction: return 'updated';";
      "Added function: arrowFunction" ].
Proof. vm_compute. reflexivity. Qed.

(** C4. In every hunk that [parseDiff] returns, an added line has the
    number [newStart] plus the count of the lines before it in the hunk
    that are not removed, and a removed line has [oldStart] plus the count
    of the lines before it that are not added. *)
Theorem parseDiff_lineNumber :
  forall (diff : string) (c : DiffChunk) (i : nat) (l : DiffLine),
    In c (parseDiff diff) ->
    nth_error (lines c) i = Some l ->
    (type l = added ->
     lineNumber l = (newStart c + countNot removed (firstn i (lines c)))%Z) /\
    (type l = removed ->
     lineNumber l = (oldStart c + countNot added (firstn i (lines c)))%Z).
Proof.
  intros diff c i l Hc Hl.
  pose proof (parseDiff_numbered diff) as H.
  rewrite Forall_forall in H. exact (H c Hc i l Hl).
Qed.

Lemma parseDiff_lineNumber_witness :
  In secondHunk (parseDiff twoHunks) /\
  nth_error (lines secondHunk) 2 = Some (mkDiffLine added "another added line" 12) /\
  (12 = 11 + countNot removed (firstn 2 (lines secondHunk)))%Z.
Proof.
  assert (H1 : In secondHunk (parseDiff twoHunks))
    by (right; left; reflexivity).
  assert (H2 : nth_error (lines secondHunk) 2
               = Some (mkDiffLine added "another added line" 12))
    by reflexivity.
  split; [exact H1 |]. split; [exact H2 |].
  exact (proj1 (parseDiff_lineNumber twoHunks secondHunk 2 _ H1 H2) eq_refl).
Defined.

Lemma lineType_plus (line : string) :
  startsWith line "+" = true -> lineType line = added.
Proof. unfold lineType. intros ->. reflexivity. Qed.

Lemma lineType_minus (line : string) :
  startsWith line "-" = true -> lineType line = removed.
Proof.
  unfold lineType, startsWith. destruct line as [| a r]; [discriminate |].
  rewrite !prefix_cons, !prefix_nil, !andb_true_r.
  destruct (Ascii.eqb_spec "-" a) as [<- | _]; [reflexivity | discriminate].
Qed.

Lemma lineType_space (line : string) :
  startsWith line " " = true -> lineType line = context.
Proof.
  unfold lineType, startsWith. destruct line as [| a r]; [discriminate |].
  rewrite !prefix_cons, !prefix_nil, !andb_true_r.
  destruct (Ascii.eqb_spec " " a) as [<- | _]; [reflexivity | discriminate].
Qed.

(** C5, as the code has it.  A line that starts with [+], [-] or a space
    while a hunk is open, and that does not start with [---] or [+++], is
    pushed on that hunk as an added, removed or context line, its first
    character dropped, and is found there in the result.  A line that
    starts with [diff --git], [index ], [---] or [+++] changes nothing,
    wherever it stands: the result is that of the text without these
    lines. *)
Theorem parseDiff_hunk_lines :
  (forall (diff : string) (pre : list string) (line : string)
          (post : list string) (c : DiffChunk),
      split nl diff = pre ++ line :: post ->
      currentChunk (run pre initial) = Some c ->
      isDiffLine line = true ->
      isMetadata line = false ->
      exists c' more,
        In c' (parseDiff diff) /\ extends c c' /\
        lines c' = lines c ++ newLine c line :: more /\
        content (newLine c line) = slice1 line /\
        (startsWith line "+" = true -> type (newLine c line) = added) /\
        (startsWith line "-" = true -> type (newLine c line) = removed) /\
        (startsWith line " " = true -> type (newLine c line) = context)) /\
  (forall (st : State) (line : string),
      isMetadata line = true -> step st line = st) /\
  (forall diff : string,
      parseDiff diff
      = closeChunk (run (filter notMetadata (split nl diff)) initial)).
Proof.
  split; [| split].
  - intros diff pre line post c Hsplit Hcur Hd Hm.
    assert (Hne : diff <> "").
    { intros ->. simpl in Hsplit.
      destruct pre as [| p pre']; simpl in Hsplit.
      - injection Hsplit as <- _. discriminate Hd.
      - injection Hsplit as _ Hrest. destruct pre'; discriminate Hrest. }
    set (st1 := step (run pre initial) line).
    assert (Hst1 : st1 = {| chunks := chunks (run pre initial);
                            currentChunk := Some (pushLine c (newLine c line)) |})
      by (apply step_diffLine; assumption).
    assert (Hin : In (pushLine c (newLine c line)) (closeChunk st1)).
    { rewrite Hst1. unfold closeChunk; simpl.
      apply in_or_app. right. left. reflexivity. }
    destruct (run_keeps post st1 _ Hin) as (c' & Hc' & Hext).
    destruct Hext as (E1 & E2 & E3 & E4 & more & E5).
    exists c', more. split; [| split; [| split; [| split]]].
    + unfold parseDiff. destruct diff; [contradiction Hne; reflexivity |].
      rewrite Hsplit, run_app. exact Hc'.
    + repeat split; try assumption.
      exists ([newLine c line] ++ more). rewrite E5. simpl.
      rewrite <- app_assoc. reflexivity.
    + rewrite E5. simpl. rewrite <- app_assoc. reflexivity.
    + reflexivity.
    + repeat split; intro H; simpl.
      * apply lineType_plus, H.
      * apply lineType_minus, H.
      * apply lineType_space, H.
  - intros st line H. apply step_metadata, H.
  - intro diff. rewrite <- run_skips_metadata.
    destruct diff; reflexivity.
Qed.

Lemma parseDiff_hunk_lines_witness :
  split nl twoHunks
  = ["diff --git a/file1.js b/file1.js"; "index 1234567..abcdefg 100644";
     "--- a/file1.js"; "+++ b/file1.js"; "@@ -1,3 +1,4 @@"; " line1"]
    ++ "+added line" :: [" line2"; " line3"; "@@ -10,5 +11,6 @@"; " line10";
                          "-gone"; "+another added line"] /\
  exists c' more,
    In c' (parseDiff twoHunks) /\
    lines c' = [mkDiffLine context "line1" 1]
               ++ mkDiffLine added "added line" 2 :: more.
Proof.
  split; [reflexivity |].
  destruct (proj1 parseDiff_hunk_lines twoHunks
              ["diff --git a/file1.js b/file1.js";
               "index 1234567..abcdefg 100644";
               "--- a/file1.js"; "+++ b/file1.js"; "@@ -1,3 +1,4 @@";
               " line1"]
              "+added line"
              [" line2"; " line3"; "@@ -10,5 +11,6 @@"; " line10";
               "-gone"; "+another added line"]
              (mkDiffChunk 1 3 1 4 [mkDiffLine context "line1" 1])
              eq_refl eq_refl eq_refl eq_refl)
    as (c' & more & H1 & _ & H2 & _).
  exists c', more. split; [exact H1 | exact H2].
Defined.

(** C5 as it was stated fails: a removed line whose text starts with two
    dashes reads [--- ...]; it starts with [-] while a hunk is open, and
    the parser drops it. *)
Lemma parseDiff_drops_dashed_line :
  split nl sqlComment = ["@@ -1,2 +1 @@"; "--- drop the cache"; " select 1;"] /\
  currentChunk (run ["@@ -1,2 +1 @@"] initial) = Some (mkDiffChunk 1 2 1 1 []) /\
  startsWith "--- drop the cache" "-" = true /\
  parseDiff sqlComment
  = [mkDiffChunk 1 2 1 1 [mkDiffLine context "select 1;" 1]] /\
  ~ (exists c' more,
        In c' (parseDiff sqlComment) /\
        lines c' = [] ++ mkDiffLine removed "-- drop the cache" 1 :: more).
Proof.
  repeat split.
  intros (c' & more & Hin & Hl).
  destruct Hin as [<- | []]. discriminate Hl.
Qed.

(** C10. [extractFunctionChanges] gives the same result for every value of
    the language hint, absent or not: [detectFunctionDefinition] tries the
    same list of patterns, in the same order, whatever the hint. *)
Theorem extractFunctionChanges_ignores_language :
  (forall (line : string) (language : option string),
      detectFunctionDefinition line language
      = firstMatch
          [patJavaScript; patMethod; patPython; patJava; patGo; patRust]
          (trim line)) /\
  (forall (diff : string) (language1 language2 : option string),
      extractFunctionChanges diff language1
      = extractFunctionChanges diff language2).
Proof.
  split.
  - intros line language. reflexivity.
  - intros diff language1 language2.
    unfold extractFunctionChanges, chunkStep, functionStep,
      detectFunctionDefinition.
    reflexivity.
Qed.

Example detectFunctionDefinition_python_hint_on_js :
  detectFunctionDefinition "function newFunction() {" (Some "python")
  = Some "newFunction".
Proof. vm_compute. reflexivity. Qed.

End DiffParserClaims.

(** ** The stable sort *)

Section SortFacts.
Context {A : Type}.
Variable before : A -> A -> bool.
Variable R : A -> A -> Prop.
Hypothesis before_true : forall a b, before a b = true -> R a b.
Hypothesis before_false : forall a b, before a b = false -> R b a.
Hypothesis R_trans : forall a b c, R a b -> R b c -> R a c.

Lemma insert_perm (x : A) (l : list A) :
  Permutation (JsArray.insert before x l) (x :: l).
Proof.
  induction l as [| y l IH]; simpl; [apply Permutation_refl |].
  destruct (before x y); [apply Permutation_refl |].
  apply Permutation_trans with (y :: x :: l).
  - apply perm_skip, IH.
  - apply perm_swap.
Qed.

Lemma sort_perm (l : list A) : Permutation (JsArray.sort before l) l.
Proof.
  induction l as [| x l IH]; simpl; [apply perm_nil |].
  apply Permutation_trans with (x :: JsArray.sort before l).
  - apply insert_perm.
  - apply perm_skip, IH.
Qed.

Lemma insert_sorted (x : A) (l : list A) :
  StronglySorted R l -> StronglySorted R (JsArray.insert before x l).
Proof.
  induction l as [| y l IH]; intro H; simpl.
  - constructor; constructor.
  - apply StronglySorted_inv in H. destruct H as [Hl Hy].
    destruct (before x y) eqn:E.
    + constructor; [constructor; assumption |].
      constructor; [apply before_true, E |].
      rewrite Forall_forall in *. intros z Hz.
      apply R_trans with y; [apply before_true, E | apply Hy, Hz].
    + constructor; [apply IH, Hl |].
      apply (Permutation_Forall (Permutation_sym (insert_perm x l))).
      constructor; [apply before_false, E | exact Hy].
Qed.

Lemma sort_sorted (l : list A) : StronglySorted R (JsArray.sort before l).
Proof.
  induction l as [| x l IH]; simpl; [constructor |].
  apply insert_sorted, IH.
Qed.

Lemma sort_length (l : list A) :
  List.length (JsArray.sort before l) = List.length l.
Proof. apply Permutation_length, sort_perm. Qed.

End SortFacts.

Section SortedFacts.
Context {A : Type}.
Variable R : A -> A -> Prop.

Lemma StronglySorted_firstn (n : nat) (l : list A) :
  StronglySorted R l -> StronglySorted R (firstn n l).
Proof.
  revert n. induction l as [| x l IH]; intros n H.
  - rewrite firstn_nil. constructor.
  - destruct n as [| n]; simpl; [constructor |].
    apply StronglySorted_inv in H. destruct H as [Hl Hx].
    constructor; [apply IH, Hl |].
    rewrite Forall_forall in *. intros y Hy.
    apply Hx. rewrite <- (firstn_skipn n l). apply in_or_app. left. exact Hy.
Qed.

Lemma StronglySorted_filter (f : A -> bool) (l : list A) :
  StronglySorted R l -> StronglySorted R (filter f l).
Proof.
  induction l as [| x l IH]; intro H; simpl; [constructor |].
  apply StronglySorted_inv in H. destruct H as [Hl Hx].
  destruct (f x); [| apply IH, Hl].
  constructor; [apply IH, Hl |].
  rewrite Forall_forall in *. intros y Hy.
  apply Hx. apply filter_In in Hy. apply Hy.
Qed.

Lemma StronglySorted_app_inv (l1 l2 : list A) :
  StronglySorted R (l1 ++ l2) ->
  forall a b, In a l1 -> In b l2 -> R a b.
Proof.
  induction l1 as [| x l1 IH]; intros H a b Ha Hb; [destruct Ha |].
  simpl in H. apply StronglySorted_inv in H. destruct H as [Hl Hx].
  destruct Ha as [<- | Ha].
  - rewrite Forall_forall in Hx. apply Hx. apply in_or_app. right. exact Hb.
  - apply IH; assumption.
Qed.

End SortedFacts.

(** ** The embedding store *)

Section StorageFacts.
Import StorageAdapter StorageSpec.

Lemma sortNewestFirst_perm (l : list EmbeddingData.t) :
  Permutation (sortNewestFirst l) l.
Proof. apply sort_perm. Qed.










Lemma loadEmbeddings_resolves (now : string) (f : File) :
  exists e, loadEmbeddings now f = Resolved e.
Proof.
  unfold loadEmbeddings, tryCatch, loadEmbeddings_try, loadEmbeddings_catch.
  destruct f as [| | | [| [v |] [l |] lu]];
    try (eexists; reflexivity);
    destruct (String.eqb v EMBEDDING_VERSION); eexists; reflexivity.
Qed.

Lemma loadEmbeddings_found (now : string) (d : Disk)
    (e : StoredEmbeddings.t) :
  loadEmbeddings now (file d) = Resolved e ->
  StoredEmbeddings.embeddings e = found d /\
  StoredEmbeddings.version e = EMBEDDING_VERSION.
Proof.
  unfold loadEmbeddings, tryCatch, loadEmbeddings_try, loadEmbeddings_catch,
    found.
  destruct (file d) as [| | | [| [v |] [l |] lu]]; intro H;
    try (injection H as <-; split; reflexivity).
  - destruct (String.eqb_spec v EMBEDDING_VERSION) as [-> | _];
      injection H as <-; split; reflexivity.
  - destruct (String.eqb v EMBEDDING_VERSION);
      injection H as <-; split; reflexivity.
Qed.

Lemma saveEmbeddings_found (now : string) (d d' : Disk)
    (e : StoredEmbeddings.t) :
  StoredEmbeddings.version e = EMBEDDING_VERSION ->
  saveEmbeddings now d e = Resolved d' ->
  found d' = StoredEmbeddings.embeddings e.
Proof.
  intros Hv H. unfold saveEmbeddings in H.
  destruct (writable d); [| discriminate H].
  injection H as <-. unfold found. simpl. rewrite Hv. reflexivity.
Qed.


(** What a successful [addEmbedding] leaves on disk. *)
Lemma addEmbedding_loaded (now : string) (d d' : Disk) (e : EmbeddingData.t) :
  addEmbedding now d e = Resolved d' ->
  loaded d' = addEmbedding_records (loaded d) e.
Proof.
  intro H.
  destruct (loadEmbeddings_resolves now (file d)) as [old Hload].
  destruct (loadEmbeddings_found now d old Hload) as [He Hv].
  unfold addEmbedding in H. rewrite Hload in H. cbn [bind] in H.
  rewrite He in H. unfold loaded.
  destruct (found d) as [l | s |]; try discriminate H.
  apply saveEmbeddings_found in H; [| exact Hv].
  rewrite H. reflexivity.
Qed.






End StorageFacts.

Section StorageClaims.
Import StorageAdapter StorageSpec.

Example addEmbedding_replaces_sample :
  addEmbedding "2024-02-02T00:00:00.000Z" sampleDisk (sampleRecord "pr:5" 5 400)
  = Resolved
      {| file :=
           Parsed (JDoc (Some "1.0")
                     (Some (Records [sampleRecord "pr:5" 5 400;
                                     sampleRecord "pr:7" 7 300]))
                     "2024-02-02T00:00:00.000Z");
         writable := true |}.
Proof. reflexivity. Qed.




Example addEmbedding_on_a_number :
  writable numberDisk = true /\
  addEmbedding "2024-02-02T00:00:00.000Z" numberDisk
    (sampleRecord "pr:2" 2 300) = Rejected.
Proof. split; reflexivity. Qed.

Example cleanup_sample :
  cleanup "2024-02-02T00:00:00.000Z" 200 sampleDisk
  = Resolved
      ({| file :=
            Parsed (JDoc (Some "1.0")
                      (Some (Records [sampleRecord "pr:7" 7 300]))
                      "2024-02-02T00:00:00.000Z");
          writable := true |}, 1%Z).
Proof. reflexivity. Qed.

(** C8. [loadEmbeddings] always returns a collection.  When the file is
    missing, cannot be read, is not JSON, or holds another version, the
    collection is the empty one with the current version, the same as for
    a missing file.  The records of a file are taken whole or not at
    all. *)
Theorem loadEmbeddings_never_fails :
  forall (now : string) (f : File),
    (exists e, loadEmbeddings now f = Resolved e) /\
    ((f = Missing \/ f = Unreadable \/ f = Corrupt \/
      exists v es lu, f = Parsed (JDoc v es lu) /\ v <> Some EMBEDDING_VERSION) ->
     loadEmbeddings now f = Resolved (createEmptyEmbeddings now) /\
     loadEmbeddings now f = loadEmbeddings now Missing /\
     StoredEmbeddings.version (createEmptyEmbeddings now) = EMBEDDING_VERSION /\
     StoredEmbeddings.embeddings (createEmptyEmbeddings now) = Records []) /\
    (forall e, loadEmbeddings now f = Resolved e ->
               e = createEmptyEmbeddings now \/
               exists lu,
                 f = Parsed (JDoc (Some EMBEDDING_VERSION)
                               (Some (StoredEmbeddings.embeddings e)) lu)).
Proof.
  intros now f. split; [apply loadEmbeddings_resolves |]. split.
  - intros [-> | [-> | [-> | (v & es & lu & -> & Hv)]]];
      try (repeat split; reflexivity).
    assert (H : loadEmbeddings now (Parsed (JDoc v es lu))
                = Resolved (createEmptyEmbeddings now)).
    { unfold loadEmbeddings, tryCatch, loadEmbeddings_try.
      destruct v as [ver |]; [| reflexivity].
      destruct (String.eqb_spec ver EMBEDDING_VERSION) as [-> | _];
        [contradiction Hv; reflexivity | reflexivity]. }
    rewrite H. repeat split; reflexivity.
  - intros e H.
    unfold loadEmbeddings, tryCatch, loadEmbeddings_try, loadEmbeddings_catch
      in H.
    destruct f as [| | | [| [v |] [l |] lu]];
      try (injection H as <-; left; reflexivity).
    + destruct (String.eqb_spec v EMBEDDING_VERSION) as [-> | _];
        injection H as <-; [right; exists lu; reflexivity | left; reflexivity].
    + destruct (String.eqb v EMBEDDING_VERSION);
        injection H as <-; left; reflexivity.
Qed.

Lemma loadEmbeddings_never_fails_witness :
  file staleDisk
  = Parsed (JDoc (Some "0.9") (Some (Records [sampleRecord "pr:7" 7 300]))
              "2023-01-01T00:00:00.000Z") /\
  Some "0.9" <> Some EMBEDDING_VERSION /\
  loadEmbeddings "2024-02-02T00:00:00.000Z" (file staleDisk)
  = Resolved (StoredEmbeddings.mk "1.0" (Records [])
                "2024-02-02T00:00:00.000Z").
Proof.
  assert (Hv : Some "0.9" <> Some EMBEDDING_VERSION) by discriminate.
  split; [reflexivity |]. split; [exact Hv |].
  refine (proj1 (proj1 (proj2 (loadEmbeddings_never_fails
                                 "2024-02-02T00:00:00.000Z" (file staleDisk)))
                   _)).
  right. right. right.
  exists (Some "0.9"), (Some (Records [sampleRecord "pr:7" 7 300])),
         "2023-01-01T00:00:00.000Z".
  split; [reflexivity | exact Hv].
Defined.

End StorageClaims.

(** ** Text similarity *)

Section TextSimilarityFacts.
Import JsString Deduplicator.

Lemma has_In (s : list string) (x : string) : has s x = true <-> In x s.
Proof.
  unfold has. rewrite existsb_exists. split.
  - intros (y & Hy & E). apply String.eqb_eq in E. subst. exact Hy.
  - intro H. exists x. split; [exact H | apply String.eqb_refl].
Qed.

Lemma add_old (s : list string) (x : string) : In x s -> add s x = s.
Proof.
  intro H. unfold add. apply has_In in H. rewrite H. reflexivity.
Qed.

Lemma add_new (s : list string) (x : string) :
  ~ In x s -> add s x = s ++ [x].
Proof.
  intro H. unfold add. destruct (has s x) eqn:E; [| reflexivity].
  apply has_In in E. contradiction.
Qed.

Lemma fold_add_old (l acc : list string) :
  (forall x, In x l -> In x acc) -> fold_left add l acc = acc.
Proof.
  induction l as [| x l IH]; intro H; simpl; [reflexivity |].
  rewrite add_old by (apply H; left; reflexivity).
  apply IH. intros y Hy. apply H. right. exact Hy.
Qed.

Lemma fold_add_new (l acc : list string) :
  NoDup (acc ++ l) -> fold_left add l acc = acc ++ l.
Proof.
  revert acc. induction l as [| x l IH]; intros acc H; simpl.
  - symmetry. apply app_nil_r.
  - assert (Hx : ~ In x acc).
    { apply NoDup_remove_2 in H. intro Hin. apply H.
      apply in_or_app. left. exact Hin. }
    rewrite add_new by exact Hx.
    replace (acc ++ x :: l) with ((acc ++ [x]) ++ l) in *
      by (rewrite <- app_assoc; reflexivity).
    apply IH. exact H.
Qed.

Lemma add_NoDup (s : list string) (x : string) : NoDup s -> NoDup (add s x).
Proof.
  intro H. unfold add. destruct (has s x) eqn:E; [exact H |].
  apply NoDup_app; [exact H | constructor; [intros [] | constructor] |].
  intros y Hy [<- | []]. apply has_In in Hy. congruence.
Qed.

Lemma fold_add_NoDup (l acc : list string) :
  NoDup acc -> NoDup (fold_left add l acc).
Proof.
  revert acc. induction l as [| x l IH]; intros acc H; simpl; [exact H |].
  apply IH, add_NoDup, H.
Qed.

Lemma newSet_NoDup (l : list string) : NoDup (newSet l).
Proof. apply fold_add_NoDup. constructor. Qed.

Lemma fold_add_length (l acc : list string) :
  (List.length acc <= List.length (fold_left add l acc))%nat.
Proof.
  revert acc. induction l as [| x l IH]; intro acc; simpl; [lia |].
  specialize (IH (add acc x)). unfold add in *.
  destruct (has acc x); [exact IH |].
  rewrite length_app in IH. simpl in IH. lia.
Qed.

Lemma newSet_nonempty (l : list string) :
  l <> [] -> (0 < List.length (newSet l))%nat.
Proof.
  destruct l as [| x l]; [contradiction |]. intros _.
  unfold newSet. simpl.
  pose proof (fold_add_length l (add [] x)) as H.
  unfold add in H at 1. simpl in H. lia.
Qed.

Lemma split_nonempty (c : ascii) (s : string) : split c s <> [].
Proof.
  destruct s as [| a r]; simpl; [discriminate |].
  destruct (Ascii.eqb a c); [discriminate |].
  destruct (split c r); discriminate.
Qed.

(** a set of words against itself *)
Lemma newSet_self (w : list string) :
  NoDup w ->
  newSet (filter (has w) w) = w /\ newSet (w ++ w) = w.
Proof.
  intro H.
  assert (Hw : newSet w = w) by (apply (fold_add_new w []); exact H).
  split.
  - replace (filter (has w) w) with w; [exact Hw |].
    symmetry. apply forallb_filter_id. apply forallb_forall.
    intros x Hx. apply has_In, Hx.
  - unfold newSet in *. rewrite fold_left_app, Hw.
    apply fold_add_old. auto.
Qed.

Lemma append_length (a b : string) :
  String.length (a ++ b) = (String.length a + String.length b)%nat.
Proof.
  induction a as [| c a IH]; simpl; [reflexivity | rewrite IH; reflexivity].
Qed.

Lemma append_assoc_cons (a : string) (c : ascii) (b : string) :
  (a ++ String c b)%string = ((a ++ String c "") ++ b)%string.
Proof.
  induction a as [| d a IH]; simpl; [reflexivity | rewrite IH; reflexivity].
Qed.

Lemma indexOf_here (pre : string) (c : ascii) (rest : string) :
  indexOf (pre ++ String c rest) c (String.length pre)
  = Some (String.length pre).
Proof.
  induction pre as [| d pre IH]; simpl.
  - rewrite Ascii.eqb_refl. reflexivity.
  - rewrite IH. reflexivity.
Qed.

(** Scanning a text through itself finds every character in place. *)
Lemma scan_self (suf pre : string) (m : nat) :
  scan suf (pre ++ suf) (String.length pre) m = (m + String.length suf)%nat.
Proof.
  revert pre m. induction suf as [| c rest IH]; intros pre m; simpl.
  - lia.
  - rewrite append_length. simpl.
    replace (String.length pre <? String.length pre + S (String.length rest))%nat
      with true by (symmetry; apply Nat.ltb_lt; lia).
    rewrite indexOf_here, append_assoc_cons.
    replace (S (String.length pre))
      with (String.length (pre ++ String c "")) by (rewrite append_length; simpl; lia).
    rewrite IH. lia.
Qed.

Lemma ratio_self (n : nat) : (0 < n)%nat -> (ratio n n == 1)%Q.
Proof.
  intro H. unfold ratio, Qdiv. apply Qmult_inv_r.
  unfold Qeq. simpl. lia.
Qed.

Lemma truthy_length (s : string) :
  truthy s = true -> (0 < String.length s)%nat.
Proof. destruct s; simpl; [discriminate | lia]. Qed.

Lemma truthy_nonempty (s : string) : s <> "" -> truthy s = true.
Proof. destruct s; [contradiction | reflexivity]. Qed.

Lemma calculateCharacterSimilarity_self (n : string) :
  truthy n = true -> (calculateCharacterSimilarity n n == 1)%Q.
Proof.
  intro H. apply truthy_length in H.
  unfold calculateCharacterSimilarity.
  rewrite Nat.ltb_irrefl, Nat.leb_refl.
  destruct (String.length n =? 0)%nat eqn:E;
    [apply Nat.eqb_eq in E; lia |].
  pose proof (scan_self n "" 0) as Hs. simpl in Hs. rewrite Hs.
  apply ratio_self, H.
Qed.

(** With texts of the same length, the second is scanned through the
    first. *)
Lemma calculateCharacterSimilarity_equal_length (text1 text2 : string) :
  String.length text1 = String.length text2 ->
  calculateCharacterSimilarity text1 text2
  = if (String.length text2 =? 0)%nat then 0%Q
    else ratio (scan text2 text1 0 0) (String.length text1).
Proof.
  intro H. unfold calculateCharacterSimilarity.
  replace (String.length text1 <? String.length text2)%nat with false
    by (rewrite H; symmetry; apply Nat.ltb_irrefl).
  replace (String.length text2 <=? String.length text1)%nat with true
    by (rewrite H; symmetry; apply Nat.leb_refl).
  reflexivity.
Qed.

Lemma calculateTextSimilarity_same_normal_form (a b : string) :
  normalize a = normalize b -> normalize a <> "" ->
  (calculateTextSimilarity a b == 1)%Q.
Proof.
  intros Hab Hne. unfold calculateTextSimilarity. rewrite <- Hab.
  pose proof (truthy_nonempty _ Hne) as Ht. rewrite Ht. simpl.
  set (w := newSet (split " " (normalize a))).
  assert (Hw : NoDup w) by apply newSet_NoDup.
  destruct (newSet_self w Hw) as [-> ->].
  assert (Hlen : (0 < List.length w)%nat)
    by (apply newSet_nonempty, split_nonempty).
  replace (0 <? List.length w)%nat with true
    by (symmetry; apply Nat.ltb_lt; exact Hlen).
  rewrite (ratio_self _ Hlen), (calculateCharacterSimilarity_self _ Ht).
  reflexivity.
Qed.

End TextSimilarityFacts.

Section TextSimilarityClaims.
Import JsString Deduplicator.

Example calculateTextSimilarity_similar_texts :
  calculateTextSimilarity "Add rate limiting to API endpoints"
    "Add rate limiting middleware to API" = (17290 # 24500)%Q.
Proof. vm_compute. reflexivity. Qed.

(** C6. Two texts with the same non-empty normal form score exactly 1: a
    text against itself, and texts that differ in letter case only.  When
    the normal form of either text is empty the score is 0. *)
Theorem calculateTextSimilarity_identical :
  forall a b : string,
    (normalize a = normalize b -> normalize a <> "" ->
     (calculateTextSimilarity a b == 1)%Q) /\
    (normalize a <> "" -> (calculateTextSimilarity a a == 1)%Q) /\
    (toLowerCase a = toLowerCase b -> normalize a <> "" ->
     (calculateTextSimilarity a b == 1)%Q) /\
    (normalize a = "" \/ normalize b = "" ->
     calculateTextSimilarity a b = 0%Q).
Proof.
  intros a b. split; [| split; [| split]].
  - apply calculateTextSimilarity_same_normal_form.
  - apply calculateTextSimilarity_same_normal_form. reflexivity.
  - intros H. apply calculateTextSimilarity_same_normal_form.
    unfold normalize. rewrite H. reflexivity.
  - intros [H | H]; unfold calculateTextSimilarity; rewrite H; simpl;
      [reflexivity | rewrite orb_true_r; reflexivity].
Qed.

Lemma calculateTextSimilarity_identical_witness :
  toLowerCase "Add Rate Limiting" = toLowerCase "add rate limiting" /\
  normalize "Add Rate Limiting" <> "" /\
  (calculateTextSimilarity "Add Rate Limiting" "add rate limiting" == 1)%Q /\
  normalize "?!" = "" /\
  calculateTextSimilarity "?!" "some text" = 0%Q.
Proof.
  assert (H1 : toLowerCase "Add Rate Limiting" = toLowerCase "add rate limiting")
    by reflexivity.
  assert (H2 : normalize "Add Rate Limiting" <> "") by (vm_compute; discriminate).
  assert (H3 : normalize "?!" = "") by reflexivity.
  split; [exact H1 |]. split; [exact H2 |]. split.
  - exact (proj1 (proj2 (proj2 (calculateTextSimilarity_identical
                                  "Add Rate Limiting" "add rate limiting")))
             H1 H2).
  - split; [exact H3 |].
    exact (proj2 (proj2 (proj2 (calculateTextSimilarity_identical
                                  "?!" "some text")))
             (or_introl H3)).
Defined.

(** C9. The score is not symmetric.  For the normal forms [abc] and [cab],
    of equal length, the second text is scanned through the first: one
    character is found one way, two the other way, so the scores are 1/10
    and 2/10. *)
Theorem calculateTextSimilarity_not_symmetric :
  normalize "abc" = "abc" /\ normalize "cab" = "cab" /\
  scan "cab" "abc" 0 0 = 1%nat /\ scan "abc" "cab" 0 0 = 2%nat /\
  (calculateTextSimilarity "abc" "cab" == 1 # 10)%Q /\
  (calculateTextSimilarity "cab" "abc" == 2 # 10)%Q /\
  ~ (calculateTextSimilarity "abc" "cab"
     == calculateTextSimilarity "cab" "abc")%Q /\
  (exists a b : string,
      String.length (normalize a) = String.length (normalize b) /\
      ~ (calculateTextSimilarity a b == calculateTextSimilarity b a)%Q) /\
  (forall text1 text2 : string,
      String.length text1 = String.length text2 ->
      calculateCharacterSimilarity text1 text2
      = if (String.length text2 =? 0)%nat then 0%Q
        else ratio (scan text2 text1 0 0) (String.length text1)).
Proof.
  assert (Hn : ~ (calculateTextSimilarity "abc" "cab"
                  == calculateTextSimilarity "cab" "abc")%Q)
    by (vm_compute; discriminate).
  repeat split; try reflexivity.
  - exact Hn.
  - exists "abc", "cab". split; [reflexivity | exact Hn].
  - apply calculateCharacterSimilarity_equal_length.
Qed.

Lemma calculateTextSimilarity_not_symmetric_witness :
  String.length "abc" = String.length "cab" /\
  calculateCharacterSimilarity "abc" "cab" = ratio 1 3 /\
  calculateCharacterSimilarity "cab" "abc" = ratio 2 3.
Proof.
  assert (H : String.length "abc" = String.length "cab") by reflexivity.
  split; [exact H |]. split.
  - exact (proj2 (proj2 (proj2 (proj2 (proj2 (proj2 (proj2 (proj2
             calculateTextSimilarity_not_symmetric)))))))
             "abc" "cab" H).
  - exact (proj2 (proj2 (proj2 (proj2 (proj2 (proj2 (proj2 (proj2
             calculateTextSimilarity_not_symmetric)))))))
             "cab" "abc" (eq_sym H)).
Defined.

End TextSimilarityClaims.

(** ** The deduplication engine *)

Section DeduplicatorFacts.
Import JsString Deduplicator DeduplicatorSpec.

Lemma Math_max_l (a b : Q) : (a <= Math_max a b)%Q.
Proof.
  unfold Math_max. destruct (Qle_bool a b) eqn:E.
  - apply Qle_bool_iff, E.
  - apply Qle_refl.
Qed.

Lemma Math_max_Qmax (a b : Q) : (Math_max a b == Qmax a b)%Q.
Proof.
  unfold Math_max. destruct (Qle_bool a b) eqn:E.
  - apply Qle_bool_iff in E. symmetry. apply Q.max_r, E.
  - assert (H : ~ (a <= b)%Q) by (rewrite <- Qle_bool_iff, E; discriminate).
    apply Qnot_le_lt, Qlt_le_weak in H. symmetry. apply Q.max_l, H.
Qed.

Lemma to_int_proper (z : Z) :
  Z.to_int z <> Decimal.Pos Decimal.Nil /\ Z.to_int z <> Decimal.Neg Decimal.Nil.
Proof.
  destruct z as [| p | p]; simpl; split; intro H;
    try discriminate H; injection H as H;
    exact (DecimalPos.Unsigned.to_uint_nonnil p H).
Qed.

Lemma ofNumber_inj (a b : Z) : ofNumber a = ofNumber b -> a = b.
Proof.
  unfold ofNumber. intro H.
  apply (f_equal NilZero.int_of_string) in H.
  rewrite !NilZero.isi in H by apply to_int_proper.
  injection H as H.
  transitivity (Z.of_int (Z.to_int a)); [symmetry; apply DecimalZ.of_to |].
  rewrite H. apply DecimalZ.of_to.
Qed.

Lemma keyOf_inj (t1 t2 : ItemType) (n1 n2 : Z) :
  keyOf t1 n1 = keyOf t2 n2 -> t1 = t2 /\ n1 = n2.
Proof.
  unfold keyOf. destruct t1, t2; simpl; intro H.
  - injection H as H. split; [reflexivity | apply ofNumber_inj, H].
  - discriminate H.
  - discriminate H.
  - injection H as H. split; [reflexivity | apply ofNumber_inj, H].
Qed.

Lemma ItemType_eqb_eq (a b : ItemType) : ItemType_eqb a b = true <-> a = b.
Proof. destruct a, b; simpl; split; intro H; congruence. Qed.

Lemma sameId_key (t1 t2 : ItemType) (n1 n2 : Z) :
  ItemType_eqb t1 t2 && (n1 =? n2)%Z = false -> keyOf t1 n1 <> keyOf t2 n2.
Proof.
  intros H E. apply keyOf_inj in E. destruct E as [-> ->].
  rewrite Z.eqb_refl, andb_true_r in H.
  destruct t2; discriminate H.
Qed.

Lemma sameId_eq (t1 t2 : ItemType) (n1 n2 : Z) :
  ItemType_eqb t1 t2 && (n1 =? n2)%Z = true -> t1 = t2 /\ n1 = n2.
Proof.
  intro H. apply andb_true_iff in H. destruct H as [H1 H2].
  split; [apply ItemType_eqb_eq, H1 | apply Z.eqb_eq, H2].
Qed.

(** *** The map *)

Lemma get_set_same (m : ItemMap) (k : string) (v : SimilarItem.t) :
  get (set m k v) k = Some v.
Proof.
  induction m as [| [k' w] m IH]; simpl.
  - rewrite String.eqb_refl. reflexivity.
  - destruct (String.eqb k' k) eqn:E; simpl; rewrite E; [reflexivity | exact IH].
Qed.

Lemma get_set_other (m : ItemMap) (k k' : string) (v : SimilarItem.t) :
  k' <> k -> get (set m k' v) k = get m k.
Proof.
  intro H. induction m as [| [k0 w] m IH]; simpl.
  - apply String.eqb_neq in H. rewrite H. reflexivity.
  - destruct (String.eqb_spec k0 k') as [-> | Hk]; simpl.
    + apply String.eqb_neq in H. rewrite H. reflexivity.
    + destruct (String.eqb k0 k); [reflexivity | exact IH].
Qed.

Lemma get_In (m : ItemMap) (k : string) (v : SimilarItem.t) :
  get m k = Some v -> In (k, v) m.
Proof.
  induction m as [| [k' w] m IH]; simpl; [discriminate |].
  destruct (String.eqb_spec k' k) as [-> | _].
  - intro H. injection H as ->. left. reflexivity.
  - intro H. right. apply IH, H.
Qed.

Lemma In_get (m : ItemMap) (k : string) (v : SimilarItem.t) :
  NoDup (map fst m) -> In (k, v) m -> get m k = Some v.
Proof.
  induction m as [| [k' w] m IH]; simpl; intros Hnd Hin; [destruct Hin |].
  destruct Hin as [H | H].
  - injection H as -> ->. rewrite String.eqb_refl. reflexivity.
  - inversion Hnd as [| ? ? Hk Hm]; subst.
    destruct (String.eqb_spec k' k) as [-> | _].
    + exfalso. apply Hk. apply in_map_iff. exists (k, v). split; [reflexivity | exact H].
    + apply IH; assumption.
Qed.

Lemma In_set (m : ItemMap) (k : string) (v : SimilarItem.t)
    (e : string * SimilarItem.t) :
  In e (set m k v) -> e = (k, v) \/ In e m.
Proof.
  induction m as [| [k' w] m IH]; simpl.
  - intros [<- | []]. left. reflexivity.
  - destruct (String.eqb_spec k' k) as [-> | _]; simpl.
    + intros [<- | H]; [left; reflexivity | right; right; exact H].
    + intros [<- | H]; [right; left; reflexivity |].
      destruct (IH H) as [-> | H']; [left; reflexivity | right; right; exact H'].
Qed.

Lemma keys_set (m : ItemMap) (k : string) (v : SimilarItem.t) :
  map fst (set m k v) = map fst m \/
  (~ In k (map fst m) /\ map fst (set m k v) = map fst m ++ [k]).
Proof.
  induction m as [| [k' w] m IH]; simpl.
  - right. split; [intros [] | reflexivity].
  - destruct (String.eqb_spec k' k) as [-> | Hk]; simpl.
    + left. reflexivity.
    + destruct IH as [-> | [Hn ->]]; [left; reflexivity |].
      right. split; [| reflexivity]. intros [H | H]; [exact (Hk H) | exact (Hn H)].
Qed.

Lemma wellKeyed_set (m : ItemMap) (v : SimilarItem.t) :
  wellKeyed m ->
  wellKeyed (set m (keyOf (SimilarItem.type v) (SimilarItem.number v)) v).
Proof.
  intros [Hnd Hk]. split.
  - destruct (keys_set m (keyOf (SimilarItem.type v) (SimilarItem.number v)) v)
      as [-> | [Hn ->]]; [exact Hnd |].
    apply NoDup_app; [exact Hnd | constructor; [intros [] | constructor] |].
    intros k Hin [<- | []]. exact (Hn Hin).
  - intros k w H. apply In_set in H. destruct H as [H | H].
    + injection H as -> ->. reflexivity.
    + apply Hk, H.
Qed.

Lemma wellKeyed_addVector (cur : Z) (m : ItemMap) (x : ScoredEmbedding.t) :
  wellKeyed m -> wellKeyed (addVector cur m x).
Proof.
  intro H. unfold addVector.
  destruct (isCurrentPR _ _ cur); [exact H |].
  apply (wellKeyed_set m (fromVector x) H).
Qed.

Lemma wellKeyed_addText (cur : Z) (m : ItemMap) (x : SimilarItem.t) :
  wellKeyed m -> wellKeyed (addText cur m x).
Proof.
  intro H. unfold addText.
  destruct (isCurrentPR _ _ cur); [exact H |].
  destruct (get m _) as [existing |] eqn:E.
  - pose proof (proj2 H _ _ (get_In _ _ _ E)) as Hk. rewrite Hk.
    apply (wellKeyed_set m (merge existing x) H).
  - apply (wellKeyed_set m x H).
Qed.

Lemma wellKeyed_combined (vec : list ScoredEmbedding.t)
    (txt : list SimilarItem.t) (cur : Z) :
  wellKeyed (combined vec txt cur).
Proof.
  unfold combined.
  assert (H0 : wellKeyed []) by (split; [constructor | intros k v []]).
  assert (H1 : forall m, wellKeyed m ->
                         wellKeyed (fold_left (addVector cur) vec m)).
  { induction vec as [| x vec IH]; intros m H; simpl; [exact H |].
    apply IH, wellKeyed_addVector, H. }
  assert (H2 : forall m, wellKeyed m ->
                         wellKeyed (fold_left (addText cur) txt m)).
  { induction txt as [| x txt IH]; intros m H; simpl; [exact H |].
    apply IH, wellKeyed_addText, H. }
  apply H2, H1, H0.
Qed.

End DeduplicatorFacts.

Section CombineFacts.
Import JsString Deduplicator DeduplicatorSpec.

Variable cur : Z.
Variable t : ItemType.
Variable n : Z.
Hypothesis notCurrent : isCurrentPR t n cur = false.

Lemma get_addVector_other (m : ItemMap) (x : ScoredEmbedding.t) :
  ItemType_eqb (ScoredEmbedding.type x) t
  && (ScoredEmbedding.number x =? n)%Z = false ->
  get (addVector cur m x) (keyOf t n) = get m (keyOf t n).
Proof.
  intro H. unfold addVector.
  destruct (isCurrentPR (ScoredEmbedding.type x) (ScoredEmbedding.number x)
              cur); [reflexivity |].
  apply get_set_other, sameId_key, H.
Qed.

Lemma get_addText_other (m : ItemMap) (x : SimilarItem.t) :
  ItemType_eqb (SimilarItem.type x) t && (SimilarItem.number x =? n)%Z = false ->
  get (addText cur m x) (keyOf t n) = get m (keyOf t n).
Proof.
  intro H. unfold addText.
  destruct (isCurrentPR (SimilarItem.type x) (SimilarItem.number x) cur);
    [reflexivity |].
  destruct (get m (keyOf (SimilarItem.type x) (SimilarItem.number x)));
    apply get_set_other, sameId_key, H.
Qed.

Lemma get_addVector_same (m : ItemMap) (x : ScoredEmbedding.t) :
  ItemType_eqb (ScoredEmbedding.type x) t
  && (ScoredEmbedding.number x =? n)%Z = true ->
  get (addVector cur m x) (keyOf t n) = Some (fromVector x).
Proof.
  intro E. apply sameId_eq in E. destruct E as [Et En].
  unfold addVector. rewrite Et, En, notCurrent. apply get_set_same.
Qed.

Lemma get_addText_same (m : ItemMap) (x : SimilarItem.t) :
  ItemType_eqb (SimilarItem.type x) t && (SimilarItem.number x =? n)%Z = true ->
  get (addText cur m x) (keyOf t n)
  = match get m (keyOf t n) with
    | Some existing => Some (merge existing x)
    | None => Some x
    end.
Proof.
  intro E. apply sameId_eq in E. destruct E as [Et En].
  unfold addText. rewrite Et, En, notCurrent.
  destruct (get m (keyOf t n)); apply get_set_same.
Qed.

(** The entry of a key after the first loop: the last vector result for
    it, whatever came before. *)
Lemma get_vectors_all (vec : list ScoredEmbedding.t) (m : ItemMap) :
  get (fold_left (addVector cur) vec m) (keyOf t n)
  = lastVector (get m (keyOf t n)) (vectorHits t n vec).
Proof.
  revert m. induction vec as [| x vec IH]; intro m; [reflexivity |].
  cbn [fold_left]. rewrite IH. unfold vectorHits. cbn [filter].
  destruct (ItemType_eqb (ScoredEmbedding.type x) t
            && (ScoredEmbedding.number x =? n)%Z) eqn:E.
  - rewrite (get_addVector_same m x E). reflexivity.
  - rewrite (get_addVector_other m x E). reflexivity.
Qed.

(** The entry of a key after the second loop: what it was, merged with
    every text result for it, in order. *)
Lemma get_texts_all (txt : list SimilarItem.t) (m : ItemMap) :
  get (fold_left (addText cur) txt m) (keyOf t n)
  = mergeAll (get m (keyOf t n)) (textHits t n txt).
Proof.
  revert m. induction txt as [| x txt IH]; intro m; [reflexivity |].
  cbn [fold_left]. rewrite IH. unfold textHits. cbn [filter].
  destruct (ItemType_eqb (SimilarItem.type x) t
            && (SimilarItem.number x =? n)%Z) eqn:E.
  - rewrite (get_addText_same m x E). reflexivity.
  - rewrite (get_addText_other m x E). reflexivity.
Qed.

End CombineFacts.

Section MergedScoreFacts.
Import JsString Deduplicator DeduplicatorSpec.

Lemma lastVector_last (start : option SimilarItem.t)
    (earlier : list ScoredEmbedding.t) (iv : ScoredEmbedding.t) :
  lastVector start (earlier ++ [iv]) = Some (fromVector iv).
Proof. unfold lastVector. rewrite fold_left_app. reflexivity. Qed.

Lemma mergeAll_some (its : list SimilarItem.t) (e : SimilarItem.t) :
  exists m,
    mergeAll (Some e) its = Some m /\
    SimilarItem.type m = SimilarItem.type e /\
    SimilarItem.number m = SimilarItem.number e /\
    SimilarItem.similarity m
    = mergedScore (SimilarItem.similarity e) (map SimilarItem.similarity its).
Proof.
  revert e. induction its as [| it its IH]; intro e.
  - exists e. repeat split.
  - destruct (IH (merge e it)) as (m & Hm & Ht & Hn & Hs).
    exists m. split; [exact Hm |]. split; [exact Ht |]. split; [exact Hn |].
    exact Hs.
Qed.

Lemma mergedScore_ge (ls : list Q) (v : Q) : (v <= mergedScore v ls)%Q.
Proof.
  revert v. induction ls as [| l ls IH]; intro v.
  - apply Qle_refl.
  - apply Qle_trans with (boost v l); [apply Math_max_l | apply IH].
Qed.

End MergedScoreFacts.

Section RankingFacts.
Import JsString Deduplicator DeduplicatorSpec.

Lemma sortBySimilarity_perm (l : list SimilarItem.t) :
  Permutation (sortBySimilarity l) l.
Proof. apply sort_perm. Qed.

Lemma sortBySimilarity_sorted (l : list SimilarItem.t) :
  StronglySorted ranked (sortBySimilarity l).
Proof.
  apply sort_sorted; unfold ranked, bySimilarity.
  - intros a b H. apply Qle_bool_iff in H. lra.
  - intros a b H.
    assert (H' : ~ (SimilarItem.similarity b - SimilarItem.similarity a <= 0)%Q)
      by (rewrite <- Qle_bool_iff, H; discriminate).
    apply Qnot_le_lt in H'. lra.
  - intros a b c H1 H2. lra.
Qed.

Lemma verdict_spec (l : list SimilarItem.t) :
  verdict l = true <->
  exists top rest, l = top :: rest /\ (9 # 10 <= SimilarItem.similarity top)%Q.
Proof.
  destruct l as [| top rest]; simpl.
  - split; [discriminate | intros (? & ? & H & _); discriminate H].
  - rewrite Qle_bool_iff. split.
    + intro H. exists top, rest. split; [reflexivity | exact H].
    + intros (? & ? & H & Hq). injection H as <- <-. exact Hq.
Qed.

Lemma aboveThreshold_filter (th : Q) (l : list SimilarItem.t) :
  Forall (fun x => (th <= SimilarItem.similarity x)%Q)
    (filter (aboveThreshold th) l).
Proof.
  apply Forall_forall. intros x H. apply filter_In in H.
  apply Qle_bool_iff, H.
Qed.

Lemma Forall_firstn {A : Type} (P : A -> Prop) (k : nat) (l : list A) :
  Forall P l -> Forall P (firstn k l).
Proof.
  rewrite !Forall_forall. intros H x Hx. apply H.
  rewrite <- (firstn_skipn k l). apply in_or_app. left. exact Hx.
Qed.

Lemma In_firstn {A : Type} (k : nat) (l : list A) (x : A) :
  In x (firstn k l) -> In x l.
Proof.
  intro H. rewrite <- (firstn_skipn k l). apply in_or_app. left. exact H.
Qed.

(** No entry of the merged map is the current pull request. *)
Lemma combined_not_current (vec : list ScoredEmbedding.t)
    (txt : list SimilarItem.t) (cur : Z) (k : string) (v : SimilarItem.t) :
  In (k, v) (combined vec txt cur) ->
  isCurrentPR (SimilarItem.type v) (SimilarItem.number v) cur = false.
Proof.
  unfold combined.
  set (P := fun m : ItemMap =>
              forall k v, In (k, v) m ->
                isCurrentPR (SimilarItem.type v) (SimilarItem.number v) cur
                = false).
  assert (H0 : P []) by (intros ? ? []).
  assert (HV : forall m x, P m -> P (addVector cur m x)).
  { intros m x Hm. unfold addVector.
    destruct (isCurrentPR _ _ cur) eqn:E; [exact Hm |].
    intros k' v' H. apply In_set in H. destruct H as [H | H].
    - injection H as _ ->. exact E.
    - exact (Hm _ _ H). }
  assert (HT : forall m x, P m -> P (addText cur m x)).
  { intros m x Hm. unfold addText.
    destruct (isCurrentPR _ _ cur) eqn:E; [exact Hm |].
    destruct (get m _) as [existing |] eqn:G;
      intros k' v' H; apply In_set in H; destruct H as [H | H];
      try exact (Hm _ _ H); injection H as _ ->.
    - exact (Hm _ _ (get_In _ _ _ G)).
    - exact E. }
  assert (H1 : forall m, P m -> P (fold_left (addVector cur) vec m)).
  { induction vec as [| x vec' IH]; intros m Hm; simpl; [exact Hm |].
    apply IH, HV, Hm. }
  assert (H2 : forall m, P m -> P (fold_left (addText cur) txt m)).
  { induction txt as [| x txt' IH]; intros m Hm; simpl; [exact Hm |].
    apply IH, HT, Hm. }
  exact (H2 _ (H1 _ H0) k v).
Qed.

Lemma combineAndRank_not_current (vec : list ScoredEmbedding.t)
    (txt : list SimilarItem.t) (cur : Z) (x : SimilarItem.t) :
  In x (combineAndRankSimilarItems vec txt cur) ->
  ~ (SimilarItem.type x = pr /\ SimilarItem.number x = cur).
Proof.
  unfold combineAndRankSimilarItems. intros H [Ht Hn].
  apply (Permutation_in _ (sortBySimilarity_perm _)) in H.
  unfold values in H. apply in_map_iff in H. destruct H as ([k v] & <- & H).
  apply combined_not_current in H. simpl in Ht, Hn.
  unfold isCurrentPR in H. rewrite Ht, Hn, Z.eqb_refl in H. discriminate H.
Qed.

(** What the [try] block returns, when it returns. *)
Lemma findDuplicates_try_result (w : Adapters) (th : Q) (now : Z)
    (context : PRContext.t) (r : DeduplicationResult.t) :
  findDuplicates_try w th now context = Resolved r ->
  exists vec txt,
    findSimilarEmbeddings w = Resolved vec /\
    findSimilarPRsAndIssues w = Resolved txt /\
    r = {| DeduplicationResult.similarItems :=
             firstn 10
               (filter (aboveThreshold th)
                  (combineAndRankSimilarItems vec txt
                     (PRContext.number context)));
           DeduplicationResult.isDuplicate :=
             verdict
               (firstn 10
                  (filter (aboveThreshold th)
                     (combineAndRankSimilarItems vec txt
                        (PRContext.number context))));
           DeduplicationResult.duplicateThreshold := th |}.
Proof.
  unfold findDuplicates_try, createPREmbedding, bind, JsArray.slice0.
  destruct (generateEmbedding w); [| discriminate].
  destruct (addEmbedding w); [| discriminate].
  destruct (findSimilarEmbeddings w) as [vec |]; [| discriminate].
  destruct (findSimilarPRsAndIssues w) as [txt |]; [| discriminate].
  intro H. injection H as <-. exists vec, txt. repeat split.
Qed.

(** The main path: no self, threshold, ranking, cap and verdict. *)
Lemma findDuplicates_try_ranked (w : Adapters) (th : Q) (now : Z)
    (context : PRContext.t) (r : DeduplicationResult.t) :
  findDuplicates_try w th now context = Resolved r ->
  (forall x, In x (DeduplicationResult.similarItems r) -> ~ isSelf context x) /\
  Forall (fun x => (th <= SimilarItem.similarity x)%Q)
    (DeduplicationResult.similarItems r) /\
  StronglySorted ranked (DeduplicationResult.similarItems r) /\
  (List.length (DeduplicationResult.similarItems r) <= 10)%nat /\
  DeduplicationResult.isDuplicate r
  = verdict (DeduplicationResult.similarItems r).
Proof.
  intro H. apply findDuplicates_try_result in H.
  destruct H as (vec & txt & _ & _ & ->).
  cbn [DeduplicationResult.similarItems DeduplicationResult.isDuplicate].
  split; [| split; [| split; [| split]]].
  - intros x Hx. apply In_firstn in Hx. apply filter_In in Hx.
    unfold isSelf.
    exact (combineAndRank_not_current vec txt _ x (proj1 Hx)).
  - apply Forall_firstn, aboveThreshold_filter.
  - apply StronglySorted_firstn, StronglySorted_filter.
    apply sortBySimilarity_sorted.
  - apply firstn_le_length.
  - reflexivity.
Qed.

(** The fallback: threshold, cap and verdict; the order is the order of the
    text search. *)
Lemma findDuplicates_fallback_facts (w : Adapters) (th : Q) :
  let r := findDuplicates_fallback w th in
  Forall (fun x => (th <= SimilarItem.similarity x)%Q)
    (DeduplicationResult.similarItems r) /\
  (List.length (DeduplicationResult.similarItems r) <= 5)%nat /\
  DeduplicationResult.isDuplicate r
  = verdict (DeduplicationResult.similarItems r) /\
  (forall txt, findSimilarPRsAndIssues_again w = Resolved txt ->
               StronglySorted ranked txt ->
               StronglySorted ranked (DeduplicationResult.similarItems r)).
Proof.
  unfold findDuplicates_fallback, JsArray.slice0.
  destruct (findSimilarPRsAndIssues_again w) as [txt |];
    cbn [DeduplicationResult.similarItems DeduplicationResult.isDuplicate].
  - split; [apply Forall_firstn, aboveThreshold_filter |].
    split; [apply firstn_le_length |]. split; [reflexivity |].
    intros txt' H Hs. injection H as <-.
    apply StronglySorted_firstn, StronglySorted_filter, Hs.
  - split; [constructor |]. split; [simpl; lia |]. split; [reflexivity |].
    intros txt H. discriminate H.
Qed.

End RankingFacts.

Section DeduplicatorClaims.
Import JsString Deduplicator DeduplicatorSpec.

Example findDuplicates_combines_sample :
  DeduplicationResult.similarItems
    (findDuplicates (allUp [scored pr 120 (85 # 100)] [item pr 120 (75 # 100)])
       (8 # 10) 0 pr123)
  = [ SimilarItem.mk pr 120 "API rate limiting"
        (Math_max (85 # 100) ((85 # 100) * (7 # 10) + (75 # 100) * (3 # 10)))
        merged "https://github.com/repo/pull/120" ].
Proof. vm_compute. reflexivity. Qed.

(** C3. For a key that the vector search returned and that is not the
    current pull request, the ranked list holds exactly one candidate of
    this key.  Its similarity starts from the similarity [v] of the last
    vector result for the key and meets the text results for the key in
    order, each one turning the score [s] into [max(s, 0.7 s + 0.3 l)];
    it is at least [v].  With one text result, of similarity [l], it is
    [max(v, 0.7 v + 0.3 l)]; for [v = 0.85] and [l = 0.75] it is 0.85. *)
Theorem combined_similarity_formula :
  (forall (vec : list ScoredEmbedding.t) (txt : list SimilarItem.t) (cur : Z)
          (t : ItemType) (n : Z)
          (earlier : list ScoredEmbedding.t) (iv : ScoredEmbedding.t),
      isCurrentPR t n cur = false ->
      vectorHits t n vec = earlier ++ [iv] ->
      let v := ScoredEmbedding.similarity iv in
      let ls := map SimilarItem.similarity (textHits t n txt) in
      exists m : SimilarItem.t,
        In m (combineAndRankSimilarItems vec txt cur) /\
        SimilarItem.type m = t /\ SimilarItem.number m = n /\
        (forall x, In x (combineAndRankSimilarItems vec txt cur) ->
                   SimilarItem.type x = t -> SimilarItem.number x = n ->
                   x = m) /\
        SimilarItem.similarity m = mergedScore v ls /\
        (v <= SimilarItem.similarity m)%Q /\
        (forall l, ls = [l] ->
           SimilarItem.similarity m
           = Math_max v (v * (7 # 10) + l * (3 # 10))%Q /\
           (SimilarItem.similarity m
            == Qmax v ((7 # 10) * v + (3 # 10) * l))%Q)) /\
  (Math_max (85 # 100) ((85 # 100) * (7 # 10) + (75 # 100) * (3 # 10))
   == 85 # 100)%Q /\
  (85 # 100
   <= Math_max (85 # 100) ((85 # 100) * (7 # 10) + (75 # 100) * (3 # 10)))%Q.
Proof.
  split; [| split; [vm_compute; reflexivity | apply Math_max_l]].
  intros vec txt cur t n earlier iv Hc Hv v ls.
  assert (Hid : ScoredEmbedding.type iv = t /\ ScoredEmbedding.number iv = n).
  { assert (Hin : In iv (vectorHits t n vec))
      by (rewrite Hv; apply in_or_app; right; left; reflexivity).
    unfold vectorHits in Hin. apply filter_In in Hin.
    apply sameId_eq, Hin. }
  destruct (mergeAll_some (textHits t n txt) (fromVector iv))
    as (m & Hm & Hmt & Hmn & Hms).
  assert (G : get (combined vec txt cur) (keyOf t n) = Some m).
  { unfold combined.
    rewrite (get_texts_all cur t n Hc), (get_vectors_all cur t n Hc), Hv.
    rewrite lastVector_last. exact Hm. }
  cbn [fromVector SimilarItem.type SimilarItem.number SimilarItem.similarity]
    in Hmt, Hmn, Hms.
  fold v ls in Hms.
  exists m.
  split; [| split; [| split; [| split; [| split; [| split]]]]].
  - unfold combineAndRankSimilarItems.
    apply (Permutation_in _ (Permutation_sym (sortBySimilarity_perm _))).
    unfold values. apply in_map_iff.
    exists (keyOf t n, m). split; [reflexivity | apply get_In, G].
  - rewrite Hmt. apply Hid.
  - rewrite Hmn. apply Hid.
  - intros x Hx Hxt Hxn. unfold combineAndRankSimilarItems in Hx.
    apply (Permutation_in _ (sortBySimilarity_perm _)) in Hx.
    unfold values in Hx. apply in_map_iff in Hx.
    destruct Hx as ([k y] & Hy & Hin). simpl in Hy. subst y.
    destruct (wellKeyed_combined vec txt cur) as [Hnd Hk].
    pose proof (Hk _ _ Hin) as Ek. rewrite Hxt, Hxn in Ek. subst k.
    apply (In_get _ _ _ Hnd) in Hin. rewrite G in Hin.
    injection Hin as <-. reflexivity.
  - exact Hms.
  - rewrite Hms. apply mergedScore_ge.
  - intros l Hl. rewrite Hms, Hl. cbn [mergedScore fold_left]. unfold boost.
    split; [reflexivity |].
    rewrite Math_max_Qmax.
    assert (E : (v * (7 # 10) + l * (3 # 10) == (7 # 10) * v + (3 # 10) * l)%Q)
      by ring.
    rewrite E. reflexivity.
Qed.

Lemma combined_similarity_formula_witness :
  vectorHits pr 120 [scored pr 123 1; scored pr 120 (85 # 100)]
  = [] ++ [scored pr 120 (85 # 100)] /\
  textHits pr 120 [item pr 120 (75 # 100); item issue 7 (1 # 2)]
  = [item pr 120 (75 # 100)] /\
  exists m : SimilarItem.t,
    In m (combineAndRankSimilarItems
            [scored pr 123 1; scored pr 120 (85 # 100)]
            [item pr 120 (75 # 100); item issue 7 (1 # 2)] 123) /\
    SimilarItem.number m = 120%Z /\
    (85 # 100 <= SimilarItem.similarity m)%Q /\
    SimilarItem.similarity m
    = Math_max (85 # 100) ((85 # 100) * (7 # 10) + (75 # 100) * (3 # 10))%Q.
Proof.
  split; [reflexivity |]. split; [reflexivity |].
  destruct (proj1 combined_similarity_formula
              [scored pr 123 1; scored pr 120 (85 # 100)]
              [item pr 120 (75 # 100); item issue 7 (1 # 2)] 123%Z
              pr 120%Z [] (scored pr 120 (85 # 100))
              eq_refl eq_refl)
    as (m & H1 & _ & H2 & _ & _ & H3 & H4).
  exists m. split; [exact H1 |]. split; [exact H2 |]. split; [exact H3 |].
  exact (proj1 (H4 (75 # 100) eq_refl)).
Defined.

(** The claim as it was put fails when the vector search returns a key
    twice: the second result overwrites the first.  With vector results
    0.9 and 0.1 and a text result 0.5 for one key, the merged score is
    0.22: it is not [max(0.9, 0.7 * 0.9 + 0.3 * 0.5)], and it is below
    0.9. *)
Lemma combined_similarity_overwritten :
  vectorHits pr 120 [scored pr 120 (9 # 10); scored pr 120 (1 # 10)]
  = [scored pr 120 (9 # 10); scored pr 120 (1 # 10)] /\
  textHits pr 120 [item pr 120 (5 # 10)] = [item pr 120 (5 # 10)] /\
  exists m : SimilarItem.t,
    combineAndRankSimilarItems
      [scored pr 120 (9 # 10); scored pr 120 (1 # 10)]
      [item pr 120 (5 # 10)] 123 = [m] /\
    (SimilarItem.similarity m == 22 # 100)%Q /\
    ~ (SimilarItem.similarity m
       == Math_max (9 # 10) ((9 # 10) * (7 # 10) + (5 # 10) * (3 # 10)))%Q /\
    ~ (9 # 10 <= SimilarItem.similarity m)%Q.
Proof.
  split; [reflexivity |]. split; [reflexivity |].
  eexists. split; [vm_compute; reflexivity |].
  cbn [SimilarItem.similarity].
  split; [vm_compute; reflexivity |].
  split; intro H; vm_compute in H; [discriminate H | apply H; reflexivity].
Qed.

Example combined_similarity_two_text_results :
  mergedScore (1 # 2) [1; 1] = boost (boost (1 # 2) 1) 1 /\
  (mergedScore (1 # 2) [1; 1] == 755 # 1000)%Q /\
  (boost (1 # 2) 1 == 65 # 100)%Q.
Proof. split; [reflexivity |]. split; vm_compute; reflexivity. Qed.

(** C1.  On the main path the verdict never holds the pull request itself,
    whatever the two searches return.  On the fallback path it can: with
    the embedding service down and a text search that returns pull request
    123 among its results, the verdict for pull request 123 lists 123 and
    flags it as a duplicate of itself. *)
Theorem findDuplicates_own_identity :
  (forall (w : Adapters) (th : Q) (now : Z) (context : PRContext.t)
          (r : DeduplicationResult.t),
      findDuplicates_try w th now context = Resolved r ->
      findDuplicates w th now context = r /\
      forall x, In x (DeduplicationResult.similarItems r) ->
                ~ isSelf context x) /\
  (let r := findDuplicates (embeddingDown [item pr 123 (95 # 100)])
              (8 # 10) 0 pr123 in
   DeduplicationResult.similarItems r = [item pr 123 (95 # 100)] /\
   isSelf pr123 (item pr 123 (95 # 100)) /\
   DeduplicationResult.isDuplicate r = true).
Proof.
  split.
  - intros w th now context r H. split.
    + unfold findDuplicates. rewrite H. reflexivity.
    + apply (findDuplicates_try_ranked w th now context r H).
  - repeat split.
Qed.

Lemma findDuplicates_own_identity_witness :
  findDuplicates_try
    (allUp [scored pr 123 1; scored pr 120 (85 # 100)]
           [item pr 123 (95 # 100)])
    (8 # 10) 0 pr123
  = Resolved
      (DeduplicationResult.mk [fromVector (scored pr 120 (85 # 100))]
         false (8 # 10)) /\
  ~ isSelf pr123 (fromVector (scored pr 120 (85 # 100))).
Proof.
  assert (H : findDuplicates_try
                (allUp [scored pr 123 1; scored pr 120 (85 # 100)]
                       [item pr 123 (95 # 100)])
                (8 # 10) 0 pr123
              = Resolved
                  (DeduplicationResult.mk
                     [fromVector (scored pr 120 (85 # 100))] false (8 # 10)))
    by reflexivity.
  split; [exact H |].
  apply (proj2 (proj1 findDuplicates_own_identity _ _ _ _ _ H)).
  left. reflexivity.
Defined.

(** C2.  On the main path the candidates all reach the threshold, are
    sorted by similarity, highest first, are at most 10, and [isDuplicate]
    tells that there is a first candidate with similarity at least 0.9.
    On the fallback path the candidates reach the threshold, are at most 5
    and [isDuplicate] is computed the same way, but they are left in the
    order of the text search: with results scored 0.85 and 0.95, in this
    order, the verdict lists 0.85 before 0.95 and says it is no
    duplicate. *)
Theorem findDuplicates_verdict :
  (forall (w : Adapters) (th : Q) (now : Z) (context : PRContext.t)
          (r : DeduplicationResult.t),
      findDuplicates_try w th now context = Resolved r ->
      findDuplicates w th now context = r /\
      Forall (fun x => (th <= SimilarItem.similarity x)%Q)
        (DeduplicationResult.similarItems r) /\
      StronglySorted ranked (DeduplicationResult.similarItems r) /\
      (List.length (DeduplicationResult.similarItems r) <= 10)%nat /\
      (DeduplicationResult.isDuplicate r = true <->
       exists top rest,
         DeduplicationResult.similarItems r = top :: rest /\
         (9 # 10 <= SimilarItem.similarity top)%Q)) /\
  (forall (w : Adapters) (th : Q) (now : Z) (context : PRContext.t),
      findDuplicates_try w th now context = Rejected ->
      let r := findDuplicates w th now context in
      Forall (fun x => (th <= SimilarItem.similarity x)%Q)
        (DeduplicationResult.similarItems r) /\
      (List.length (DeduplicationResult.similarItems r) <= 5)%nat /\
      (DeduplicationResult.isDuplicate r = true <->
       exists top rest,
         DeduplicationResult.similarItems r = top :: rest /\
         (9 # 10 <= SimilarItem.similarity top)%Q) /\
      (forall txt, findSimilarPRsAndIssues_again w = Resolved txt ->
                   StronglySorted ranked txt ->
                   StronglySorted ranked (DeduplicationResult.similarItems r))) /\
  (let r := findDuplicates
              (embeddingDown [item pr 120 (85 # 100); item pr 121 (95 # 100)])
              (8 # 10) 0 pr123 in
   DeduplicationResult.similarItems r
   = [item pr 120 (85 # 100); item pr 121 (95 # 100)] /\
   ~ StronglySorted ranked (DeduplicationResult.similarItems r) /\
   DeduplicationResult.isDuplicate r = false).
Proof.
  split; [| split].
  - intros w th now context r H.
    destruct (findDuplicates_try_ranked w th now context r H)
      as (_ & H1 & H2 & H3 & H4).
    split; [unfold findDuplicates; rewrite H; reflexivity |].
    split; [exact H1 |]. split; [exact H2 |]. split; [exact H3 |].
    rewrite H4. apply verdict_spec.
  - intros w th now context H r.
    assert (E : r = findDuplicates_fallback w th)
      by (unfold r, findDuplicates; rewrite H; reflexivity).
    rewrite E.
    destruct (findDuplicates_fallback_facts w th) as (H1 & H2 & H3 & H4).
    split; [exact H1 |]. split; [exact H2 |].
    split; [rewrite H3; apply verdict_spec | exact H4].
  - split; [reflexivity |]. split; [| reflexivity].
    intro H. cbv zeta in H.
    change (StronglySorted ranked
              [item pr 120 (85 # 100); item pr 121 (95 # 100)]) in H.
    apply StronglySorted_inv in H. destruct H as [_ H].
    inversion H as [| ? ? Hr _]; subst.
    unfold ranked in Hr. simpl in Hr. unfold Qle in Hr. simpl in Hr. lia.
Qed.

Lemma findDuplicates_verdict_witness :
  findDuplicates_try
    (allUp [scored pr 120 (85 # 100); scored issue 7 (95 # 100)] [])
    (8 # 10) 0 pr123
  = Resolved
      (DeduplicationResult.mk
         [fromVector (scored issue 7 (95 # 100));
          fromVector (scored pr 120 (85 # 100))] true (8 # 10)) /\
  StronglySorted ranked
    [fromVector (scored issue 7 (95 # 100));
     fromVector (scored pr 120 (85 # 100))].
Proof.
  assert (H : findDuplicates_try
                (allUp [scored pr 120 (85 # 100); scored issue 7 (95 # 100)] [])
                (8 # 10) 0 pr123
              = Resolved
                  (DeduplicationResult.mk
                     [fromVector (scored issue 7 (95 # 100));
                      fromVector (scored pr 120 (85 # 100))] true (8 # 10)))
    by reflexivity.
  split; [exact H |].
  exact (proj1 (proj2 (proj2 (proj1 findDuplicates_verdict _ _ _ _ _ H)))).
Defined.

End DeduplicatorClaims.

(** ** Binary64 checks of the constants *)

Section Binary64Checks.
Import Binary64.
Local Open Scope float_scope.

(** identical normal forms: both ratios are 1, and the sum rounds to 1 *)
Example weighted_one : (weighted 1 1 =? 1) = true.
Proof. reflexivity. Qed.

(** 0.85 merged with 0.75 stays 0.85 *)
Example merged_085_075 : (merged v085 l075 =? v085) = true.
Proof. reflexivity. Qed.

(** [abc] against [cab], and back *)
Example weighted_abc_cab :
  (weighted (0 / 2) (1 / 3) =? weighted (0 / 2) (2 / 3)) = false.
Proof. reflexivity. Qed.

End Binary64Checks.

(** * Part II, continued: further properties of the code *)

(** ** The diff parser: what the hunks hold *)

Section ParserInvariant.
Import JsString DiffParser DiffParserSpec DiffParserMoreSpec.

Variable P : DiffChunk -> Prop.
Hypothesis P_new : forall a b c d, P (mkDiffChunk a b c d []).
Hypothesis P_push : forall c line, P c -> P (pushLine c (newLine c line)).



End ParserInvariant.

Section ParserContents.
Import JsString DiffParser DiffParserSpec DiffParserMoreSpec.

Lemma header_no_diffLine (line : string) :
  isHeader line = true -> isDiffLine line = false.
Proof.
  unfold isHeader. intro H.
  destruct (isDiffLine line) eqn:E; [| reflexivity].
  rewrite (isDiffLine_no_header line E) in H. discriminate H.
Qed.

Lemma header_no_metadata (line : string) :
  isHeader line = true -> isMetadata line = false.
Proof.
  unfold isHeader. intro H.
  destruct (isMetadata line) eqn:E; [| reflexivity].
  rewrite (isMetadata_no_header line E) in H. discriminate H.
Qed.

Lemma headers_closeChunk_push (st : State) (c : DiffChunk) (l : DiffLine) :
  currentChunk st = Some c ->
  map header
    (closeChunk {| chunks := chunks st; currentChunk := Some (pushLine c l) |})
  = map header (closeChunk st).
Proof.
  intro Hc. unfold closeChunk. rewrite Hc. simpl.
  rewrite !map_app. reflexivity.
Qed.

Lemma run_headers (ls : list string) (st : State) :
  map header (closeChunk (run ls st))
  = map header (closeChunk st) ++ headersOf ls.
Proof.
  revert st. induction ls as [| line ls IH]; intro st; simpl.
  - symmetry. apply app_nil_r.
  - rewrite IH. unfold step.
    destruct (chunkMatch line) as [[[[g1 g2] g3] g4] |].
    + rewrite closeChunk_step_header, map_app, <- app_assoc. reflexivity.
    + simpl. destruct (isMetadata line); [reflexivity |].
      destruct (currentChunk st) as [c |] eqn:Hc; [| reflexivity].
      destruct (isDiffLine line); [| reflexivity].
      rewrite (headers_closeChunk_push st c _ Hc). reflexivity.
Qed.

Lemma views_app (a b : list DiffChunk) : views (a ++ b) = views a ++ views b.
Proof. unfold views. rewrite flat_map_app, map_app. reflexivity. Qed.

Lemma views_closeChunk_push (st : State) (c : DiffChunk) (l : DiffLine) :
  currentChunk st = Some c ->
  views
    (closeChunk {| chunks := chunks st; currentChunk := Some (pushLine c l) |})
  = views (closeChunk st) ++ [view l].
Proof.
  intro Hc. unfold closeChunk. rewrite Hc. cbn [chunks currentChunk].
  rewrite !views_app. unfold views at 2 4. simpl.
  rewrite !app_nil_r, map_app, <- app_assoc. reflexivity.
Qed.

Lemma views_closeChunk_header (st : State) (c : DiffChunk) :
  lines c = [] ->
  views (closeChunk {| chunks := closeChunk st; currentChunk := Some c |})
  = views (closeChunk st).
Proof.
  intro H. rewrite closeChunk_step_header, views_app.
  unfold views at 2. simpl. rewrite H. simpl. apply app_nil_r.
Qed.

Lemma run_views (ls : list string) (st : State) :
  views (closeChunk (run ls st))
  = views (closeChunk st) ++ map classify (filter contentLine (taken st ls)).
Proof.
  revert st. induction ls as [| line ls IH]; intro st.
  - unfold taken. simpl. destruct (currentChunk st); symmetry; apply app_nil_r.
  - change (run (line :: ls) st) with (run ls (step st line)). rewrite IH.
    unfold step.
    destruct (chunkMatch line) as [[[[g1 g2] g3] g4] |] eqn:Hm.
    + assert (Hh : isHeader line = true)
        by (unfold isHeader; rewrite Hm; reflexivity).
      rewrite views_closeChunk_header by reflexivity.
      f_equal. unfold taken at 1. cbn [currentChunk].
      unfold taken. destruct (currentChunk st).
      * simpl. unfold contentLine at 2.
        rewrite (header_no_diffLine line Hh). reflexivity.
      * simpl. rewrite Hh. reflexivity.
    + assert (Hh : isHeader line = false)
        by (unfold isHeader; rewrite Hm; reflexivity).
      assert (Hskip : contentLine line = false ->
                      taken st ls = taken st ls ->
                      filter contentLine (taken st (line :: ls))
                      = filter contentLine (taken st ls)).
      { intros Hc _. unfold taken. destruct (currentChunk st); simpl.
        - rewrite Hc. reflexivity.
        - rewrite Hh. reflexivity. }
      destruct (isMetadata line) eqn:Hmeta.
      * rewrite Hskip; [reflexivity | | reflexivity].
        unfold contentLine. rewrite Hmeta. apply andb_false_r.
      * destruct (currentChunk st) as [c |] eqn:Hc.
        -- destruct (isDiffLine line) eqn:Hd.
           ++ rewrite (views_closeChunk_push st c _ Hc), <- app_assoc.
              f_equal. unfold taken. cbn [currentChunk]. rewrite Hc.
              simpl. unfold contentLine at 2. rewrite Hd, Hmeta. reflexivity.
           ++ rewrite Hskip; [reflexivity | | reflexivity].
              unfold contentLine. rewrite Hd. reflexivity.
        -- unfold taken. rewrite Hc. simpl. rewrite Hh. reflexivity.
Qed.

End ParserContents.

Section ParserExtras.
Import JsString DiffParser DiffParserSpec DiffParserMoreSpec Samples.

(** X1. The hunks of [parseDiff] are, in order, the hunk headers of the
    text: one hunk per header line, with the four numbers of the header
    and 1 for a count that is left out. *)
Theorem parseDiff_headers :
  forall diff : string,
    map header (parseDiff diff) = headersOf (split nl diff) /\
    List.length (parseDiff diff)
    = List.length (filter isHeader (split nl diff)).
Proof.
  intro diff.
  assert (H : map header (parseDiff diff) = headersOf (split nl diff)).
  { unfold parseDiff. destruct diff; [reflexivity |].
    rewrite run_headers. reflexivity. }
  split; [exact H |].
  rewrite <- (length_map header), H.
  generalize (split nl diff). intro ls. unfold headersOf, isHeader.
  induction ls as [| line ls IH]; simpl; [reflexivity |].
  destruct (chunkMatch line) as [[[[g1 g2] g3] g4] |]; simpl;
    rewrite IH; reflexivity.
Qed.

Example parseDiff_headers_default_count :
  map header (parseDiff (join nl ["@@ -3 +4,0 @@ fn main()"; "-x"]))
  = [(3, 1, 4, 0)%Z].
Proof. reflexivity. Qed.

Lemma parseDiff_contents_aux (diff : string) :
  views (parseDiff diff)
  = map classify (filter contentLine (afterFirstHeader (split nl diff))).
Proof.
  unfold parseDiff. destruct diff; [reflexivity |].
  rewrite run_views. reflexivity.
Qed.

(** X2. The lines of the hunks, read in order, are exactly the lines of
    the text that follow the first hunk header, start with [+], [-] or a
    space and do not start with [---] or [+++]; each has the type of its
    first character and the rest of the line as content.  Lines before the
    first header and lines without a marker leave no trace. *)
Theorem parseDiff_contents :
  forall diff : string,
    views (parseDiff diff)
    = map classify (filter contentLine (afterFirstHeader (split nl diff))).
Proof.
  intro diff. unfold parseDiff.
  destruct diff as [| c rest]; [reflexivity |].
  rewrite run_views. reflexivity.
Qed.

Lemma filter_filter_and {A : Type} (f g : A -> bool) (l : list A) :
  filter f (filter g l) = filter (fun x => g x && f x) l.
Proof.
  induction l as [| x l IH]; simpl; [reflexivity |].
  destruct (g x); simpl; [destruct (f x) |]; rewrite IH; reflexivity.
Qed.

Lemma views_filter (t : LineType) (l : list DiffLine) (m : list string) :
  map view l = map classify m ->
  map content (filter (fun x => LineType_eqb (type x) t) l)
  = map slice1 (filter (fun s => LineType_eqb (lineType s) t) m).
Proof.
  revert m. induction l as [| x l IH]; intros [| s m] H; simpl in *;
    try discriminate H; [reflexivity |].
  injection H as Ht Hc Hrest. unfold view, classify in *.
  rewrite Ht. destruct (LineType_eqb (lineType s) t); simpl;
    [rewrite Hc |]; rewrite (IH m Hrest); reflexivity.
Qed.

Lemma plus_metadata (line : string) :
  startsWith line "+" = true -> isMetadata line = startsWith line "+++".
Proof.
  unfold isMetadata, startsWith. destruct line as [| a r]; [discriminate |].
  rewrite !prefix_cons, prefix_nil, andb_true_r.
  destruct (Ascii.eqb_spec "+" a) as [<- | _]; [| discriminate].
  intros _. reflexivity.
Qed.

Lemma minus_metadata (line : string) :
  startsWith line "-" = true -> isMetadata line = startsWith line "---".
Proof.
  unfold isMetadata, startsWith. destruct line as [| a r]; [discriminate |].
  rewrite !prefix_cons, prefix_nil, andb_true_r.
  destruct (Ascii.eqb_spec "-" a) as [<- | _]; [| discriminate].
  intros _. simpl. apply orb_false_r.
Qed.

Lemma contentLine_added (line : string) :
  contentLine line && LineType_eqb (lineType line) added = addedLine line.
Proof.
  unfold contentLine, addedLine, isDiffLine, lineType.
  destruct (startsWith line "+") eqn:Hp.
  - rewrite (plus_metadata line Hp). simpl. apply andb_true_r.
  - destruct (startsWith line "-"); simpl; apply andb_false_r.
Qed.

Lemma contentLine_removed (line : string) :
  contentLine line && LineType_eqb (lineType line) removed = removedLine line.
Proof.
  unfold contentLine, removedLine, isDiffLine, lineType.
  destruct (startsWith line "-") eqn:Hm.
  - rewrite (minus_metadata line Hm).
    destruct (startsWith line "+") eqn:Hp.
    + exfalso. unfold startsWith in *. destruct line as [| a r]; [discriminate |].
      rewrite prefix_cons in Hp, Hm.
      destruct (Ascii.eqb_spec "+" a) as [<- | _]; discriminate.
    + simpl. apply andb_true_r.
  - destruct (startsWith line "+"); simpl; apply andb_false_r.
Qed.

Lemma changed_lines (diff : string) :
  extractChangedLines diff
  = (map slice1 (filter addedLine (afterFirstHeader (split nl diff))),
     map slice1 (filter removedLine (afterFirstHeader (split nl diff)))).
Proof.
  unfold extractChangedLines.
  pose proof (parseDiff_contents_aux diff) as H. unfold views in H.
  rewrite (views_filter added _ _ H), (views_filter removed _ _ H).
  rewrite !filter_filter_and.
  f_equal; f_equal; apply filter_ext; intro s;
    [apply contentLine_added | apply contentLine_removed].
Qed.

(** X3. [extractChangedLines] returns, in order, the lines after the first
    hunk header that start with [+] but not [+++], and those that start
    with [-] but not [---], each without its first character; the counts
    of [getDiffStats] are the lengths of these two lists and their sum. *)
Theorem extractChangedLines_getDiffStats :
  forall diff : string,
    let body := afterFirstHeader (split nl diff) in
    extractChangedLines diff
    = (map slice1 (filter addedLine body),
       map slice1 (filter removedLine body)) /\
    getDiffStats diff
    = (Z.of_nat (List.length (fst (extractChangedLines diff))),
       Z.of_nat (List.length (snd (extractChangedLines diff))),
       (Z.of_nat (List.length (fst (extractChangedLines diff)))
        + Z.of_nat (List.length (snd (extractChangedLines diff))))%Z).
Proof.
  intro diff. cbv zeta. split; [apply changed_lines |].
  unfold getDiffStats, extractChangedLines. simpl.
  rewrite !length_map. reflexivity.
Qed.

End ParserExtras.

Section ParserNumbering.
Import JsString DiffParser DiffParserSpec DiffParserMoreSpec Samples.







End ParserNumbering.

(** ** The diff parser: simplifyDiffForAnalysis *)

Section SimplifyFacts.
Import JsString DiffParser DiffParserSpec DiffParserMore DiffParserMoreSpec.

Lemma simplifyStep_keepLine (acc : list string) (line : string) :
  simplifyStep acc line = if keepLine line then acc ++ [line] else acc.
Proof.
  unfold simplifyStep, keepLine.
  destruct (isMetadata line); [reflexivity |].
  destruct (startsWith line "@@"); [reflexivity |].
  destruct (startsWith line "+" || startsWith line "-"); [reflexivity |].
  destruct (startsWith line " " && truthy (trim line)); reflexivity.
Qed.

Lemma fold_simplifyStep (ls acc : list string) :
  fold_left simplifyStep ls acc = acc ++ filter keepLine ls.
Proof.
  revert acc. induction ls as [| line ls IH]; intro acc; simpl.
  - symmetry. apply app_nil_r.
  - rewrite IH, simplifyStep_keepLine.
    destruct (keepLine line); [rewrite <- app_assoc |]; reflexivity.
Qed.

Lemma split_single (x : string) : noNewline x = true -> split nl x = [x].
Proof.
  induction x as [| c r IH]; simpl; intro H; [reflexivity |].
  apply andb_true_iff in H. destruct H as [Hc Hr].
  apply negb_true_iff in Hc. rewrite Hc, (IH Hr). reflexivity.
Qed.

Lemma split_append (x rest : string) :
  noNewline x = true ->
  split nl (x ++ String nl rest) = x :: split nl rest.
Proof.
  induction x as [| c r IH]; simpl; intro H.
  - reflexivity.
  - apply andb_true_iff in H. destruct H as [Hc Hr].
    apply negb_true_iff in Hc. rewrite Hc, (IH Hr). reflexivity.
Qed.

Lemma split_join (ls : list string) :
  ls <> [] -> Forall (fun x => noNewline x = true) ls ->
  split nl (join nl ls) = ls.
Proof.
  unfold join. induction ls as [| x ls IH]; intros Hne H; [contradiction |].
  inversion H as [| ? ? Hx Hls]; subst.
  destruct ls as [| y ls'].
  - simpl. apply split_single, Hx.
  - change (String.concat (String nl "") (x :: y :: ls'))
      with (x ++ String nl (String.concat (String nl "") (y :: ls')))%string.
    rewrite split_append by exact Hx.
    rewrite IH; [reflexivity | discriminate | exact Hls].
Qed.

Lemma split_noNewline (s : string) :
  Forall (fun x => noNewline x = true) (split nl s).
Proof.
  induction s as [| c r IH]; simpl.
  - constructor; [reflexivity | constructor].
  - destruct (Ascii.eqb c nl) eqn:E.
    + constructor; [reflexivity | exact IH].
    + destruct (split nl r) as [| w ws]; [constructor; [| constructor] |].
      * simpl. rewrite E. reflexivity.
      * inversion IH; subst. constructor; [| assumption].
        simpl. rewrite E. assumption.
Qed.

Lemma Forall_filter {A : Type} (P : A -> Prop) (f : A -> bool) (l : list A) :
  Forall P l -> Forall P (filter f l).
Proof.
  rewrite !Forall_forall. intros H x Hx. apply H.
  apply filter_In in Hx. apply Hx.
Qed.

Lemma filter_idem {A : Type} (f : A -> bool) (l : list A) :
  filter f (filter f l) = filter f l.
Proof.
  induction l as [| x l IH]; simpl; [reflexivity |].
  destruct (f x) eqn:E; simpl; [rewrite E, IH |]; auto.
Qed.

Lemma simplify_kept (diff : string) :
  simplifyDiffForAnalysis diff
  = join nl (filter keepLine (split nl diff)).
Proof.
  unfold simplifyDiffForAnalysis. rewrite fold_simplifyStep. reflexivity.
Qed.

(** The lines of the simplified text: the kept lines, or one empty line
    when nothing is kept. *)
Lemma simplify_lines (diff : string) :
  split nl (simplifyDiffForAnalysis diff)
  = match filter keepLine (split nl diff) with
    | [] => [EmptyString]
    | kept => kept
    end.
Proof.
  rewrite simplify_kept.
  destruct (filter keepLine (split nl diff)) as [| x k] eqn:E; [reflexivity |].
  apply split_join; [discriminate |].
  rewrite <- E. apply Forall_filter, split_noNewline.
Qed.

Lemma stripPrefix_prefix (p s r : string) :
  stripPrefix p s = Some r -> String.prefix p s = true.
Proof.
  revert s. induction p as [| a p IH]; intros s H; [apply prefix_nil |].
  destruct s as [| b s]; [discriminate H |].
  simpl in H. rewrite prefix_cons.
  destruct (Ascii.eqb a b); [| discriminate H].
  apply (IH s H).
Qed.

Lemma header_starts_at (line : string) :
  isHeader line = true -> startsWith line "@@" = true.
Proof.
  unfold isHeader, chunkMatch, startsWith.
  destruct (stripPrefix "@@ -" line) as [r1 |] eqn:E; [| discriminate].
  intros _. apply stripPrefix_prefix in E.
  destruct line as [| a [| b r]]; [discriminate E | |].
  - rewrite prefix_cons in E. apply andb_true_iff in E.
    destruct E as [_ E]. discriminate E.
  - rewrite !prefix_cons in E. rewrite !prefix_cons, prefix_nil.
    apply andb_true_iff in E. destruct E as [-> E].
    apply andb_true_iff in E. destruct E as [-> _]. reflexivity.
Qed.

Lemma header_kept (line : string) :
  isHeader line = true -> keepLine line = true.
Proof.
  intro H. unfold keepLine.
  rewrite (header_no_metadata line H), (header_starts_at line H). reflexivity.
Qed.

Lemma added_kept (line : string) :
  addedLine line = true -> keepLine line = true.
Proof.
  unfold addedLine, keepLine. intro H.
  apply andb_true_iff in H. destruct H as [Hp Hn].
  rewrite (plus_metadata line Hp), Hn, Hp. simpl.
  rewrite orb_true_r. reflexivity.
Qed.

Lemma removed_kept (line : string) :
  removedLine line = true -> keepLine line = true.
Proof.
  unfold removedLine, keepLine. intro H.
  apply andb_true_iff in H. destruct H as [Hp Hn].
  rewrite (minus_metadata line Hp), Hn, Hp. simpl.
  rewrite !orb_true_r. reflexivity.
Qed.

Lemma filter_through (f g : string -> bool) (ls : list string) :
  (forall s, f s = true -> g s = true) ->
  filter f (filter g ls) = filter f ls.
Proof.
  intro H. induction ls as [| s ls IH]; simpl; [reflexivity |].
  destruct (g s) eqn:E; simpl.
  - rewrite IH. reflexivity.
  - rewrite IH. destruct (f s) eqn:F; [| reflexivity].
    rewrite (H s F) in E. discriminate E.
Qed.

Lemma afterFirstHeader_kept (f : string -> bool) (ls : list string) :
  (forall s, f s = true -> keepLine s = true) ->
  filter f (afterFirstHeader (filter keepLine ls))
  = filter f (afterFirstHeader ls).
Proof.
  intro H. induction ls as [| s ls IH]; simpl; [reflexivity |].
  destruct (keepLine s) eqn:E; simpl.
  - destruct (isHeader s); [apply filter_through, H | exact IH].
  - destruct (isHeader s) eqn:Hh; [| exact IH].
    rewrite (header_kept s Hh) in E. discriminate E.
Qed.

Lemma headersOf_kept (ls : list string) :
  headersOf (filter keepLine ls) = headersOf ls.
Proof.
  unfold headersOf. induction ls as [| s ls IH]; simpl; [reflexivity |].
  destruct (keepLine s) eqn:E; simpl; [rewrite IH; reflexivity |].
  rewrite IH. destruct (chunkMatch s) as [[[[g1 g2] g3] g4] |] eqn:Hm;
    [| reflexivity].
  assert (Hh : isHeader s = true) by (unfold isHeader; rewrite Hm; reflexivity).
  rewrite (header_kept s Hh) in E. discriminate E.
Qed.

Lemma parseDiff_headers_aux (diff : string) :
  map header (parseDiff diff) = headersOf (split nl diff).
Proof.
  unfold parseDiff. destruct diff; [reflexivity |].
  rewrite run_headers. reflexivity.
Qed.

End SimplifyFacts.

Section SimplifyExtras.
Import JsString DiffParser DiffParserSpec DiffParserMore DiffParserMoreSpec
  Samples.

Example simplifyDiffForAnalysis_sample :
  simplifyDiffForAnalysis
    (join nl ["diff --git a/test.js b/test.js"; "@@ -1,3 +1,4 @@"; " line1";
              " "; "+added line"; "\ No newline at end of file"; " line3"])
  = join nl ["@@ -1,3 +1,4 @@"; " line1"; "+added line"; " line3"].
Proof. reflexivity. Qed.

(** X5. [simplifyDiffForAnalysis] is idempotent: simplifying a simplified
    text changes nothing. *)
Theorem simplifyDiffForAnalysis_idempotent :
  forall diff : string,
    simplifyDiffForAnalysis (simplifyDiffForAnalysis diff)
    = simplifyDiffForAnalysis diff.
Proof.
  intro diff.
  rewrite (simplify_kept (simplifyDiffForAnalysis diff)), simplify_lines.
  rewrite (simplify_kept diff).
  destruct (filter keepLine (split nl diff)) as [| x k] eqn:E; [reflexivity |].
  rewrite <- E, filter_idem. reflexivity.
Qed.

(** X6. Simplifying a diff loses no change: the simplified text parses to
    the same hunk headers, and [extractChangedLines] and [getDiffStats]
    give the same added and removed lines and the same counts as on the
    original text.  Only blank context lines and lines the parser ignores
    are gone. *)
Theorem simplifyDiffForAnalysis_keeps_changes :
  forall diff : string,
    map header (parseDiff (simplifyDiffForAnalysis diff))
    = map header (parseDiff diff) /\
    extractChangedLines (simplifyDiffForAnalysis diff)
    = extractChangedLines diff /\
    getDiffStats (simplifyDiffForAnalysis diff) = getDiffStats diff.
Proof.
  intro diff.
  assert (Hh : headersOf (split nl (simplifyDiffForAnalysis diff))
               = headersOf (split nl diff)).
  { rewrite simplify_lines.
    destruct (filter keepLine (split nl diff)) as [| x k] eqn:E.
    - rewrite <- (headersOf_kept (split nl diff)), E. reflexivity.
    - rewrite <- E. apply headersOf_kept. }
  assert (Hb : forall f, (forall s, f s = true -> keepLine s = true) ->
                 filter f (afterFirstHeader
                             (split nl (simplifyDiffForAnalysis diff)))
                 = filter f (afterFirstHeader (split nl diff))).
  { intros f Hf. rewrite simplify_lines.
    destruct (filter keepLine (split nl diff)) as [| x k] eqn:E.
    - rewrite <- (afterFirstHeader_kept f (split nl diff) Hf), E. reflexivity.
    - rewrite <- E. apply afterFirstHeader_kept, Hf. }
  assert (Hc : extractChangedLines (simplifyDiffForAnalysis diff)
               = extractChangedLines diff).
  { rewrite !changed_lines.
    rewrite (Hb addedLine added_kept), (Hb removedLine removed_kept).
    reflexivity. }
  split; [| split].
  - rewrite !parseDiff_headers_aux. exact Hh.
  - exact Hc.
  - assert (Hs : forall d, getDiffStats d
                   = (Z.of_nat (List.length (fst (extractChangedLines d))),
                      Z.of_nat (List.length (snd (extractChangedLines d))),
                      (Z.of_nat (List.length (fst (extractChangedLines d)))
                       + Z.of_nat (List.length (snd (extractChangedLines d))))%Z)).
    { intro d. unfold getDiffStats, extractChangedLines. simpl.
      rewrite !length_map. reflexivity. }
    rewrite (Hs (simplifyDiffForAnalysis diff)), (Hs diff), Hc. reflexivity.
Qed.

End SimplifyExtras.

(** ** The embedding store: cleanup, upsert and ids *)

Section StorageMoreFacts.
Import StorageAdapter StorageSpec StorageMore StorageMoreSpec.

Lemma filter_split_length {A : Type} (f : A -> bool) (l : list A) :
  (List.length (filter f l) + List.length (filter (fun x => negb (f x)) l)
   = List.length l)%nat.
Proof.
  induction l as [| x l IH]; simpl; [reflexivity |].
  destruct (f x); simpl; lia.
Qed.

Lemma filter_all {A : Type} (f : A -> bool) (l : list A) :
  List.length (filter f l) = List.length l -> filter f l = l.
Proof.
  induction l as [| x l IH]; simpl; intro H; [reflexivity |].
  pose proof (filter_split_length f l) as Hs.
  destruct (f x); simpl in H.
  - f_equal. apply IH. lia.
  - lia.
Qed.

Lemma notArray_loaded (d : Disk) : notArray d = true -> loaded d = [].
Proof.
  unfold notArray, loaded. destruct (found d); [discriminate | |]; reflexivity.
Qed.

(** What [cleanup] does, by cases on what the file holds, on what there
    is to remove and on whether the file can be written. *)
Lemma cleanup_cases (now : string) (cutoffDate : Z) (d : Disk) :
  let stale := filter (fun x => negb (newer cutoffDate x)) (loaded d) in
  (notArray d = true /\ cleanup now cutoffDate d = Rejected) \/
  (notArray d = false /\ stale = [] /\
   cleanup now cutoffDate d = Resolved (d, 0%Z)) \/
  (notArray d = false /\ stale <> [] /\ writable d = false /\
   cleanup now cutoffDate d = Rejected) \/
  (notArray d = false /\ stale <> [] /\ writable d = true /\
   exists d', cleanup now cutoffDate d
              = Resolved (d', Z.of_nat (List.length stale)) /\
              loaded d' = filter (newer cutoffDate) (loaded d)).
Proof.
  cbv zeta.
  destruct (loadEmbeddings_resolves now (file d)) as [old Hload].
  destruct (loadEmbeddings_found now d old Hload) as [He Hv].
  unfold cleanup, notArray, loaded. rewrite Hload. cbn [bind]. rewrite He.
  destruct (found d) as [l | s |];
    [| left; split; reflexivity | left; split; reflexivity].
  right. cbn [records]. cbv zeta.
  fold (newer cutoffDate).
  pose proof (filter_split_length (newer cutoffDate) l) as Hs.
  set (stale := filter (fun x => negb (newer cutoffDate x)) l) in *.
  replace (Z.of_nat (List.length l)
           - Z.of_nat (List.length (filter (newer cutoffDate) l)))%Z
    with (Z.of_nat (List.length stale)) by lia.
  destruct stale as [| s stale'] eqn:Est.
  - left. split; [reflexivity |]. split; reflexivity.
  - right.
    replace (0 <? Z.of_nat (List.length (s :: stale')))%Z with true
      by (symmetry; apply Z.ltb_lt; simpl; lia).
    unfold saveEmbeddings. destruct (writable d) eqn:Hw.
    + right. split; [reflexivity |]. split; [discriminate |].
      split; [reflexivity |].
      eexists. split; [reflexivity |].
      unfold found. cbn [file StoredEmbeddings.version
                         StoredEmbeddings.embeddings].
      rewrite Hv, String.eqb_refl. reflexivity.
    + left. split; [reflexivity |]. split; [discriminate |].
      split; reflexivity.
Qed.

End StorageMoreFacts.

Section StorageMoreExtras.
Import StorageAdapter StorageSpec StorageMore StorageMoreSpec DeduplicatorMore.

(** X7. A [cleanup] that returns leaves exactly the records created after
    the cut-off, in their order, and returns the number of the others; it
    writes nothing when there is nothing to remove, and then succeeds even
    if the file cannot be written.  It fails when a record is to be
    removed and the file cannot be written, and when what the file holds
    under [embeddings] is not an array; on an array of records, or on
    nothing usable, it returns in every other case. *)
Theorem cleanup_removes_stale :
  forall (now : string) (cutoffDate : Z) (d : Disk),
    let stale := filter (fun x => negb (newer cutoffDate x)) (loaded d) in
    (forall d' k,
        cleanup now cutoffDate d = Resolved (d', k) ->
        loaded d' = filter (newer cutoffDate) (loaded d) /\
        k = Z.of_nat (List.length stale) /\
        (stale = [] -> d' = d)) /\
    ((stale <> [] /\ writable d = false) \/ notArray d = true ->
     cleanup now cutoffDate d = Rejected) /\
    (forall l, found d = Records l -> stale = [] \/ writable d = true ->
               exists d' k, cleanup now cutoffDate d = Resolved (d', k)).
Proof.
  intros now cutoffDate d stale.
  pose proof (filter_split_length (newer cutoffDate) (loaded d)) as Hs.
  fold stale in Hs.
  destruct (cleanup_cases now cutoffDate d)
    as [[Hn H] | [(Hn & E & H) | [(Hn & E & Hw & H)
                                 | (Hn & E & Hw & d1 & H & Hl)]]];
    try fold stale in E; try fold stale in H; rewrite H.
  - split; [intros d' k H'; discriminate H' |].
    split; [reflexivity |].
    intros l Hl _. unfold notArray in Hn. rewrite Hl in Hn. discriminate Hn.
  - split; [| split].
    + intros d' k H'. injection H' as <- <-. rewrite E.
      split; [| split; [reflexivity | reflexivity]].
      rewrite E in Hs. simpl in Hs. symmetry. apply filter_all. lia.
    + intros [[Hne _] | Hn']; [contradiction | congruence].
    + intros l _ _. eexists. eexists. reflexivity.
  - split; [discriminate |]. split; [reflexivity |].
    intros l _ [He | Ht]; [contradiction | congruence].
  - split; [| split].
    + intros d' k H'. injection H' as <- <-.
      split; [exact Hl |]. split; [reflexivity | contradiction].
    + intros [[_ Hf] | Hn']; congruence.
    + intros l _ _. eexists. eexists. reflexivity.
Qed.

Lemma cleanup_removes_stale_witness :
  cleanup "2024-02-02T00:00:00.000Z" 200 sampleDisk
  = Resolved (oneRecordDisk' , 1%Z) /\
  loaded oneRecordDisk' = [sampleRecord "pr:7" 7 300].
Proof.
  assert (H : cleanup "2024-02-02T00:00:00.000Z" 200 sampleDisk
              = Resolved (oneRecordDisk', 1%Z)) by reflexivity.
  split; [exact H |].
  exact (proj1 (proj1 (cleanup_removes_stale "2024-02-02T00:00:00.000Z" 200
                         sampleDisk) _ _ H)).
Defined.

(** X8. [cleanupOldEmbeddings] never fails.  When the file can be written
    it removes the records not created after the cut-off and returns their
    number; when it cannot, it returns 0 and leaves the disk as it was,
    whether or not such records exist. *)
Theorem cleanupOldEmbeddings_result :
  forall (now : string) (cutoffDate : Z) (d : Disk),
    let stale := filter (fun x => negb (newer cutoffDate x)) (loaded d) in
    (writable d = true ->
     loaded (fst (cleanupOldEmbeddings now cutoffDate d))
     = filter (newer cutoffDate) (loaded d) /\
     snd (cleanupOldEmbeddings now cutoffDate d)
     = Z.of_nat (List.length stale)) /\
    (writable d = false ->
     cleanupOldEmbeddings now cutoffDate d = (d, 0%Z)).
Proof.
  intros now cutoffDate d stale. unfold cleanupOldEmbeddings.
  pose proof (filter_split_length (newer cutoffDate) (loaded d)) as Hs.
  fold stale in Hs.
  destruct (cleanup_cases now cutoffDate d)
    as [[Hn H] | [(Hn & E & H) | [(Hn & E & Hw & H)
                                 | (Hn & E & Hw & d1 & H & Hl)]]];
    try fold stale in E; try fold stale in H; rewrite H; cbn [fst snd].
  - split; [| reflexivity]. intros _.
    unfold stale. rewrite (notArray_loaded d Hn). split; reflexivity.
  - split; [| reflexivity]. intros _. rewrite E. split; [| reflexivity].
    rewrite E in Hs. simpl in Hs. symmetry. apply filter_all. lia.
  - split; [congruence | reflexivity].
  - split; [intros _; split; [exact Hl | reflexivity] | congruence].
Qed.

Lemma cleanupOldEmbeddings_result_witness :
  writable (unwritable sampleDisk) = false /\
  cleanupOldEmbeddings "2024-02-02T00:00:00.000Z" 200 (unwritable sampleDisk)
  = (unwritable sampleDisk, 0%Z) /\
  loaded (unwritable sampleDisk)
  = [sampleRecord "pr:7" 7 300; sampleRecord "pr:5" 5 100].
Proof.
  assert (H : writable (unwritable sampleDisk) = false) by reflexivity.
  split; [exact H |]. split; [| reflexivity].
  exact (proj2 (cleanupOldEmbeddings_result "2024-02-02T00:00:00.000Z" 200
                  (unwritable sampleDisk)) H).
Defined.

(** X9. Below the cap an upsert loses nothing: when the collection holds
    fewer than 1000 records of other ids, the collection afterwards is the
    new record together with all of them, so the new record is found
    again and every other record is still there. *)
Theorem addEmbedding_below_cap :
  forall (now : string) (d d' : Disk) (e : EmbeddingData.t),
    addEmbedding now d e = Resolved d' ->
    (List.length (filter (otherId e) (loaded d)) < 1000)%nat ->
    Permutation (loaded d') (filter (otherId e) (loaded d) ++ [e]) /\
    In e (loaded d') /\
    (forall x, In x (loaded d) ->
               EmbeddingData.id x <> EmbeddingData.id e -> In x (loaded d')).
Proof.
  intros now d d' e H Hlen.
  rewrite (addEmbedding_loaded now d d' e H).
  assert (Hp : Permutation (addEmbedding_records (loaded d) e)
                 (filter (otherId e) (loaded d) ++ [e])).
  { unfold addEmbedding_records. fold (otherId e).
    set (s := sortNewestFirst (filter (otherId e) (loaded d) ++ [e])).
    assert (Hs : List.length s
                 = S (List.length (filter (otherId e) (loaded d)))).
    { unfold s. rewrite (Permutation_length (sortNewestFirst_perm _)).
      rewrite length_app. simpl. lia. }
    replace (MAX_EMBEDDINGS <? List.length s)%nat with false
      by (symmetry; apply Nat.ltb_ge; unfold MAX_EMBEDDINGS; lia).
    apply sortNewestFirst_perm. }
  split; [exact Hp |]. split.
  - apply (Permutation_in _ (Permutation_sym Hp)).
    apply in_or_app. right. left. reflexivity.
  - intros x Hx Hid. apply (Permutation_in _ (Permutation_sym Hp)).
    apply in_or_app. left. apply filter_In. split; [exact Hx |].
    unfold otherId. apply negb_true_iff, String.eqb_neq, Hid.
Qed.

Lemma addEmbedding_below_cap_witness :
  addEmbedding "2024-02-02T00:00:00.000Z" oneRecordDisk
    (sampleRecord "pr:5" 5 400) = Resolved twoRecordsDisk /\
  In (sampleRecord "pr:5" 5 400) (loaded twoRecordsDisk) /\
  In (sampleRecord "pr:7" 7 300) (loaded twoRecordsDisk).
Proof.
  assert (H : addEmbedding "2024-02-02T00:00:00.000Z" oneRecordDisk
                (sampleRecord "pr:5" 5 400) = Resolved twoRecordsDisk)
    by reflexivity.
  assert (Hl : (List.length (filter (otherId (sampleRecord "pr:5" 5 400))
                               (loaded oneRecordDisk)) < 1000)%nat)
    by (simpl; lia).
  destruct (addEmbedding_below_cap _ _ _ _ H Hl) as (_ & H1 & H2).
  split; [exact H |]. split; [exact H1 |].
  apply H2; [left; reflexivity | discriminate].
Defined.

(** X10. The id of a record determines its kind and number: two ids made
    by [createEmbeddingId] are equal only for the same kind and the same
    number, and the id is the key under which the engine merges
    candidates. *)
Theorem createEmbeddingId_injective :
  forall (t1 t2 : ItemType) (n1 n2 : Z),
    (createEmbeddingId t1 n1 = createEmbeddingId t2 n2 ->
     t1 = t2 /\ n1 = n2) /\
    createEmbeddingId t1 n1 = Deduplicator.keyOf t1 n1.
Proof.
  intros t1 t2 n1 n2. split; [| reflexivity].
  apply keyOf_inj.
Qed.

Lemma createEmbeddingId_injective_witness :
  createEmbeddingId pr 12 = "pr:12" /\
  createEmbeddingId pr 12 = createEmbeddingId pr (10 + 2) /\
  pr = pr /\ (12 = 10 + 2)%Z.
Proof.
  assert (H : createEmbeddingId pr 12 = createEmbeddingId pr (10 + 2))
    by reflexivity.
  split; [reflexivity |]. split; [exact H |].
  exact (proj1 (createEmbeddingId_injective pr pr 12 (10 + 2)) H).
Defined.

End StorageMoreExtras.

(** ** The embedding store: similarity search *)

Section CosineFacts.
Import StorageAdapter StorageSpec StorageMore StorageMoreSpec.

Variable sqrt : Q -> Q.

Lemma Qmult_comm_eq (x y : Q) : (x * y)%Q = (y * x)%Q.
Proof.
  unfold Qmult. f_equal; [apply Z.mul_comm | apply Pos.mul_comm].
Qed.

Lemma accumulate_swap (a b : list Q) (dot ma mb : Q) :
  accumulate b a (dot, mb, ma)
  = let '(dot', ma', mb') := accumulate a b (dot, ma, mb) in (dot', mb', ma').
Proof.
  revert b dot ma mb. induction a as [| x a IH]; intros b dot ma mb.
  - destruct b; reflexivity.
  - destruct b as [| y b]; [reflexivity |].
    simpl. rewrite (Qmult_comm_eq (orZero y) (orZero x)). apply IH.
Qed.

Lemma cosine_symmetric (a b : list Q) :
  calculateCosineSimilarity sqrt a b = calculateCosineSimilarity sqrt b a.
Proof.
  unfold calculateCosineSimilarity.
  rewrite (Nat.eqb_sym (List.length b) (List.length a)).
  destruct (negb (List.length a =? List.length b)%nat); [reflexivity |].
  rewrite (accumulate_swap a b 0 0 0).
  destruct (accumulate a b (0%Q, 0%Q, 0%Q)) as [[dot ma] mb].
  rewrite (Qmult_comm_eq (sqrt mb) (sqrt ma)). reflexivity.
Qed.

Lemma cosine_rejected (a b : list Q) :
  calculateCosineSimilarity sqrt a b = Rejected
  <-> List.length a <> List.length b.
Proof.
  unfold calculateCosineSimilarity.
  destruct (Nat.eqb_spec (List.length a) (List.length b)) as [E | E]; simpl.
  - destruct (accumulate a b (0%Q, 0%Q, 0%Q)) as [[dot ma] mb].
    split; [discriminate | contradiction].
  - split; [intros _; exact E | reflexivity].
Qed.

Lemma cosine_resolved (a b : list Q) :
  List.length a = List.length b ->
  exists s, calculateCosineSimilarity sqrt a b = Resolved s.
Proof.
  intro E. destruct (calculateCosineSimilarity sqrt a b) as [s |] eqn:H.
  - exists s. reflexivity.
  - apply cosine_rejected in H. contradiction.
Qed.

Lemma orZero_zero (x : Q) : (x == 0)%Q -> orZero x = 0%Q.
Proof.
  intro H. unfold orZero. apply Qeq_bool_iff in H. rewrite H. reflexivity.
Qed.

Lemma accumulate_zero (a b : list Q) (dot mb : Q) :
  Forall (fun x => (x == 0)%Q) a ->
  snd (fst (accumulate a b (dot, 0%Q, mb))) = 0%Q.
Proof.
  revert b dot mb. induction a as [| x a IH]; intros b dot mb H.
  - destruct b; reflexivity.
  - destruct b as [| y b]; [reflexivity |].
    inversion H as [| ? ? Hx Ha]; subst.
    simpl. rewrite (orZero_zero x Hx).
    change (0 + 0 * 0)%Q with 0%Q. apply IH, Ha.
Qed.

Lemma cosine_zero (a b : list Q) :
  (sqrt 0 == 0)%Q ->
  List.length a = List.length b ->
  Forall (fun x => (x == 0)%Q) a ->
  calculateCosineSimilarity sqrt a b = Resolved 0%Q.
Proof.
  intros H0 E Hz. unfold calculateCosineSimilarity.
  apply Nat.eqb_eq in E. rewrite E. simpl.
  pose proof (accumulate_zero a b 0 0 Hz) as Hm.
  destruct (accumulate a b (0%Q, 0%Q, 0%Q)) as [[dot ma] mb].
  simpl in Hm. subst ma.
  assert (Hq : Qeq_bool (sqrt 0 * sqrt mb) 0 = true).
  { apply Qeq_bool_iff. rewrite H0. apply Qmult_0_l. }
  rewrite Hq. reflexivity.
Qed.

(** What the loop over the records yields. *)
Lemma scoreAll_resolved (q : list Q) (th : Q) (embs : list EmbeddingData.t)
    (acc sims : list ScoredEmbedding.t) :
  scoreAll sqrt q th embs acc = Resolved sims ->
  exists found,
    sims = acc ++ found /\
    (forall x, In x found ->
       In (ScoredEmbedding.data x) embs /\
       calculateCosineSimilarity sqrt q
         (EmbeddingData.embedding (ScoredEmbedding.data x))
       = Resolved (ScoredEmbedding.similarity x) /\
       (th <= ScoredEmbedding.similarity x)%Q) /\
    (forall e s, In e embs ->
       calculateCosineSimilarity sqrt q (EmbeddingData.embedding e)
       = Resolved s ->
       (th <= s)%Q -> In (ScoredEmbedding.mk e s) found).
Proof.
  revert acc. induction embs as [| e embs IH]; intros acc H; simpl in H.
  - injection H as <-. exists []. split; [symmetry; apply app_nil_r |].
    split; [intros x [] | intros e s []].
  - destruct (calculateCosineSimilarity sqrt q (EmbeddingData.embedding e))
      as [s |] eqn:Hc; [| discriminate H].
    simpl in H. destruct (IH _ H) as (found & -> & Hin & Hall).
    destruct (Qle_bool th s) eqn:Hth.
    + exists (ScoredEmbedding.mk e s :: found).
      split; [rewrite <- app_assoc; reflexivity |]. split.
      * intros x [<- | Hx].
        -- simpl. split; [left; reflexivity |].
           split; [exact Hc | apply Qle_bool_iff, Hth].
        -- destruct (Hin x Hx) as (H1 & H2 & H3).
           split; [right; exact H1 | split; assumption].
      * intros e' s' [<- | He'] Hc' Hs'.
        -- rewrite Hc in Hc'. injection Hc' as <-. left. reflexivity.
        -- right. apply (Hall e' s' He' Hc' Hs').
    + exists found. split; [reflexivity |]. split.
      * intros x Hx. destruct (Hin x Hx) as (H1 & H2 & H3).
        split; [right; exact H1 | split; assumption].
      * intros e' s' [<- | He'] Hc' Hs'.
        -- rewrite Hc in Hc'. injection Hc' as <-.
           apply Qle_bool_iff in Hs'. congruence.
        -- apply (Hall e' s' He' Hc' Hs').
Qed.

Lemma scoreAll_rejected (q : list Q) (th : Q) (embs : list EmbeddingData.t)
    (acc : list ScoredEmbedding.t) :
  scoreAll sqrt q th embs acc = Rejected <->
  exists e, In e embs /\
            List.length (EmbeddingData.embedding e) <> List.length q.
Proof.
  revert acc. induction embs as [| e embs IH]; intro acc; simpl.
  - split; [discriminate | intros (e & [] & _)].
  - destruct (calculateCosineSimilarity sqrt q (EmbeddingData.embedding e))
      as [s |] eqn:Hc; simpl.
    + rewrite IH. split.
      * intros (e' & He' & Hl). exists e'. split; [right; exact He' | exact Hl].
      * intros (e' & [<- | He'] & Hl).
        -- exfalso. destruct (cosine_rejected q (EmbeddingData.embedding e))
             as [_ Hr]. rewrite Hr in Hc; [discriminate Hc |].
           intro E. apply Hl. symmetry. exact E.
        -- exists e'. split; assumption.
    + split; [| reflexivity]. intros _. exists e.
      split; [left; reflexivity |].
      apply cosine_rejected in Hc. intro E. apply Hc. symmetry. exact E.
Qed.

Lemma byScore_perm (l : list ScoredEmbedding.t) :
  Permutation (JsArray.sort (fun a b => Qle_bool (byScore a b) 0) l) l.
Proof. apply sort_perm. Qed.

Lemma byScore_sorted (l : list ScoredEmbedding.t) :
  StronglySorted rankedScore
    (JsArray.sort (fun a b => Qle_bool (byScore a b) 0) l).
Proof.
  apply sort_sorted; unfold rankedScore, byScore.
  - intros a b H. apply Qle_bool_iff in H. lra.
  - intros a b H.
    assert (H' : ~ (ScoredEmbedding.similarity b
                    - ScoredEmbedding.similarity a <= 0)%Q)
      by (rewrite <- Qle_bool_iff, H; discriminate).
    apply Qnot_le_lt in H'. lra.
  - intros a b c H1 H2. lra.
Qed.

(** X11. [calculateCosineSimilarity] is symmetric in its two vectors, fails
    exactly when their lengths differ, and is 0, without dividing, when
    one of two vectors of the same length is all zeros (for a square root
    that is 0 at 0). *)
Theorem calculateCosineSimilarity_facts :
  forall a b : list Q,
    calculateCosineSimilarity sqrt a b = calculateCosineSimilarity sqrt b a /\
    (calculateCosineSimilarity sqrt a b = Rejected
     <-> List.length a <> List.length b) /\
    ((sqrt 0 == 0)%Q -> List.length a = List.length b ->
     Forall (fun x => (x == 0)%Q) a ->
     calculateCosineSimilarity sqrt a b = Resolved 0%Q /\
     calculateCosineSimilarity sqrt b a = Resolved 0%Q).
Proof.
  intros a b. split; [apply cosine_symmetric |].
  split; [apply cosine_rejected |].
  intros H0 E Hz.
  assert (H : calculateCosineSimilarity sqrt a b = Resolved 0%Q)
    by (apply cosine_zero; assumption).
  split; [exact H | rewrite <- cosine_symmetric; exact H].
Qed.

(** X12. A similarity search that returns gives records of the store, each
    with its cosine similarity to the query; all reach the threshold, they
    are sorted by similarity, highest first, and are at most [limit]; a
    stored record that reaches the threshold is either returned or
    crowded out by [limit] records that score at least as high.  The
    search fails when a stored vector has another length than the query,
    and when what the file holds under [embeddings] is a value that
    cannot be iterated or a string that is not empty; on an array of
    records whose vectors all have the length of the query it
    returns. *)
Theorem findSimilarEmbeddings_result :
  forall (now : string) (d : Disk) (q : list Q) (th : Q) (limit : nat),
    (forall r,
        findSimilarEmbeddings sqrt now d q th limit = Resolved r ->
        Forall (fun x => (th <= ScoredEmbedding.similarity x)%Q) r /\
        StronglySorted rankedScore r /\
        (List.length r <= limit)%nat /\
        (forall x, In x r ->
           In (ScoredEmbedding.data x) (loaded d) /\
           calculateCosineSimilarity sqrt q
             (EmbeddingData.embedding (ScoredEmbedding.data x))
           = Resolved (ScoredEmbedding.similarity x)) /\
        (forall e s, In e (loaded d) ->
           calculateCosineSimilarity sqrt q (EmbeddingData.embedding e)
           = Resolved s ->
           (th <= s)%Q ->
           In (ScoredEmbedding.mk e s) r \/
           (List.length r = limit /\
            forall y, In y r -> (s <= ScoredEmbedding.similarity y)%Q))) /\
    ((exists e, In e (loaded d) /\
                List.length (EmbeddingData.embedding e) <> List.length q) \/
     found d = Other \/
     (exists s, found d = Text s /\ s <> EmptyString) ->
     findSimilarEmbeddings sqrt now d q th limit = Rejected) /\
    (forall l, found d = Records l ->
       (forall e, In e l ->
                  List.length (EmbeddingData.embedding e) = List.length q) ->
       exists r, findSimilarEmbeddings sqrt now d q th limit = Resolved r).
Proof.
  intros now d q th limit.
  destruct (loadEmbeddings_resolves now (file d)) as [old Hload].
  destruct (loadEmbeddings_found now d old Hload) as [He _].
  unfold findSimilarEmbeddings, loaded. rewrite Hload. cbn [bind]. rewrite He.
  destruct (found d) as [l | s |] eqn:F; cbn [records].
  - split; [| split].
    + intros r H.
      destruct (scoreAll sqrt q th l []) as [sims |] eqn:Hs;
        [| discriminate H].
      cbn [bind] in H. injection H as <-.
      destruct (scoreAll_resolved _ _ _ _ _ Hs) as (fnd & Hf & Hin & Hall).
      simpl in Hf. subst fnd. unfold JsArray.slice0.
      set (sorted := JsArray.sort (fun a b => Qle_bool (byScore a b) 0) sims).
      assert (Hp : Permutation sorted sims) by apply byScore_perm.
      assert (Hsorted : StronglySorted rankedScore sorted)
        by apply byScore_sorted.
      split; [| split; [| split; [| split]]].
      * apply Forall_forall. intros x Hx. apply In_firstn in Hx.
        apply (Permutation_in _ Hp) in Hx. apply (Hin x Hx).
      * apply StronglySorted_firstn, Hsorted.
      * apply firstn_le_length.
      * intros x Hx. apply In_firstn in Hx.
        apply (Permutation_in _ Hp) in Hx.
        destruct (Hin x Hx) as (H1 & H2 & _). split; assumption.
      * intros e s Hein Hc Hth.
        pose proof (Hall e s Hein Hc Hth) as Hm.
        apply (Permutation_in _ (Permutation_sym Hp)) in Hm.
        rewrite <- (firstn_skipn limit sorted) in Hm, Hsorted.
        apply in_app_or in Hm. destruct Hm as [Hm | Hm]; [left; exact Hm |].
        right. split.
        -- rewrite length_firstn. apply Nat.min_l.
           destruct (Nat.le_gt_cases limit (List.length sorted))
             as [Hle | Hgt]; [exact Hle |].
           rewrite skipn_all2 in Hm by lia. destruct Hm.
        -- intros y Hy.
           exact (StronglySorted_app_inv rankedScore _ _ Hsorted y _ Hy Hm).
    + intros [H | [H | (s & H & _)]]; try discriminate H.
      apply (scoreAll_rejected q th l []) in H. rewrite H. reflexivity.
    + intros l' Hl' Hlen. injection Hl' as <-.
      destruct (scoreAll sqrt q th l []) as [sims |] eqn:Hs; cbn [bind].
      * eexists. reflexivity.
      * apply (scoreAll_rejected q th l []) in Hs.
        destruct Hs as (e & He' & Hne). contradiction (Hne (Hlen e He')).
  - destruct s as [| c s]; cbn [JsString.truthy bind].
    + split; [| split].
      * intros r H. unfold JsArray.slice0 in H. simpl in H.
        rewrite firstn_nil in H. injection H as <-.
        split; [constructor |]. split; [constructor |].
        split; [simpl; lia |].
        split; [intros x [] | intros e s [] ].
      * intros [(e & [] & _) | [H | (s & H & Hne)]]; [discriminate H |].
        injection H as <-. contradiction Hne. reflexivity.
      * intros l H. discriminate H.
    + split; [intros r H; discriminate H |].
      split; [reflexivity | intros l H; discriminate H].
  - split; [intros r H; discriminate H |].
    split; [reflexivity | intros l H; discriminate H].
Qed.

End CosineFacts.

Section CosineWitnesses.
Import StorageAdapter StorageSpec StorageMore StorageMoreSpec.

Example cosine_sample :
  calculateCosineSimilarity sqrtFloor [3; 4] [3; 4] = Resolved (25 / (5 * 5)).
Proof. reflexivity. Qed.

Lemma calculateCosineSimilarity_facts_witness :
  (sqrtFloor 0 == 0)%Q /\
  calculateCosineSimilarity sqrtFloor [0; 0] [3; 4] = Resolved 0%Q /\
  calculateCosineSimilarity sqrtFloor [3; 4] [0; 0] = Resolved 0%Q.
Proof.
  assert (H0 : (sqrtFloor 0 == 0)%Q) by reflexivity.
  split; [exact H0 |].
  apply (proj2 (proj2 (calculateCosineSimilarity_facts sqrtFloor
                         [0; 0] [3; 4])) H0 eq_refl).
  constructor; [reflexivity |]. constructor; [reflexivity | constructor].
Defined.

Lemma findSimilarEmbeddings_result_witness :
  findSimilarEmbeddings sqrtFloor "2024-02-02T00:00:00.000Z" vectorDisk
    [3; 4] (1 # 2) 20
  = Resolved [ScoredEmbedding.mk (vectorRecord "pr:7" 7 [3; 4]) (25 / (5 * 5))]
  /\ (1 # 2 <= 25 / (5 * 5))%Q.
Proof.
  assert (H : findSimilarEmbeddings sqrtFloor "2024-02-02T00:00:00.000Z"
                vectorDisk [3; 4] (1 # 2) 20
              = Resolved [ScoredEmbedding.mk (vectorRecord "pr:7" 7 [3; 4])
                            (25 / (5 * 5))]) by reflexivity.
  split; [exact H |].
  pose proof (proj1 (proj1 (findSimilarEmbeddings_result sqrtFloor _ _ _ _ _)
                       _ H)) as Hf.
  inversion Hf; subst. assumption.
Defined.

End CosineWitnesses.

(** ** The embedding store: statistics *)

Section StringOrderFacts.


Lemma leb_refl (a : string) : String.leb a a = true.
Proof. destruct (String.leb_total a a); assumption. Qed.



End StringOrderFacts.

Section StatsFacts.
Import JsString StorageAdapter StorageSpec StorageMore StorageMoreSpec.








Section Texts.
Variable text : EmbeddingData.t -> string.









End Texts.

End StatsFacts.

Section StatsExtras.
Import JsString StorageAdapter StorageSpec StorageMore StorageMoreSpec.

Example getStats_sample :
  getStats sampleText "2024-02-02T00:00:00.000Z" sampleDisk
  = Resolved (mkStats 2 (Some "1970-01-01T00:00:00.100Z")
                (Some "1970-01-01T00:00:00.300Z") [("pr", 2%Z)]).
Proof. reflexivity. Qed.

Example getStats_on_a_string :
  getStats sampleText "2024-02-02T00:00:00.000Z" (textDisk "abc")
  = Resolved (mkStats 3 None None [("undefined", 3%Z)]).
Proof. reflexivity. Qed.

(** the strings are compared, not the instants: a text with an offset can
    sort before a text that denotes an earlier instant *)
Example lessThan_is_textual :
  lessThan (Some "2024-01-01T01:00:00+02:00") (Some "2024-01-01T00:30:00Z")
  = false /\
  lessThan (Some "2024-01-01T00:30:00Z") (Some "2024-01-01T01:00:00+02:00")
  = true.
Proof. split; reflexivity. Qed.


End StatsExtras.

(** ** The two text similarities *)

Section OverlapFacts.
Import JsString Deduplicator.

Lemma add_In (s : list string) (x y : string) :
  In x (add s y) <-> In x s \/ x = y.
Proof.
  unfold add. destruct (has s y) eqn:E.
  - split; [intro H; left; exact H |].
    intros [H | ->]; [exact H | apply has_In, E].
  - rewrite in_app_iff. simpl. split.
    + intros [H | [H | []]]; [left; exact H | right; symmetry; exact H].
    + intros [H | ->]; [left; exact H | right; left; reflexivity].
Qed.

Lemma fold_add_In (l acc : list string) (x : string) :
  In x (fold_left add l acc) <-> In x acc \/ In x l.
Proof.
  revert acc. induction l as [| y l IH]; intro acc; simpl.
  - split; [intro H; left; exact H | intros [H | []]; exact H].
  - rewrite IH, add_In. split.
    + intros [[H | ->] | H]; [left; exact H | right; left; reflexivity
                             | right; right; exact H].
    + intros [H | [<- | H]]; [left; left; exact H | left; right; reflexivity
                             | right; exact H].
Qed.

Lemma newSet_In (l : list string) (x : string) : In x (newSet l) <-> In x l.
Proof.
  unfold newSet. rewrite fold_add_In. simpl. tauto.
Qed.

Lemma intersection_In (w1 w2 : list string) (x : string) :
  In x (newSet (filter (has w2) w1)) <-> In x w1 /\ In x w2.
Proof.
  rewrite newSet_In, filter_In, has_In. reflexivity.
Qed.

Lemma union_In (w1 w2 : list string) (x : string) :
  In x (newSet (w1 ++ w2)) <-> In x w1 \/ In x w2.
Proof.
  rewrite newSet_In, in_app_iff. reflexivity.
Qed.

Lemma intersection_le_union (w1 w2 : list string) :
  (List.length (newSet (filter (has w2) w1))
   <= List.length (newSet (w1 ++ w2)))%nat.
Proof.
  apply NoDup_incl_length; [apply newSet_NoDup |].
  intros x H. apply intersection_In in H. apply union_In. left. apply H.
Qed.

Lemma intersection_comm (w1 w2 : list string) :
  List.length (newSet (filter (has w2) w1))
  = List.length (newSet (filter (has w1) w2)).
Proof.
  apply Permutation_length, NoDup_Permutation; try apply newSet_NoDup.
  intro x. rewrite !intersection_In. tauto.
Qed.

Lemma union_comm (w1 w2 : list string) :
  List.length (newSet (w1 ++ w2)) = List.length (newSet (w2 ++ w1)).
Proof.
  apply Permutation_length, NoDup_Permutation; try apply newSet_NoDup.
  intro x. rewrite !union_In. tauto.
Qed.

Lemma ratio_range (a b : nat) :
  (a <= b)%nat -> (0 <= ratio a b)%Q /\ (ratio a b <= 1)%Q.
Proof.
  intro H. unfold ratio.
  destruct b as [| b].
  - replace a with 0%nat by lia. split; vm_compute; discriminate.
  - assert (Hb : (0 < inject_Z (Z.of_nat (S b)))%Q).
    { change 0%Q with (inject_Z 0). rewrite <- Zlt_Qlt. lia. }
    split.
    + apply Qle_shift_div_l; [exact Hb |].
      rewrite Qmult_0_l. change 0%Q with (inject_Z 0).
      rewrite <- Zle_Qle. lia.
    + apply Qle_shift_div_r; [exact Hb |].
      rewrite Qmult_1_l. rewrite <- Zle_Qle. lia.
Qed.

Lemma jaccard_range (w1 w2 : list string) :
  let j := if (0 <? List.length (newSet (w1 ++ w2)))%nat
           then ratio (List.length (newSet (filter (has w2) w1)))
                  (List.length (newSet (w1 ++ w2)))
           else 0%Q in
  (0 <= j)%Q /\ (j <= 1)%Q.
Proof.
  cbv zeta. destruct (0 <? List.length (newSet (w1 ++ w2)))%nat.
  - apply ratio_range, intersection_le_union.
  - split; vm_compute; discriminate.
Qed.

Lemma scan_bound (shorter longer : string) (j m : nat) :
  (scan shorter longer j m <= m + String.length shorter)%nat.
Proof.
  revert j m. induction shorter as [| c rest IH]; intros j m; simpl; [lia |].
  destruct (j <? String.length longer)%nat; [| lia].
  destruct (indexOf longer c j) as [found |].
  - specialize (IH (S found) (S m)). lia.
  - specialize (IH j m). lia.
Qed.

Lemma calculateCharacterSimilarity_range (text1 text2 : string) :
  (0 <= calculateCharacterSimilarity text1 text2)%Q /\
  (calculateCharacterSimilarity text1 text2 <= 1)%Q.
Proof.
  unfold calculateCharacterSimilarity.
  set (shorter := if (String.length text1 <? String.length text2)%nat
                  then text1 else text2).
  set (longer := if (String.length text2 <=? String.length text1)%nat
                 then text1 else text2).
  assert (H : (String.length shorter <= String.length longer)%nat).
  { unfold shorter, longer.
    destruct (Nat.ltb_spec (String.length text1) (String.length text2));
      destruct (Nat.leb_spec (String.length text2) (String.length text1)); lia. }
  destruct (String.length shorter =? 0)%nat.
  - split; vm_compute; discriminate.
  - apply ratio_range.
    pose proof (scan_bound shorter longer 0 0). lia.
Qed.

End OverlapFacts.

Section OverlapExtras.
Import JsString Deduplicator.

(** X14. The text similarity of the engine is a number between 0 and 1,
    and so is its character part. *)
Theorem calculateTextSimilarity_range :
  forall text1 text2 : string,
    (0 <= calculateTextSimilarity text1 text2
     /\ calculateTextSimilarity text1 text2 <= 1)%Q /\
    (0 <= calculateCharacterSimilarity text1 text2
     /\ calculateCharacterSimilarity text1 text2 <= 1)%Q.
Proof.
  intros text1 text2. split; [| apply calculateCharacterSimilarity_range].
  unfold calculateTextSimilarity.
  destruct (negb (truthy (normalize text1)) || negb (truthy (normalize text2))).
  - split; vm_compute; discriminate.
  - pose proof (jaccard_range
                  (newSet (split " " (normalize text1)))
                  (newSet (split " " (normalize text2)))) as Hj.
    pose proof (calculateCharacterSimilarity_range
                  (normalize text1) (normalize text2)) as Hc.
    cbv zeta in Hj |- *. lra.
Qed.

(** X15. The word overlap that scores the results of the text search is
    symmetric, lies between 0 and 1, and is 1 for a title against
    itself. *)
Theorem calculateSimilarity_facts :
  forall text1 text2 : string,
    GitHubAdapter.calculateSimilarity text1 text2
    = GitHubAdapter.calculateSimilarity text2 text1 /\
    (0 <= GitHubAdapter.calculateSimilarity text1 text2)%Q /\
    (GitHubAdapter.calculateSimilarity text1 text2 <= 1)%Q /\
    (GitHubAdapter.calculateSimilarity text1 text1 == 1)%Q.
Proof.
  intros text1 text2. unfold GitHubAdapter.calculateSimilarity.
  set (w1 := newSet (GitHubAdapter.splitWhitespace (toLowerCase text1))).
  set (w2 := newSet (GitHubAdapter.splitWhitespace (toLowerCase text2))).
  split; [| split; [| split]].
  - rewrite (intersection_comm w1 w2), (union_comm w1 w2). reflexivity.
  - apply (jaccard_range w1 w2).
  - apply (jaccard_range w1 w2).
  - assert (Hw : NoDup w1) by apply newSet_NoDup.
    destruct (newSet_self w1 Hw) as [-> ->].
    assert (Hlen : (0 < List.length w1)%nat)
      by (apply newSet_nonempty, split_nonempty).
    replace (0 <? List.length w1)%nat with true
      by (symmetry; apply Nat.ltb_lt; exact Hlen).
    apply ratio_self, Hlen.
Qed.

End OverlapExtras.

(** ** The engine: the merged candidates *)

Section MergeFacts.
Import JsString Deduplicator DeduplicatorSpec.

Lemma keys_set_In (m : ItemMap) (k : string) (v : SimilarItem.t)
    (k' : string) :
  In k' (map fst (set m k v)) <-> In k' (map fst m) \/ k' = k.
Proof.
  induction m as [| [k0 w] m IH]; simpl.
  - split.
    + intros [H | []]. right. symmetry. exact H.
    + intros [[] | ->]. left. reflexivity.
  - destruct (String.eqb_spec k0 k) as [-> | Hk]; simpl.
    + split; [intro H; left; exact H |].
      intros [H | ->]; [exact H | left; reflexivity].
    + rewrite IH. tauto.
Qed.

Lemma keys_addVector (cur : Z) (m : ItemMap) (x : ScoredEmbedding.t)
    (k : string) :
  In k (map fst (addVector cur m x)) <->
  In k (map fst m) \/
  (isCurrentPR (ScoredEmbedding.type x) (ScoredEmbedding.number x) cur = false
   /\ k = keyOf (ScoredEmbedding.type x) (ScoredEmbedding.number x)).
Proof.
  unfold addVector.
  destruct (isCurrentPR (ScoredEmbedding.type x) (ScoredEmbedding.number x)
              cur).
  - split; [intro H; left; exact H |].
    intros [H | [H _]]; [exact H | discriminate H].
  - rewrite keys_set_In. split.
    + intros [H | H]; [left; exact H | right; split; [reflexivity | exact H]].
    + intros [H | [_ H]]; [left; exact H | right; exact H].
Qed.

Lemma keys_addText (cur : Z) (m : ItemMap) (x : SimilarItem.t) (k : string) :
  In k (map fst (addText cur m x)) <->
  In k (map fst m) \/
  (isCurrentPR (SimilarItem.type x) (SimilarItem.number x) cur = false
   /\ k = keyOf (SimilarItem.type x) (SimilarItem.number x)).
Proof.
  unfold addText.
  destruct (isCurrentPR (SimilarItem.type x) (SimilarItem.number x) cur).
  - split; [intro H; left; exact H |].
    intros [H | [H _]]; [exact H | discriminate H].
  - destruct (get m (keyOf (SimilarItem.type x) (SimilarItem.number x)));
      rewrite keys_set_In; split;
      try (intros [H | H];
           [left; exact H | right; split; [reflexivity | exact H]]);
      intros [H | [_ H]]; [left; exact H | right; exact H
                          | left; exact H | right; exact H].
Qed.

Lemma keys_vectors (cur : Z) (vec : list ScoredEmbedding.t) (m : ItemMap)
    (k : string) :
  In k (map fst (fold_left (addVector cur) vec m)) <->
  In k (map fst m) \/
  exists x, In x vec /\
    isCurrentPR (ScoredEmbedding.type x) (ScoredEmbedding.number x) cur = false
    /\ k = keyOf (ScoredEmbedding.type x) (ScoredEmbedding.number x).
Proof.
  revert m. induction vec as [| a vec IH]; intro m; simpl.
  - split; [intro H; left; exact H |].
    intros [H | (x & [] & _)]. exact H.
  - rewrite IH, keys_addVector. split.
    + intros [[H | H] | (x & Hx & H)].
      * left. exact H.
      * right. exists a. split; [left; reflexivity | exact H].
      * right. exists x. split; [right; exact Hx | exact H].
    + intros [H | (x & [<- | Hx] & H)].
      * left. left. exact H.
      * left. right. exact H.
      * right. exists x. split; assumption.
Qed.

Lemma keys_texts (cur : Z) (txt : list SimilarItem.t) (m : ItemMap)
    (k : string) :
  In k (map fst (fold_left (addText cur) txt m)) <->
  In k (map fst m) \/
  exists x, In x txt /\
    isCurrentPR (SimilarItem.type x) (SimilarItem.number x) cur = false
    /\ k = keyOf (SimilarItem.type x) (SimilarItem.number x).
Proof.
  revert m. induction txt as [| a txt IH]; intro m; simpl.
  - split; [intro H; left; exact H |].
    intros [H | (x & [] & _)]. exact H.
  - rewrite IH, keys_addText. split.
    + intros [[H | H] | (x & Hx & H)].
      * left. exact H.
      * right. exists a. split; [left; reflexivity | exact H].
      * right. exists x. split; [right; exact Hx | exact H].
    + intros [H | (x & [<- | Hx] & H)].
      * left. left. exact H.
      * left. right. exact H.
      * right. exists x. split; assumption.
Qed.

Lemma combineAndRank_In (vec : list ScoredEmbedding.t)
    (txt : list SimilarItem.t) (cur : Z) (x : SimilarItem.t) :
  In x (combineAndRankSimilarItems vec txt cur) <->
  exists k, In (k, x) (combined vec txt cur).
Proof.
  unfold combineAndRankSimilarItems. split.
  - intro H. apply (Permutation_in _ (sortBySimilarity_perm _)) in H.
    unfold values in H. apply in_map_iff in H.
    destruct H as ([k v] & <- & H). exists k. exact H.
  - intros [k H].
    apply (Permutation_in _ (Permutation_sym (sortBySimilarity_perm _))).
    unfold values. apply in_map_iff. exists (k, x). split; [reflexivity | exact H].
Qed.

Lemma Math_max_cases (a b : Q) : Math_max a b = a \/ Math_max a b = b.
Proof. unfold Math_max. destruct (Qle_bool a b); [right | left]; reflexivity. Qed.

Lemma merge_bounds (lo hi : Q) (existing item : SimilarItem.t) :
  (lo <= SimilarItem.similarity existing)%Q ->
  (SimilarItem.similarity existing <= hi)%Q ->
  (lo <= SimilarItem.similarity item)%Q ->
  (SimilarItem.similarity item <= hi)%Q ->
  (lo <= SimilarItem.similarity (merge existing item))%Q /\
  (SimilarItem.similarity (merge existing item) <= hi)%Q.
Proof.
  intros H1 H2 H3 H4. cbn [merge SimilarItem.similarity].
  destruct (Math_max_cases (SimilarItem.similarity existing)
              (SimilarItem.similarity existing * (7 # 10)
               + SimilarItem.similarity item * (3 # 10))) as [-> | ->].
  - split; assumption.
  - split; lra.
Qed.

Lemma combined_bounds (lo hi : Q) (vec : list ScoredEmbedding.t)
    (txt : list SimilarItem.t) (cur : Z) :
  Forall (fun v => (lo <= ScoredEmbedding.similarity v)%Q
                   /\ (ScoredEmbedding.similarity v <= hi)%Q) vec ->
  Forall (fun i => (lo <= SimilarItem.similarity i)%Q
                   /\ (SimilarItem.similarity i <= hi)%Q) txt ->
  forall k v, In (k, v) (combined vec txt cur) ->
              (lo <= SimilarItem.similarity v)%Q
              /\ (SimilarItem.similarity v <= hi)%Q.
Proof.
  intros Hv Ht. unfold combined.
  set (P := fun m : ItemMap =>
              forall k v, In (k, v) m ->
                (lo <= SimilarItem.similarity v)%Q
                /\ (SimilarItem.similarity v <= hi)%Q).
  assert (H0 : P []) by (intros ? ? []).
  assert (H1 : forall m, P m -> P (fold_left (addVector cur) vec m)).
  { induction Hv as [| x vec' Hx Hv IH]; intros m Hm; simpl; [exact Hm |].
    apply IH. unfold addVector.
    destruct (isCurrentPR (ScoredEmbedding.type x) (ScoredEmbedding.number x)
                cur); [exact Hm |].
    intros k v H. apply In_set in H. destruct H as [H | H].
    - injection H as _ ->. exact Hx.
    - exact (Hm _ _ H). }
  assert (H2 : forall m, P m -> P (fold_left (addText cur) txt m)).
  { induction Ht as [| x txt' Hx Ht IH]; intros m Hm; simpl; [exact Hm |].
    apply IH. unfold addText.
    destruct (isCurrentPR (SimilarItem.type x) (SimilarItem.number x) cur);
      [exact Hm |].
    destruct (get m (keyOf (SimilarItem.type x) (SimilarItem.number x)))
      as [existing |] eqn:G;
      intros k v H; apply In_set in H; destruct H as [H | H];
      try exact (Hm _ _ H); injection H as _ ->.
    - destruct (Hm _ _ (get_In _ _ _ G)) as [E1 E2].
      destruct Hx as [X1 X2]. apply merge_bounds; assumption.
    - exact Hx. }
  exact (H2 _ (H1 _ H0)).
Qed.

Lemma firstn_sorted_complete {A : Type} (R : A -> A -> Prop) (k : nat)
    (l : list A) (x : A) :
  StronglySorted R l -> In x l ->
  In x (firstn k l) \/
  (List.length (firstn k l) = k /\ forall y, In y (firstn k l) -> R y x).
Proof.
  intros Hs Hx. rewrite <- (firstn_skipn k l) in Hx, Hs.
  apply in_app_or in Hx. destruct Hx as [Hx | Hx]; [left; exact Hx |].
  right. split.
  - rewrite length_firstn. apply Nat.min_l.
    destruct (Nat.le_gt_cases k (List.length l)) as [Hle | Hgt]; [exact Hle |].
    rewrite skipn_all2 in Hx by lia. destruct Hx.
  - intros y Hy. exact (StronglySorted_app_inv R _ _ Hs y x Hy Hx).
Qed.

End MergeFacts.

Section MergeExtras.
Import JsString Deduplicator DeduplicatorSpec.

(** X16. The merged list holds every identity at most once, and holds an
    identity exactly when it is not the current pull request and one of
    the two searches returned it. *)
Theorem combineAndRankSimilarItems_identities :
  forall (vec : list ScoredEmbedding.t) (txt : list SimilarItem.t) (cur : Z),
    NoDup (map (fun x => (SimilarItem.type x, SimilarItem.number x))
             (combineAndRankSimilarItems vec txt cur)) /\
    forall (t : ItemType) (n : Z),
      (exists x, In x (combineAndRankSimilarItems vec txt cur) /\
                 SimilarItem.type x = t /\ SimilarItem.number x = n) <->
      (isCurrentPR t n cur = false /\
       ((exists v, In v vec /\ ScoredEmbedding.type v = t /\
                   ScoredEmbedding.number v = n) \/
        (exists i, In i txt /\ SimilarItem.type i = t /\
                   SimilarItem.number i = n))).
Proof.
  intros vec txt cur.
  destruct (wellKeyed_combined vec txt cur) as [Hnd Hk].
  split.
  - unfold combineAndRankSimilarItems.
    apply (Permutation_NoDup
             (Permutation_map _ (Permutation_sym (sortBySimilarity_perm _)))).
    apply (NoDup_map_inv (fun p => keyOf (fst p) (snd p))).
    unfold values. rewrite !map_map.
    replace (map (fun x => keyOf (fst (SimilarItem.type (snd x),
                                       SimilarItem.number (snd x)))
                             (snd (SimilarItem.type (snd x),
                                   SimilarItem.number (snd x))))
               (combined vec txt cur))
      with (map fst (combined vec txt cur)); [exact Hnd |].
    apply map_ext_in. intros [k v] H. simpl. apply Hk, H.
  - intros t n.
    assert (K : (exists x, In x (combineAndRankSimilarItems vec txt cur) /\
                           SimilarItem.type x = t /\ SimilarItem.number x = n)
                <-> In (keyOf t n) (map fst (combined vec txt cur))).
    { split.
      - intros (x & Hx & <- & <-). apply combineAndRank_In in Hx.
        destruct Hx as [k Hx]. rewrite <- (Hk _ _ Hx).
        apply in_map_iff. exists (k, x). split; [reflexivity | exact Hx].
      - intro H. apply in_map_iff in H. destruct H as ([k v] & E & H).
        simpl in E. subst k. pose proof (Hk _ _ H) as E.
        apply keyOf_inj in E. destruct E as [-> ->].
        exists v. split; [| split; reflexivity].
        apply combineAndRank_In. eexists. exact H. }
    rewrite K. unfold combined. rewrite keys_texts, keys_vectors. simpl.
    split.
    + intros [[[] | (x & Hx & Hc & E)] | (x & Hx & Hc & E)];
        apply keyOf_inj in E; destruct E as [-> ->];
        (split; [exact Hc |]).
      * left. exists x. repeat split. exact Hx.
      * right. exists x. repeat split. exact Hx.
    + intros [Hc [(x & Hx & <- & <-) | (x & Hx & <- & <-)]].
      * left. right. exists x. repeat split; assumption.
      * right. exists x. repeat split; assumption.
Qed.

(** X17. Merging never leaves the range of the scores it is given: when
    every score of the two searches lies between [lo] and [hi], so does
    every score of the merged list. *)
Theorem combineAndRankSimilarItems_bounds :
  forall (vec : list ScoredEmbedding.t) (txt : list SimilarItem.t) (cur : Z)
         (lo hi : Q),
    Forall (fun v => (lo <= ScoredEmbedding.similarity v)%Q
                     /\ (ScoredEmbedding.similarity v <= hi)%Q) vec ->
    Forall (fun i => (lo <= SimilarItem.similarity i)%Q
                     /\ (SimilarItem.similarity i <= hi)%Q) txt ->
    Forall (fun x => (lo <= SimilarItem.similarity x)%Q
                     /\ (SimilarItem.similarity x <= hi)%Q)
      (combineAndRankSimilarItems vec txt cur).
Proof.
  intros vec txt cur lo hi Hv Ht. apply Forall_forall. intros x Hx.
  apply combineAndRank_In in Hx. destruct Hx as [k Hx].
  exact (combined_bounds lo hi vec txt cur Hv Ht k x Hx).
Qed.

Lemma combineAndRankSimilarItems_bounds_witness :
  Forall (fun x => (0 <= SimilarItem.similarity x)%Q
                   /\ (SimilarItem.similarity x <= 1)%Q)
    (combineAndRankSimilarItems
       [scored pr 120 (85 # 100); scored issue 7 (95 # 100)]
       [item pr 120 (75 # 100)] 123).
Proof.
  apply combineAndRankSimilarItems_bounds.
  - repeat constructor; vm_compute; discriminate.
  - repeat constructor; vm_compute; discriminate.
Defined.

(** X18. When the embedding service, the store and the two searches all
    answer, the verdict lists merged candidates only; a merged candidate
    that reaches the threshold is listed, unless ten candidates that score
    at least as high are; [isDuplicate] holds exactly when some merged
    candidate reaches both 0.9 and the threshold; and the threshold is
    handed back. *)
Theorem findDuplicates_main_path :
  forall (w : Adapters) (th : Q) (now : Z) (context : PRContext.t)
         (e : list Q) (vec : list ScoredEmbedding.t)
         (txt : list SimilarItem.t),
    generateEmbedding w = Resolved e ->
    addEmbedding w = Resolved tt ->
    findSimilarEmbeddings w = Resolved vec ->
    findSimilarPRsAndIssues w = Resolved txt ->
    let r := findDuplicates w th now context in
    let merged :=
      combineAndRankSimilarItems vec txt (PRContext.number context) in
    (forall x, In x (DeduplicationResult.similarItems r) ->
               In x merged /\ (th <= SimilarItem.similarity x)%Q) /\
    (forall x, In x merged -> (th <= SimilarItem.similarity x)%Q ->
       In x (DeduplicationResult.similarItems r) \/
       (List.length (DeduplicationResult.similarItems r) = 10%nat /\
        forall y, In y (DeduplicationResult.similarItems r) ->
                  (SimilarItem.similarity x <= SimilarItem.similarity y)%Q)) /\
    (DeduplicationResult.isDuplicate r = true <->
     exists x, In x merged /\ (9 # 10 <= SimilarItem.similarity x)%Q
               /\ (th <= SimilarItem.similarity x)%Q) /\
    DeduplicationResult.duplicateThreshold r = th.
Proof.
  intros w th now context e vec txt Hg Ha Hv Ht r merged.
  assert (Hr : r = {| DeduplicationResult.similarItems :=
                        firstn 10 (filter (aboveThreshold th) merged);
                      DeduplicationResult.isDuplicate :=
                        verdict (firstn 10 (filter (aboveThreshold th) merged));
                      DeduplicationResult.duplicateThreshold := th |}).
  { unfold r, findDuplicates, findDuplicates_try, createPREmbedding.
    rewrite Hg. cbn [bind]. rewrite Ha. cbn [bind]. rewrite Hv. cbn [bind].
    rewrite Ht. cbn [bind]. reflexivity. }
  rewrite Hr.
  cbn [DeduplicationResult.similarItems DeduplicationResult.isDuplicate
       DeduplicationResult.duplicateThreshold].
  set (L := filter (aboveThreshold th) merged).
  assert (HL : forall x, In x L <->
                         In x merged /\ (th <= SimilarItem.similarity x)%Q).
  { intro x. unfold L. rewrite filter_In. unfold aboveThreshold.
    rewrite Qle_bool_iff. reflexivity. }
  assert (Hs : StronglySorted ranked L).
  { unfold L, merged, combineAndRankSimilarItems.
    apply StronglySorted_filter, sortBySimilarity_sorted. }
  split; [| split; [| split; [| reflexivity]]].
  - intros x Hx. apply HL. apply In_firstn in Hx. exact Hx.
  - intros x Hx Hth.
    apply (firstn_sorted_complete ranked 10 L x Hs).
    apply HL. split; assumption.
  - rewrite verdict_spec. split.
    + intros (top & rest & E & H9). exists top.
      assert (Hin : In top L).
      { apply (In_firstn 10). rewrite E. left. reflexivity. }
      apply HL in Hin. destruct Hin as [H1 H2].
      split; [exact H1 | split; [exact H9 | exact H2]].
    + intros (x & Hx & H9 & Hth).
      assert (Hin : In x L) by (apply HL; split; assumption).
      destruct L as [| top rest]; [destruct Hin |].
      exists top, (firstn 9 rest). split; [reflexivity |].
      apply StronglySorted_inv in Hs. destruct Hs as [_ Hf].
      destruct Hin as [<- | Hin]; [exact H9 |].
      rewrite Forall_forall in Hf. specialize (Hf x Hin).
      unfold ranked in Hf. lra.
Qed.

Lemma findDuplicates_main_path_witness :
  let r := findDuplicates
             (allUp [scored pr 120 (85 # 100); scored issue 7 (95 # 100)] [])
             (8 # 10) 0 pr123 in
  DeduplicationResult.isDuplicate r = true /\
  DeduplicationResult.duplicateThreshold r = 8 # 10.
Proof.
  destruct (findDuplicates_main_path
              (allUp [scored pr 120 (85 # 100); scored issue 7 (95 # 100)] [])
              (8 # 10) 0%Z pr123 []
              [scored pr 120 (85 # 100); scored issue 7 (95 # 100)] []
              eq_refl eq_refl eq_refl eq_refl)
    as (_ & _ & H & Hth).
  split; [| exact Hth].
  apply H. exists (fromVector (scored issue 7 (95 # 100))).
  split; [vm_compute; auto |].
  split; vm_compute; discriminate.
Defined.

End MergeExtras.

(** ** The text search of the GitHub adapter, and the engine wired to it *)

Section TextSearchFacts.
Import JsString Deduplicator DeduplicatorSpec GitHubAdapter.

Lemma github_similarity_range (text1 text2 : string) :
  (0 <= calculateSimilarity text1 text2)%Q /\
  (calculateSimilarity text1 text2 <= 1)%Q.
Proof.
  unfold calculateSimilarity.
  apply (jaccard_range (newSet (splitWhitespace (toLowerCase text1)))
           (newSet (splitWhitespace (toLowerCase text2)))).
Qed.

(** What the [try] block pushes, before the sort. *)
Lemma pushed_facts (payload : option Z) (title0 : string)
    (prs iss : list SearchItem) (x : SimilarItem.t) :
  In x (map (fromPR title0) (filter (notPayload payload) prs)
        ++ map (fromIssue title0) iss) ->
  ((0 <= SimilarItem.similarity x)%Q /\ (SimilarItem.similarity x <= 1)%Q) /\
  (forall n, payload = Some n ->
             ~ (SimilarItem.type x = pr /\ SimilarItem.number x = n)).
Proof.
  intro H. apply in_app_or in H. destruct H as [H | H];
    apply in_map_iff in H; destruct H as (i & <- & Hi).
  - split; [apply github_similarity_range |].
    intros n -> [_ E]. apply filter_In in Hi. destruct Hi as [_ Hi].
    simpl in E, Hi. rewrite E, Z.eqb_refl in Hi. discriminate Hi.
  - split; [apply github_similarity_range |].
    intros n _ [E _]. discriminate E.
Qed.

Lemma findSimilarPRsAndIssues_cases (payload : option Z) (title0 : string)
    (body : option string) (prSearch issueSearch : Outcome (list SearchItem)) :
  (exists prs iss,
      prSearch = Resolved prs /\ issueSearch = Resolved iss /\
      findSimilarPRsAndIssues payload title0 body prSearch issueSearch
      = Resolved
          (sortBySimilarity
             (map (fromPR title0) (filter (notPayload payload) prs)
              ++ map (fromIssue title0) iss))) \/
  ((prSearch = Rejected \/ issueSearch = Rejected) /\
   findSimilarPRsAndIssues payload title0 body prSearch issueSearch
   = Resolved []).
Proof.
  unfold findSimilarPRsAndIssues, findSimilarPRsAndIssues_try, tryCatch.
  destruct prSearch as [prs |]; cbn [bind].
  - destruct issueSearch as [iss |]; cbn [bind].
    + left. exists prs, iss. repeat split.
    + right. split; [right; reflexivity | reflexivity].
  - right. split; [left; reflexivity | reflexivity].
Qed.

Lemma findSimilarPRsAndIssues_facts (payload : option Z) (title0 : string)
    (body : option string) (prSearch issueSearch : Outcome (list SearchItem)) :
  exists r,
    findSimilarPRsAndIssues payload title0 body prSearch issueSearch
    = Resolved r /\
    StronglySorted ranked r /\
    (forall x, In x r ->
       ((0 <= SimilarItem.similarity x)%Q /\ (SimilarItem.similarity x <= 1)%Q)
       /\ forall n, payload = Some n ->
                    ~ (SimilarItem.type x = pr /\ SimilarItem.number x = n)).
Proof.
  destruct (findSimilarPRsAndIssues_cases payload title0 body prSearch
              issueSearch) as [(prs & iss & _ & _ & ->) | [_ ->]].
  - eexists. split; [reflexivity |].
    split; [apply sortBySimilarity_sorted |].
    intros x Hx. apply (Permutation_in _ (sortBySimilarity_perm _)) in Hx.
    exact (pushed_facts payload title0 prs iss x Hx).
  - exists []. split; [reflexivity |]. split; [constructor | intros x []].
Qed.

Lemma verdict_sorted (l : list SimilarItem.t) :
  StronglySorted ranked l ->
  (verdict l = true <->
   exists x, In x l /\ (9 # 10 <= SimilarItem.similarity x)%Q).
Proof.
  intro Hs. rewrite verdict_spec. split.
  - intros (top & rest & -> & H). exists top. split; [left; reflexivity | exact H].
  - intros (x & Hx & H). destruct l as [| top rest]; [destruct Hx |].
    exists top, rest. split; [reflexivity |].
    apply StronglySorted_inv in Hs. destruct Hs as [_ Hf].
    destruct Hx as [<- | Hx]; [exact H |].
    rewrite Forall_forall in Hf. specialize (Hf x Hx).
    unfold ranked in Hf. lra.
Qed.

End TextSearchFacts.

Section TextSearchExtras.
Import JsString Deduplicator DeduplicatorSpec GitHubAdapter.

(** X19. The text search of the adapter never fails.  When both calls of
    the search API answer, it returns the pull requests found, without the
    one of the payload, and the issues found, each scored between 0 and 1
    against the title, sorted by score, highest first; when one of the
    calls fails it returns no candidate at all, also those of the call
    that answered. *)
Theorem findSimilarPRsAndIssues_result :
  forall (payload : option Z) (title0 : string) (body : option string)
         (prSearch issueSearch : Outcome (list SearchItem)),
  exists r,
    findSimilarPRsAndIssues payload title0 body prSearch issueSearch
    = Resolved r /\
    StronglySorted ranked r /\
    (forall x, In x r ->
       (0 <= SimilarItem.similarity x)%Q /\ (SimilarItem.similarity x <= 1)%Q) /\
    (forall n x, payload = Some n -> In x r ->
                 ~ (SimilarItem.type x = pr /\ SimilarItem.number x = n)) /\
    (forall prs iss,
        prSearch = Resolved prs -> issueSearch = Resolved iss ->
        Permutation r
          (map (fromPR title0) (filter (notPayload payload) prs)
           ++ map (fromIssue title0) iss)) /\
    (prSearch = Rejected \/ issueSearch = Rejected -> r = []).
Proof.
  intros payload title0 body prSearch issueSearch.
  destruct (findSimilarPRsAndIssues_facts payload title0 body prSearch
              issueSearch) as (r & Hr & Hs & Hx).
  exists r. split; [exact Hr |]. split; [exact Hs |].
  split; [intros x H; apply (Hx x H) |].
  split; [intros n x Hp H; exact (proj2 (Hx x H) n Hp) |].
  destruct (findSimilarPRsAndIssues_cases payload title0 body prSearch
              issueSearch) as [(prs & iss & Hp & Hi & E) | [Hrej E]];
    rewrite E in Hr; injection Hr as <-.
  - split.
    + intros prs' iss' Hp' Hi'. rewrite Hp in Hp'. rewrite Hi in Hi'.
      injection Hp' as <-. injection Hi' as <-. apply sortBySimilarity_perm.
    + intros [H | H]; [rewrite Hp in H | rewrite Hi in H]; discriminate H.
  - split; [| reflexivity].
    intros prs iss Hp Hi. destruct Hrej as [H | H];
      [rewrite Hp in H | rewrite Hi in H]; discriminate H.
Qed.

Lemma findSimilarPRsAndIssues_result_witness :
  findSimilarPRsAndIssues (Some 123%Z) "API rate limiting" None
    (Resolved [searchHit 123 "API rate limiting"; searchHit 120 "rate limiting"])
    (Resolved [searchHit 7 "API docs"])
  = Resolved [fromPR "API rate limiting" (searchHit 120 "rate limiting");
              fromIssue "API rate limiting" (searchHit 7 "API docs")]
  /\ ~ (SimilarItem.type (fromPR "API rate limiting"
                             (searchHit 120 "rate limiting")) = pr /\
        SimilarItem.number (fromPR "API rate limiting"
                              (searchHit 120 "rate limiting")) = 123%Z).
Proof.
  destruct (findSimilarPRsAndIssues_result (Some 123%Z) "API rate limiting"
              None
              (Resolved [searchHit 123 "API rate limiting";
                         searchHit 120 "rate limiting"])
              (Resolved [searchHit 7 "API docs"]))
    as (r & Hr & _ & _ & Hn & _ & _).
  assert (E : findSimilarPRsAndIssues (Some 123%Z) "API rate limiting" None
                (Resolved [searchHit 123 "API rate limiting";
                           searchHit 120 "rate limiting"])
                (Resolved [searchHit 7 "API docs"])
              = Resolved [fromPR "API rate limiting"
                            (searchHit 120 "rate limiting");
                          fromIssue "API rate limiting"
                            (searchHit 7 "API docs")])
    by (vm_compute; reflexivity).
  split; [exact E |].
  apply (Hn 123%Z _ eq_refl).
  rewrite E in Hr. injection Hr as <-. left. reflexivity.
Defined.

(** X20. The engine wired to this adapter, for the pull request of the
    payload: whatever the embedding service, the store and the search API
    do, on the main path and on the fallback alike, the verdict does not
    hold the pull request itself, its candidates reach the threshold, are
    sorted by similarity, highest first, and are at most 10, and
    [isDuplicate] holds exactly when a listed candidate scores 0.9 or
    more. *)
Theorem findDuplicates_wired :
  forall (context : PRContext.t)
         (generateEmbedding : Outcome (list Q)) (addEmbedding : Outcome unit)
         (findSimilarEmbeddings : Outcome (list ScoredEmbedding.t))
         (first again : Outcome (list SearchItem) * Outcome (list SearchItem))
         (th : Q) (now : Z),
    let r := findDuplicates
               (wired (Some (PRContext.number context)) context
                  generateEmbedding addEmbedding findSimilarEmbeddings
                  first again)
               th now context in
    (forall x, In x (DeduplicationResult.similarItems r) ->
               ~ isSelf context x) /\
    Forall (fun x => (th <= SimilarItem.similarity x)%Q)
      (DeduplicationResult.similarItems r) /\
    StronglySorted ranked (DeduplicationResult.similarItems r) /\
    (List.length (DeduplicationResult.similarItems r) <= 10)%nat /\
    (DeduplicationResult.isDuplicate r = true <->
     exists x, In x (DeduplicationResult.similarItems r) /\
               (9 # 10 <= SimilarItem.similarity x)%Q).
Proof.
  intros context gen add fse first again th now r.
  set (w := wired (Some (PRContext.number context)) context gen add fse
              first again) in *.
  unfold r, findDuplicates.
  destruct (findDuplicates_try w th now context) as [r' |] eqn:T.
  - destruct (findDuplicates_try_ranked w th now context r' T)
      as (H1 & H2 & H3 & H4 & H5).
    split; [exact H1 |]. split; [exact H2 |]. split; [exact H3 |].
    split; [exact H4 |]. rewrite H5. apply verdict_sorted, H3.
  - destruct (findDuplicates_fallback_facts w th) as (H2 & H4 & H5 & H3).
    destruct (findSimilarPRsAndIssues_facts (Some (PRContext.number context))
                (PRContext.title context) (PRContext.body context)
                (fst again) (snd again)) as (txt & Htxt & Hs & Hx).
    assert (Hagain : findSimilarPRsAndIssues_again w = Resolved txt)
      by exact Htxt.
    specialize (H3 txt Hagain Hs).
    split; [| split; [exact H2 | split; [exact H3 | split; [lia |]]]].
    + intros x Hin. unfold findDuplicates_fallback in Hin.
      rewrite Hagain in Hin.
      cbn [DeduplicationResult.similarItems] in Hin.
      apply In_firstn in Hin. apply filter_In in Hin.
      unfold isSelf. exact (proj2 (Hx x (proj1 Hin)) _ eq_refl).
    + rewrite H5. apply verdict_sorted, H3.
Qed.

Example findDuplicates_wired_fallback_sample :
  let r := findDuplicates
             (wired (Some 123%Z) pr123 Rejected (Resolved tt) (Resolved [])
                (Rejected, Rejected)
                (Resolved [searchHit 123 "Add rate limiting to API endpoints";
                           searchHit 120 "Add rate limiting to API"],
                 Resolved []))
             (1 # 2) 0 pr123 in
  map SimilarItem.number (DeduplicationResult.similarItems r) = [120%Z] /\
  DeduplicationResult.isDuplicate r = false.
Proof. vm_compute. split; reflexivity. Qed.

End TextSearchExtras.

(** ** The report of function changes *)

Section FunctionChangesFacts.
Import JsString DiffParser FunctionChangesSpec.






(** Without a signature on a changed line, a hunk adds nothing. *)
Lemma lines_without_signature (language : option string) (ls : list DiffLine)
    (changes : list string) :
  (forall l, In l ls -> type l <> context ->
             detectFunctionDefinition (content l) language = None) ->
  fold_left (functionStep language) ls (changes, "") = (changes, "").
Proof.
  induction ls as [| l ls IH]; intro H; cbn [fold_left]; [reflexivity |].
  assert (E : functionStep language (changes, "") l = (changes, "")).
  { unfold functionStep.
    destruct (LineType_eqb (type l) context) eqn:T; [reflexivity |].
    cbn [negb]. rewrite (H l); [reflexivity | left; reflexivity |].
    intro E. rewrite E in T. discriminate T. }
  rewrite E. apply IH. intros l' Hl'. apply H. right. exact Hl'.
Qed.

End FunctionChangesFacts.

Section FunctionChangesExtras.
Import JsString DiffParser FunctionChangesSpec.

Example extractFunctionChanges_addedFunction :
  extractFunctionChanges addedFunction None
  = ["Added function: greet"; "Added to greet: return name;"].
Proof. vm_compute. reflexivity. Qed.


(** X22. When no changed line of the diff carries a signature that
    [detectFunctionDefinition] recognises, nothing is reported, whatever
    the diff changes. *)
Theorem extractFunctionChanges_needs_signature :
  forall (diff : string) (language : option string),
    (forall c l, In c (parseDiff diff) -> In l (lines c) ->
                 type l <> context ->
                 detectFunctionDefinition (content l) language = None) ->
    extractFunctionChanges diff language = [].
Proof.
  intros diff language H. unfold extractFunctionChanges.
  assert (E : forall cs changes,
             (forall c, In c cs -> In c (parseDiff diff)) ->
             fold_left (chunkStep language) cs changes = changes).
  { induction cs as [| c cs IH]; intros changes Hcs; cbn [fold_left];
      [reflexivity |].
    assert (Ec : chunkStep language changes c = changes).
    { unfold chunkStep. rewrite lines_without_signature; [reflexivity |].
      intros l Hl Ht. apply (H c l); [| exact Hl | exact Ht].
      apply Hcs. left. reflexivity. }
    rewrite Ec. apply IH. intros c' Hc'. apply Hcs. right. exact Hc'. }
  rewrite E; [reflexivity | auto].
Qed.

Lemma extractFunctionChanges_needs_signature_witness :
  getDiffStats plainChange = (1%Z, 1%Z, 2%Z) /\
  extractFunctionChanges plainChange (Some "python") = [].
Proof.
  split; [vm_compute; reflexivity |].
  apply extractFunctionChanges_needs_signature.
  intros c l Hc Hl Ht. vm_compute in Hc.
  destruct Hc as [<- | []].
  cbn [lines] in Hl.
  destruct Hl as [<- | [<- | [<- | []]]].
  - contradiction Ht. reflexivity.
  - vm_compute. reflexivity.
  - vm_compute. reflexivity.
Defined.

End FunctionChangesExtras.

(** ** Saving and loading; the statistics of the engine *)

Section RoundTripExtras.
Import StorageAdapter StorageSpec StorageMore StorageMoreSpec DeduplicatorStats.

(** X23. What [saveEmbeddings] writes is what the next [loadEmbeddings]
    returns, stamped with the time of the write, provided its version is
    the current one; a collection of another version is written but read
    back as empty.  On a file that cannot be written the save fails. *)
Theorem saveEmbeddings_loadEmbeddings :
  forall (now later : string) (d : Disk) (e : StoredEmbeddings.t),
    (writable d = false -> saveEmbeddings now d e = Rejected) /\
    (writable d = true ->
     exists d',
       saveEmbeddings now d e = Resolved d' /\
       writable d' = true /\
       loadEmbeddings later (file d')
       = Resolved
           (if String.eqb (StoredEmbeddings.version e) EMBEDDING_VERSION
            then {| StoredEmbeddings.version := StoredEmbeddings.version e;
                    StoredEmbeddings.embeddings :=
                      StoredEmbeddings.embeddings e;
                    StoredEmbeddings.lastUpdated := now |}
            else createEmptyEmbeddings later)).
Proof.
  intros now later d e. unfold saveEmbeddings. split; intro Hw; rewrite Hw.
  - reflexivity.
  - eexists. split; [reflexivity |]. split; [reflexivity |].
    cbn [file]. unfold loadEmbeddings, tryCatch, loadEmbeddings_try.
    destruct (String.eqb (StoredEmbeddings.version e) EMBEDDING_VERSION);
      reflexivity.
Qed.

Lemma saveEmbeddings_loadEmbeddings_witness :
  writable freshDisk = true /\
  exists d',
    saveEmbeddings "2024-02-02T00:00:00.000Z" freshDisk
      (StoredEmbeddings.mk "1.0" (Records [sampleRecord "pr:7" 7 300]) "")
    = Resolved d' /\
    loadEmbeddings "2024-03-03T00:00:00.000Z" (file d')
    = Resolved (StoredEmbeddings.mk "1.0" (Records [sampleRecord "pr:7" 7 300])
                  "2024-02-02T00:00:00.000Z").
Proof.
  assert (Hw : writable freshDisk = true) by reflexivity.
  split; [exact Hw |].
  destruct (proj2 (saveEmbeddings_loadEmbeddings "2024-02-02T00:00:00.000Z"
                     "2024-03-03T00:00:00.000Z" freshDisk
                     (StoredEmbeddings.mk "1.0"
                        (Records [sampleRecord "pr:7" 7 300]) ""))
              Hw) as (d' & H1 & _ & H2).
  exists d'. split; [exact H1 | exact H2].
Defined.



Example getDeduplicationStats_sample :
  getDeduplicationStats sampleText "2024-02-02T00:00:00.000Z" sampleDisk
  = mkDeduplicationStats 2 10 0 "1970-01-01T00:00:00.300Z".
Proof. reflexivity. Qed.

End RoundTripExtras.

(** ** The normal form of a text *)

Section NormalizeFacts.
Import JsString Deduplicator NormalizeSpec.

Ltac each_char c :=
  destruct c as [[|] [|] [|] [|] [|] [|] [|] [|]]; vm_compute;
  try reflexivity; try discriminate.

Lemma replaced_kept (c : ascii) :
  kept (if isWord (lowerChar c) || isSpace (lowerChar c)
        then lowerChar c else " "%char) = true.
Proof. each_char c. Qed.

Lemma plain_lower (c : ascii) : plain c = true -> lowerChar c = c.
Proof. each_char c. Qed.

Lemma plain_word_or_space (c : ascii) :
  plain c = true -> isWord c || isSpace c = true.
Proof. each_char c. Qed.

Lemma plain_space (c : ascii) :
  plain c = true -> isSpace c = Ascii.eqb c " "%char.
Proof. each_char c. Qed.

Lemma kept_plain (c : ascii) :
  kept c = true -> isSpace c = false -> plain c = true.
Proof. each_char c. Qed.

Lemma space_isSpace (c : ascii) :
  isSpace c = false -> Ascii.eqb c " "%char = false.
Proof. each_char c. Qed.

Lemma replacePunctuation_kept (s : string) :
  allChars kept (replacePunctuation (toLowerCase s)) = true.
Proof.
  induction s as [| c r IH]; [reflexivity |].
  cbn [toLowerCase replacePunctuation allChars].
  rewrite replaced_kept, IH. reflexivity.
Qed.

Lemma collapseFrom_plain (b : bool) (s : string) :
  allChars kept s = true -> allChars plain (collapseFrom b s) = true.
Proof.
  revert b. induction s as [| c r IH]; intros b H; [reflexivity |].
  cbn [allChars] in H. apply andb_true_iff in H. destruct H as [Hc Hr].
  cbn [collapseFrom]. destruct (isSpace c) eqn:E.
  - destruct b; [apply IH, Hr |].
    cbn [allChars]. rewrite (IH true Hr). reflexivity.
  - cbn [allChars]. rewrite (kept_plain c Hc E), (IH false Hr). reflexivity.
Qed.

Lemma collapseFrom_singleSpaced (b : bool) (s : string) :
  singleSpaced (collapseFrom b s) = true /\
  (b = true -> startsSpace (collapseFrom b s) = false).
Proof.
  revert b. induction s as [| c r IH]; intro b.
  - split; reflexivity.
  - cbn [collapseFrom]. destruct (isSpace c) eqn:E.
    + destruct b.
      * apply IH.
      * destruct (IH true) as [H1 H2]. split; [| discriminate].
        cbn [singleSpaced]. rewrite (H2 eq_refl), H1. reflexivity.
    + destruct (IH false) as [H1 _].
      cbn [singleSpaced startsSpace]. rewrite (space_isSpace c E), H1.
      split; reflexivity.
Qed.

Lemma trimStart_allChars (P : ascii -> bool) (s : string) :
  allChars P s = true -> allChars P (trimStart s) = true.
Proof.
  induction s as [| c r IH]; intro H; [reflexivity |].
  cbn [trimStart]. destruct (isSpace c); [| exact H].
  apply IH. cbn [allChars] in H. apply andb_true_iff in H. apply H.
Qed.

Lemma trimStart_singleSpaced (s : string) :
  singleSpaced s = true -> singleSpaced (trimStart s) = true.
Proof.
  induction s as [| c r IH]; intro H; [reflexivity |].
  cbn [trimStart]. destruct (isSpace c); [| exact H].
  apply IH. cbn [singleSpaced] in H. apply andb_true_iff in H. apply H.
Qed.

Lemma trimEnd_head (c : ascii) (r : string) :
  trimEnd (String c r) = EmptyString \/
  exists r', trimEnd (String c r) = String c r'.
Proof.
  cbn [trimEnd]. destruct (trimEnd r) as [| d r'].
  - destruct (isSpace c); [left; reflexivity | right; eexists; reflexivity].
  - right. eexists. reflexivity.
Qed.

Lemma trimEnd_startsSpace (s : string) :
  startsSpace (trimEnd s) = true -> startsSpace s = true.
Proof.
  destruct s as [| c r]; [discriminate |].
  destruct (trimEnd_head c r) as [-> | [r' ->]]; [discriminate |].
  intro H. exact H.
Qed.

Lemma trimEnd_allChars (P : ascii -> bool) (s : string) :
  allChars P s = true -> allChars P (trimEnd s) = true.
Proof.
  induction s as [| c r IH]; intro H; [reflexivity |].
  cbn [allChars] in H. apply andb_true_iff in H. destruct H as [Hc Hr].
  specialize (IH Hr). cbn [trimEnd].
  destruct (trimEnd r) as [| d r'].
  - destruct (isSpace c); [reflexivity |].
    cbn [allChars]. rewrite Hc. reflexivity.
  - cbn [allChars] in *. rewrite Hc, IH. reflexivity.
Qed.

Lemma trimEnd_singleSpaced (s : string) :
  singleSpaced s = true -> singleSpaced (trimEnd s) = true.
Proof.
  induction s as [| c r IH]; intro H; [reflexivity |].
  cbn [singleSpaced] in H. apply andb_true_iff in H. destruct H as [Hc Hr].
  specialize (IH Hr). pose proof (trimEnd_startsSpace r) as Hh.
  cbn [trimEnd].
  destruct (trimEnd r) as [| d r'] eqn:E.
  - destruct (isSpace c); [reflexivity |].
    cbn [singleSpaced startsSpace]. rewrite andb_false_r. reflexivity.
  - change (singleSpaced (String c (String d r')) = true).
    cbn [singleSpaced] in IH |- *. rewrite IH, andb_true_r.
    destruct (Ascii.eqb c " "%char); [| reflexivity].
    cbn [andb] in Hc |- *. cbn [startsSpace] in Hh |- *.
    destruct (Ascii.eqb d " "%char); [| reflexivity].
    rewrite (Hh eq_refl) in Hc. discriminate Hc.
Qed.

Lemma trimEnd_idempotent (s : string) : trimEnd (trimEnd s) = trimEnd s.
Proof.
  induction s as [| c r IH]; [reflexivity |].
  cbn [trimEnd]. destruct (trimEnd r) as [| d r'] eqn:E.
  - destruct (isSpace c) eqn:Ec; [reflexivity |].
    cbn [trimEnd]. rewrite Ec. reflexivity.
  - change (trimEnd (String c (String d r')) = String c (String d r')).
    cbn [trimEnd] in IH |- *.
    destruct (trimEnd r') as [| d' r'']; rewrite IH; reflexivity.
Qed.

Lemma trimStart_head (s : string) :
  trimStart s = EmptyString \/
  exists c r, trimStart s = String c r /\ isSpace c = false.
Proof.
  induction s as [| c r IH]; [left; reflexivity |].
  cbn [trimStart]. destruct (isSpace c) eqn:E; [exact IH |].
  right. exists c, r. split; [reflexivity | exact E].
Qed.

Lemma trim_idempotent (s : string) : trim (trim s) = trim s.
Proof.
  unfold trim.
  assert (H : trimStart (trimEnd (trimStart s)) = trimEnd (trimStart s)).
  { destruct (trimStart_head s) as [-> | (c & r & -> & Hc)]; [reflexivity |].
    destruct (trimEnd_head c r) as [-> | [r' ->]]; [reflexivity |].
    cbn [trimStart]. rewrite Hc. reflexivity. }
  rewrite H. apply trimEnd_idempotent.
Qed.

Lemma toLowerCase_plain (s : string) :
  allChars plain s = true -> toLowerCase s = s.
Proof.
  induction s as [| c r IH]; intro H; [reflexivity |].
  cbn [allChars] in H. apply andb_true_iff in H. destruct H as [Hc Hr].
  cbn [toLowerCase]. rewrite (plain_lower c Hc), (IH Hr). reflexivity.
Qed.

Lemma replacePunctuation_plain (s : string) :
  allChars plain s = true -> replacePunctuation s = s.
Proof.
  induction s as [| c r IH]; intro H; [reflexivity |].
  cbn [allChars] in H. apply andb_true_iff in H. destruct H as [Hc Hr].
  cbn [replacePunctuation].
  rewrite (plain_word_or_space c Hc), (IH Hr). reflexivity.
Qed.

Lemma collapseFrom_plain_id (b : bool) (s : string) :
  allChars plain s = true -> singleSpaced s = true ->
  (b = true -> startsSpace s = false) ->
  collapseFrom b s = s.
Proof.
  revert b. induction s as [| c r IH]; intros b H Hs Hb; [reflexivity |].
  cbn [allChars] in H. apply andb_true_iff in H. destruct H as [Hc Hr].
  cbn [singleSpaced] in Hs. apply andb_true_iff in Hs. destruct Hs as [Hd Hs].
  cbn [collapseFrom]. rewrite (plain_space c Hc).
  destruct (Ascii.eqb_spec c " "%char) as [-> | Hne].
  - destruct b; [specialize (Hb eq_refl); discriminate Hb |].
    cbn [andb] in Hd. apply negb_true_iff in Hd.
    rewrite (IH true Hr Hs (fun _ => Hd)). reflexivity.
  - rewrite (IH false Hr Hs); [reflexivity | discriminate].
Qed.

(** The normal form: characters, spacing. *)
Lemma normalize_shape (t : string) :
  allChars plain (normalize t) = true /\ singleSpaced (normalize t) = true.
Proof.
  unfold normalize, trim, collapseSpaces. split.
  - apply trimEnd_allChars, trimStart_allChars, collapseFrom_plain,
      replacePunctuation_kept.
  - apply trimEnd_singleSpaced, trimStart_singleSpaced,
      collapseFrom_singleSpaced.
Qed.

Lemma normalize_fixed (t : string) : normalize (normalize t) = normalize t.
Proof.
  destruct (normalize_shape t) as [Hp Hs].
  unfold normalize at 1.
  rewrite (toLowerCase_plain _ Hp), (replacePunctuation_plain _ Hp).
  unfold collapseSpaces.
  rewrite (collapseFrom_plain_id false _ Hp Hs) by discriminate.
  unfold normalize. apply trim_idempotent.
Qed.

End NormalizeFacts.

Section NormalizeExtras.
Import JsString Deduplicator NormalizeSpec.

Example normalize_sample :
  normalize "  Fix:  the API-rate   limiter!! " = "fix the api rate limiter".
Proof. vm_compute. reflexivity. Qed.

(** X25. Normalising a text twice is normalising it once: the normal form
    holds only spaces and word characters that are no capitals, never two
    spaces in a row, and is left as it is by a second pass.  The text
    similarity of two texts is therefore that of their normal forms. *)
Theorem normalize_idempotent :
  forall text : string,
    normalize (normalize text) = normalize text /\
    allChars plain (normalize text) = true /\
    singleSpaced (normalize text) = true /\
    forall other : string,
      calculateTextSimilarity (normalize text) (normalize other)
      = calculateTextSimilarity text other.
Proof.
  intro text. split; [apply normalize_fixed |].
  split; [apply normalize_shape |]. split; [apply normalize_shape |].
  intro other. unfold calculateTextSimilarity.
  rewrite !normalize_fixed. reflexivity.
Qed.

End NormalizeExtras.
